(** * RightBoss candidate portal: profile store, tiered sections, section
      orchestrator and auth-event queue

    A shallow embedding of the TypeScript sources
    - the profile aggregate store, [ProfileProvider] of
      [contexts/ProfileContext] (src/unnamed/part_004),
    - the tier filter of [TieredProfileSection] and the validation of
      [TieredPersonalInfo] (both in
      src/src/components/profile/sections/TieredResumeUpload.tsx),
    - the section orchestrator, the page component
      [UnifiedProfileExperience] (src/unnamed/part_007), as the routes
      mount it inside [PrivateRoute] (src/src/App.tsx,
      src/src/components/PrivateRoute.tsx),
    - the auth-event queue of [UserProvider]
      (src/src/contexts/UserContext.tsx),
    together with the properties the specification states about them.

    The file first gives the definitions (the embedding, concrete
    scenarios, and the specification's own wording where it is compared
    with the code), then the properties. *)

From Stdlib Require Import List Bool Arith NArith ZArith Lia String Ascii.
Import ListNotations.

Set Implicit Arguments.

(* ================================================================== *)
(** ** JavaScript strings and the regular expressions used on them *)
(* ================================================================== *)

Module Js.

(** A JavaScript string is a sequence of UTF-16 code units. *)
Definition code_unit := N.
Definition jsstring := list code_unit.

Fixpoint u16 (s : string) : jsstring :=
  match s with
  | EmptyString => []
  | String a s' => N_of_ascii a :: u16 s'
  end.

Fixpoint eqb (s t : jsstring) : bool :=
  match s, t with
  | [], [] => true
  | c :: s', d :: t' => N.eqb c d && eqb s' t'
  | _, _ => false
  end.

(** [Array.prototype.includes] on an array of strings. *)
Definition includes (xs : list jsstring) (x : jsstring) : bool :=
  existsb (eqb x) xs.

(** [Array.prototype.findIndex]: the first index whose element satisfies
    the predicate, or -1. *)
Fixpoint findIndex_from {A} (p : A -> bool) (i : Z) (xs : list A) : Z :=
  match xs with
  | [] => (-1)%Z
  | x :: xs' => if p x then i else findIndex_from p (i + 1)%Z xs'
  end.
Definition findIndex {A} (p : A -> bool) (xs : list A) : Z :=
  findIndex_from p 0%Z xs.

(** Truthiness of a string: only the empty string is falsy. *)
Definition truthy (s : jsstring) : bool :=
  match s with [] => false | _ => true end.

(** [a || b] on strings. *)
Definition or_else (a b : jsstring) : jsstring := if truthy a then a else b.

(** ECMAScript WhiteSpace and LineTerminator code points: what [\s]
    matches and what [String.prototype.trim] strips. *)
Definition is_space (c : code_unit) : bool :=
  ((9 <=? c) && (c <=? 13) || (c =? 32) || (c =? 160) || (c =? 5760)
   || (8192 <=? c) && (c <=? 8202) || (c =? 8232) || (c =? 8233)
   || (c =? 8239) || (c =? 8287) || (c =? 12288) || (c =? 65279))%N.

(** [\d] *)
Definition is_digit (c : code_unit) : bool := ((48 <=? c) && (c <=? 57))%N.

Fixpoint trimStart (s : jsstring) : jsstring :=
  match s with
  | c :: s' => if is_space c then trimStart s' else s
  | [] => []
  end.

Definition trimEnd (s : jsstring) : jsstring := rev (trimStart (rev s)).

(** [String.prototype.trim] *)
Definition trim (s : jsstring) : jsstring := trimEnd (trimStart s).

(** *** Regular expressions

    Only the constructs of the two patterns in the sources: character
    classes, concatenation, [?], [+] and [{n,}].  Both patterns are
    anchored with [^] and [$] and carry no flags, so [RegExp.test] decides
    membership of the whole input in the pattern's language. *)

Inductive class_atom : Type :=
| AChar (c : code_unit)    (* a literal character *)
| ADigit                   (* \d *)
| ASpace.                  (* \s *)

Definition atom_has (a : class_atom) (c : code_unit) : bool :=
  match a with
  | AChar d => N.eqb c d
  | ADigit => is_digit c
  | ASpace => is_space c
  end.

Inductive regex : Type :=
| Empty                                        (* matches nothing *)
| Eps                                          (* matches the empty string *)
| Class (negated : bool) (atoms : list class_atom)   (* [...] and [^...] *)
| Cat (r1 r2 : regex)
| Alt (r1 r2 : regex)
| Star (r : regex).

Definition class_has (negated : bool) (atoms : list class_atom)
  (c : code_unit) : bool :=
  xorb negated (existsb (fun a => atom_has a c) atoms).

Definition Lit (c : code_unit) : regex := Class false [AChar c].
Definition Opt (r : regex) : regex := Alt Eps r.            (* r? *)
Definition Plus (r : regex) : regex := Cat r (Star r).      (* r+ *)
Fixpoint AtLeast (n : nat) (r : regex) : regex :=           (* r{n,} *)
  match n with
  | O => Star r
  | S n' => Cat r (AtLeast n' r)
  end.

Fixpoint nullable (r : regex) : bool :=
  match r with
  | Empty => false
  | Eps => true
  | Class _ _ => false
  | Cat r1 r2 => nullable r1 && nullable r2
  | Alt r1 r2 => nullable r1 || nullable r2
  | Star _ => true
  end.

(** Brzozowski derivative of [r] by the code unit [c]. *)
Fixpoint deriv (c : code_unit) (r : regex) : regex :=
  match r with
  | Empty => Empty
  | Eps => Empty
  | Class neg atoms => if class_has neg atoms c then Eps else Empty
  | Cat r1 r2 =>
      if nullable r1
      then Alt (Cat (deriv c r1) r2) (deriv c r2)
      else Cat (deriv c r1) r2
  | Alt r1 r2 => Alt (deriv c r1) (deriv c r2)
  | Star r1 => Cat (deriv c r1) (Star r1)
  end.

(** [/^r$/.test(s)] *)
Fixpoint test (r : regex) (s : jsstring) : bool :=
  match s with
  | [] => nullable r
  | c :: s' => test (deriv c r) s'
  end.

(** The language of a pattern, as a relation. *)
Inductive Matches : regex -> jsstring -> Prop :=
| MEps : Matches Eps []
| MClass neg atoms c :
    class_has neg atoms c = true -> Matches (Class neg atoms) [c]
| MCat r1 r2 s1 s2 :
    Matches r1 s1 -> Matches r2 s2 -> Matches (Cat r1 r2) (s1 ++ s2)
| MAltL r1 r2 s : Matches r1 s -> Matches (Alt r1 r2) s
| MAltR r1 r2 s : Matches r2 s -> Matches (Alt r1 r2) s
| MStar0 r : Matches (Star r) []
| MStarS r s1 s2 :
    Matches r s1 -> Matches (Star r) s2 -> Matches (Star r) (s1 ++ s2).

End Js.

(* ================================================================== *)
(** ** Data model of [ProfileContext.tsx] *)
(* ================================================================== *)

Module Data.
Import Js.

Inductive StagePreference : Type := neutral | preferred | avoid.
Inductive RemotePreference : Type := remote | hybrid | office | flexible.
Inductive EmploymentType : Type := full_time | part_time | contract | internship.

Record CompanyStagePreferences : Type := {
  early_stage : StagePreference;
  late_stage : StagePreference;
  enterprise : StagePreference
}.

Record Resume : Type := {
  file_url : jsstring;
  file_name : jsstring;
  upload_date : jsstring
}.

(** [interface ProfileData]; an optional field is an [option]. *)
Record ProfileData : Type := {
  id : jsstring;
  full_name : jsstring;
  email : jsstring;
  avatar_url : option jsstring;
  phone_number : option jsstring;
  location : option jsstring;
  title : option jsstring;
  bio : option jsstring;
  linkedin_url : option jsstring;
  github_url : option jsstring;
  website_url : option jsstring;
  resume_url : option jsstring;
  company_stage_preferences : CompanyStagePreferences;
  locations : list jsstring;
  remote_preference : RemotePreference;
  graduation_date : option jsstring;
  employment_type : EmploymentType;
  selected_roles : list jsstring;
  resume : option Resume;
  onboarding_completed : bool;
  completed_steps : list jsstring
}.

Record CompletionStatus : Type := {
  personalInfo : bool;
  externalProfiles : bool;
  companyPreferences : bool;
  locationPreferences : bool;
  employmentDetails : bool;
  roles : bool
}.

Definition initialCompanyStagePreferences : CompanyStagePreferences :=
  {| early_stage := neutral; late_stage := neutral; enterprise := neutral |}.

Definition initialProfileData : ProfileData := {|
  id := []; full_name := []; email := [];
  avatar_url := None; phone_number := None; location := None;
  title := None; bio := None;
  linkedin_url := None; github_url := None; website_url := None;
  resume_url := None;
  company_stage_preferences := initialCompanyStagePreferences;
  locations := [];
  remote_preference := flexible;
  graduation_date := None;
  employment_type := full_time;
  selected_roles := [];
  resume := None;
  onboarding_completed := false;
  completed_steps := []
|}.

Definition initialCompletionStatus : CompletionStatus := {|
  personalInfo := false; externalProfiles := false;
  companyPreferences := false; locationPreferences := false;
  employmentDetails := false; roles := false
|}.

(** A [Partial<ProfileData>]: the keys present in the object, with their
    values.  Spreading it over an aggregate assigns them in order. *)
Inductive FieldUpdate : Type :=
| id_ (v : jsstring)
| full_name_ (v : jsstring)
| email_ (v : jsstring)
| avatar_url_ (v : jsstring)
| phone_number_ (v : jsstring)
| location_ (v : jsstring)
| title_ (v : jsstring)
| bio_ (v : jsstring)
| linkedin_url_ (v : jsstring)
| github_url_ (v : jsstring)
| website_url_ (v : jsstring)
| resume_url_ (v : jsstring)
| company_stage_preferences_ (v : CompanyStagePreferences)
| locations_ (v : list jsstring)
| remote_preference_ (v : RemotePreference)
| graduation_date_ (v : option jsstring)
| employment_type_ (v : EmploymentType)
| selected_roles_ (v : list jsstring)
| resume_ (v : Resume)
| onboarding_completed_ (v : bool)
| completed_steps_ (v : list jsstring).

Definition Partial := list FieldUpdate.

Definition set_completed_steps (p : ProfileData) (v : list jsstring)
  : ProfileData :=
  {| id := id p; full_name := full_name p; email := email p;
     avatar_url := avatar_url p; phone_number := phone_number p;
     location := location p; title := title p; bio := bio p;
     linkedin_url := linkedin_url p; github_url := github_url p;
     website_url := website_url p; resume_url := resume_url p;
     company_stage_preferences := company_stage_preferences p;
     locations := locations p; remote_preference := remote_preference p;
     graduation_date := graduation_date p;
     employment_type := employment_type p;
     selected_roles := selected_roles p; resume := resume p;
     onboarding_completed := onboarding_completed p;
     completed_steps := v |}.

Definition set_onboarding_completed (p : ProfileData) (v : bool)
  : ProfileData :=
  {| id := id p; full_name := full_name p; email := email p;
     avatar_url := avatar_url p; phone_number := phone_number p;
     location := location p; title := title p; bio := bio p;
     linkedin_url := linkedin_url p; github_url := github_url p;
     website_url := website_url p; resume_url := resume_url p;
     company_stage_preferences := company_stage_preferences p;
     locations := locations p; remote_preference := remote_preference p;
     graduation_date := graduation_date p;
     employment_type := employment_type p;
     selected_roles := selected_roles p; resume := resume p;
     onboarding_completed := v;
     completed_steps := completed_steps p |}.

Definition assign (p : ProfileData) (u : FieldUpdate) : ProfileData :=
  let mk i fn em av ph lo ti bi li gi we ru cs ls rp gd et sr rs :=
    {| id := i; full_name := fn; email := em; avatar_url := av;
       phone_number := ph; location := lo; title := ti; bio := bi;
       linkedin_url := li; github_url := gi; website_url := we;
       resume_url := ru; company_stage_preferences := cs; locations := ls;
       remote_preference := rp; graduation_date := gd;
       employment_type := et; selected_roles := sr; resume := rs;
       onboarding_completed := onboarding_completed p;
       completed_steps := completed_steps p |} in
  let i := id p in
  let fn := full_name p in let em := email p in
  let av := avatar_url p in let ph := phone_number p in
  let lo := location p in let ti := title p in let bi := bio p in
  let li := linkedin_url p in let gi := github_url p in
  let we := website_url p in let ru := resume_url p in
  let cs := company_stage_preferences p in let ls := locations p in
  let rp := remote_preference p in let gd := graduation_date p in
  let et := employment_type p in let sr := selected_roles p in
  let rs := resume p in
  match u with
  | id_ v => mk v fn em av ph lo ti bi li gi we ru cs ls rp gd et sr rs
  | full_name_ v => mk i v em av ph lo ti bi li gi we ru cs ls rp gd et sr rs
  | email_ v => mk i fn v av ph lo ti bi li gi we ru cs ls rp gd et sr rs
  | avatar_url_ v =>
      mk i fn em (Some v) ph lo ti bi li gi we ru cs ls rp gd et sr rs
  | phone_number_ v =>
      mk i fn em av (Some v) lo ti bi li gi we ru cs ls rp gd et sr rs
  | location_ v =>
      mk i fn em av ph (Some v) ti bi li gi we ru cs ls rp gd et sr rs
  | title_ v => mk i fn em av ph lo (Some v) bi li gi we ru cs ls rp gd et sr rs
  | bio_ v => mk i fn em av ph lo ti (Some v) li gi we ru cs ls rp gd et sr rs
  | linkedin_url_ v =>
      mk i fn em av ph lo ti bi (Some v) gi we ru cs ls rp gd et sr rs
  | github_url_ v =>
      mk i fn em av ph lo ti bi li (Some v) we ru cs ls rp gd et sr rs
  | website_url_ v =>
      mk i fn em av ph lo ti bi li gi (Some v) ru cs ls rp gd et sr rs
  | resume_url_ v =>
      mk i fn em av ph lo ti bi li gi we (Some v) cs ls rp gd et sr rs
  | company_stage_preferences_ v =>
      mk i fn em av ph lo ti bi li gi we ru v ls rp gd et sr rs
  | locations_ v => mk i fn em av ph lo ti bi li gi we ru cs v rp gd et sr rs
  | remote_preference_ v =>
      mk i fn em av ph lo ti bi li gi we ru cs ls v gd et sr rs
  | graduation_date_ v =>
      mk i fn em av ph lo ti bi li gi we ru cs ls rp v et sr rs
  | employment_type_ v =>
      mk i fn em av ph lo ti bi li gi we ru cs ls rp gd v sr rs
  | selected_roles_ v =>
      mk i fn em av ph lo ti bi li gi we ru cs ls rp gd et v rs
  | resume_ v =>
      mk i fn em av ph lo ti bi li gi we ru cs ls rp gd et sr (Some v)
  | onboarding_completed_ v => set_onboarding_completed p v
  | completed_steps_ v => set_completed_steps p v
  end.

(** [{ ...profileData, ...data }] *)
Definition spread (p : ProfileData) (data : Partial) : ProfileData :=
  fold_left assign data p.

(** *** The remote store's rows and the identity provider's user *)

Record PostgrestError : Type := { code : jsstring; message : jsstring }.

(** What an awaited remote call yields: an object [{ data, error }], or a
    rejected promise. *)
Inductive reply (A : Type) : Type :=
| Reply (data : option A) (error : option PostgrestError)
| Rejects.
Arguments Rejects {A}.

Record UserMetadata : Type := {
  meta_full_name : option jsstring;
  meta_avatar_url : option jsstring
}.

Record User : Type := {
  user_id : jsstring;
  user_email : option jsstring;
  user_metadata : option UserMetadata
}.

Record ProfilesRow : Type := {
  row_full_name : jsstring;
  row_email : jsstring;
  row_avatar_url : option jsstring;
  row_phone_number : option jsstring;
  row_location : option jsstring;
  row_linkedin_url : option jsstring;
  row_github_url : option jsstring;
  row_website_url : option jsstring
}.

Record PreferencesRow : Type := {
  row_resume_url : option jsstring;
  row_company_stage_preferences : option CompanyStagePreferences;
  row_locations : option (list jsstring);
  row_remote_preference : option RemotePreference;
  row_graduation_date : option jsstring;
  row_employment_type : option EmploymentType
}.

Record OnboardingRow : Type := {
  row_completed : option bool;
  row_completed_steps : option (list jsstring);
  row_selected_roles : option (list jsstring)
}.

(** The three payloads built by [saveProfile]. *)
Record ProfilePayload : Type := {
  pp_id : jsstring;
  pp_full_name : jsstring;
  pp_email : jsstring;
  pp_avatar_url : option jsstring;
  pp_linkedin_url : option jsstring;
  pp_github_url : option jsstring;
  pp_website_url : option jsstring;
  pp_phone_number : option jsstring;
  pp_location : option jsstring;
  pp_title : option jsstring;
  pp_bio : option jsstring
}.

Record PreferencesPayload : Type := {
  fp_user_id : jsstring;
  fp_company_stage_preferences : CompanyStagePreferences;
  fp_locations : list jsstring;
  fp_remote_preference : RemotePreference;
  fp_graduation_date : option jsstring;
  fp_employment_type : EmploymentType;
  fp_resume_url : option jsstring
}.

Record OnboardingPayload : Type := {
  op_user_id : jsstring;
  op_selected_roles : list jsstring;
  op_completed_steps : list jsstring;
  op_completed : bool
}.

Inductive table : Type := profiles | user_preferences | user_onboarding.

Inductive ThemeMode : Type := onboarding | profile.

End Data.

(* ================================================================== *)
(** ** Effects of the handlers *)
(* ================================================================== *)

(** A handler of a React component runs against the values captured by the
    render that created it and acts on the world only through state
    setters, remote calls, the console and the router.  It is modelled as a
    function from the captured values (and the replies of the remote calls
    it awaits) to the sequence of those actions, in program order, and its
    completion. *)
Module Fx.
Import Js Data.

Inductive effect : Type :=
(* state setters of ProfileProvider *)
| SetProfileData (p : ProfileData)
| SetIsLoading (b : bool)
| SetCompletionStatus (c : CompletionStatus)
(* remote calls *)
| AuthGetUser
| SelectSingle (t : table) (key : jsstring)
| SelectMaybeSingle (t : table) (key : jsstring)
| UpsertProfiles (payload : ProfilePayload)
| UpsertPreferences (payload : PreferencesPayload)
| UpsertOnboarding (payload : OnboardingPayload)
(* console *)
| ConsoleError (msg : jsstring)
| ConsoleWarn (msg : jsstring)
(* state setters of the UnifiedProfileExperience page *)
| SetCurrentStep (n : Z)
| SetActiveSection (s : jsstring)
| SetIsSaving (b : bool)
| SetIsFormValid (b : bool)
| SetHasAttemptedContinue (b : bool)
| SetSaveSuccessMessage (msg : jsstring)
(* DOM, local storage, router *)
| BlurActiveElement
| LocalStorageRemoveItem (key : jsstring)
| GoToDashboard.

(** The table an upsert writes, if the effect is one. *)
Definition upsert_table (e : effect) : option table :=
  match e with
  | UpsertProfiles _ => Some profiles
  | UpsertPreferences _ => Some user_preferences
  | UpsertOnboarding _ => Some user_onboarding
  | _ => None
  end.

Definition is_remote (e : effect) : bool :=
  match e with
  | AuthGetUser | SelectSingle _ _ | SelectMaybeSingle _ _
  | UpsertProfiles _ | UpsertPreferences _ | UpsertOnboarding _ => true
  | _ => false
  end.

Definition is_console_error (e : effect) : bool :=
  match e with ConsoleError _ => true | _ => false end.

Fixpoint upserts (l : list effect) : list table :=
  match l with
  | [] => []
  | e :: l' =>
      match upsert_table e with
      | Some t => t :: upserts l'
      | None => upserts l'
      end
  end.

(** A computation: the effects performed so far, and either its value or
    [None] when an exception is propagating. *)
Definition M (A : Type) : Type := (list effect * option A)%type.

Definition ret {A} (a : A) : M A := ([], Some a).
Definition throw {A} : M A := ([], None).
Definition emit (e : effect) : M unit := ([e], Some tt).

Definition bind {A B} (m : M A) (f : A -> M B) : M B :=
  match m with
  | (l, Some a) => let (l', r) := f a in (l ++ l', r)
  | (l, None) => (l, None)
  end.

(** [await call]: performs the call; a rejected promise throws. *)
Definition await {A} (call : effect) (r : reply A)
  : M (option A * option PostgrestError) :=
  match r with
  | Reply d e => ([call], Some (d, e))
  | Rejects => ([call], None)
  end.

(** [try { m } catch { h }] *)
Definition try_catch {A} (m : M A) (h : M A) : M A :=
  match m with
  | (l, Some a) => (l, Some a)
  | (l, None) => let (l', r) := h in (l ++ l', r)
  end.

(** [... finally { fin }], for a [finally] block that neither throws nor
    returns. *)
Definition finally {A} (m : M A) (fin : list effect) : M A :=
  (fst m ++ fin, snd m).

Definition when (b : bool) (m : M unit) : M unit := if b then m else ret tt.

Definition effects {A} (m : M A) : list effect := fst m.
Definition result {A} (m : M A) : option A := snd m.

End Fx.

Declare Scope fx_scope.
Delimit Scope fx_scope with fx.
Notation "x <- m ;; k" := (Fx.bind m (fun x => k))
  (at level 61, m at next level, right associativity) : fx_scope.
Notation "' p <- m ;; k" := (Fx.bind m (fun x => let p := x in k))
  (at level 61, p pattern, m at next level, right associativity) : fx_scope.
Notation "m ;; k" := (Fx.bind m (fun _ => k))
  (at level 61, right associativity) : fx_scope.

(* ================================================================== *)
(** ** [ProfileContext.tsx]: the profile aggregate store *)
(* ================================================================== *)

Module ProfileContext.
Import Js Data Fx.
Local Open Scope fx_scope.

(** The state of [ProfileProvider]. *)
Record Store : Type := {
  profileData : option ProfileData;
  isLoading : bool;
  completionStatus : CompletionStatus
}.

(** The provider's state on mount. *)
Definition initialStore : Store :=
  {| profileData := None; isLoading := true;
     completionStatus := initialCompletionStatus |}.

(** What the setters do to the store; other effects leave it alone. *)
Definition apply (st : Store) (e : effect) : Store :=
  match e with
  | SetProfileData p =>
      {| profileData := Some p; isLoading := isLoading st;
         completionStatus := completionStatus st |}
  | SetIsLoading b =>
      {| profileData := profileData st; isLoading := b;
         completionStatus := completionStatus st |}
  | SetCompletionStatus c =>
      {| profileData := profileData st; isLoading := isLoading st;
         completionStatus := c |}
  | _ => st
  end.

Definition run (st : Store) (l : list effect) : Store := fold_left apply l st.

(** [isOnboardingComplete] (the [useMemo] over [profileData], [isLoading]) *)
Definition isOnboardingComplete (st : Store) : bool :=
  match isLoading st, profileData st with
  | true, _ => false
  | false, None => false
  | false, Some p =>
      if onboarding_completed p then true
      else
        let hasMinimumRequirements :=
          (0 <? List.length (selected_roles p))
          && (2 <=? List.length (completed_steps p)) in
        hasMinimumRequirements
  end.

Definition opt_truthy (o : option jsstring) : bool :=
  match o with Some s => truthy s | None => false end.

Definition calculateCompletionStatus (data : ProfileData) : M unit :=
  let isPersonalInfoComplete := truthy (full_name data) && truthy (email data) in
  let status := {|
    personalInfo := isPersonalInfoComplete;
    externalProfiles :=
      opt_truthy (linkedin_url data) || opt_truthy (github_url data)
      || opt_truthy (website_url data) || opt_truthy (resume_url data);
    companyPreferences := true;
    locationPreferences := 0 <? List.length (locations data);
    employmentDetails := true;
    roles := 0 <? List.length (selected_roles data)
  |} in
  emit (SetCompletionStatus status).

(** [updateProfile(data)] *)
Definition updateProfile (st : Store) (data : Partial) : M unit :=
  match profileData st with
  | None =>
      emit (ConsoleError
              (u16 "ProfileContext: updateProfile called but profileData is null"))
  | Some p =>
      let updatedData := spread p data in
      emit (SetProfileData updatedData) ;;
      calculateCompletionStatus updatedData
  end.

(** [completeStep(step)] *)
Definition completeStep (st : Store) (step : jsstring) : M unit :=
  match profileData st with
  | None => ret tt
  | Some p =>
      if negb (includes (completed_steps p) step) then
        let updatedSteps := completed_steps p ++ [step] in
        emit (SetProfileData (set_completed_steps p updatedSteps))
      else ret tt
  end.

(** The completed steps the store holds, if it holds an aggregate. *)
Definition steps_of (st : Store) : option (list jsstring) :=
  option_map completed_steps (profileData st).

(** The replies to the remote calls of one [saveProfile]. *)
Record SaveReplies : Type := {
  profiles_upsert : reply unit;
  preferences_upsert : reply unit;
  onboarding_upsert : reply unit;
  verify_select : reply unit
}.

Definition profilePayload (p : ProfileData) : ProfilePayload := {|
  pp_id := id p; pp_full_name := full_name p; pp_email := email p;
  pp_avatar_url := avatar_url p; pp_linkedin_url := linkedin_url p;
  pp_github_url := github_url p; pp_website_url := website_url p;
  pp_phone_number := phone_number p; pp_location := location p;
  pp_title := title p; pp_bio := bio p
|}.

Definition preferencesPayload (p : ProfileData) : PreferencesPayload := {|
  fp_user_id := id p;
  fp_company_stage_preferences := company_stage_preferences p;
  fp_locations := locations p;
  fp_remote_preference := remote_preference p;
  fp_graduation_date := graduation_date p;
  fp_employment_type := employment_type p;
  fp_resume_url := resume_url p
|}.

Definition onboardingPayload (st : Store) (p : ProfileData)
  : OnboardingPayload := {|
  op_user_id := id p;
  op_selected_roles := selected_roles p;
  op_completed_steps := completed_steps p;
  op_completed := isOnboardingComplete st
|}.

Definition is_some {A} (o : option A) : bool :=
  match o with Some _ => true | None => false end.

(** An awaited call succeeded: it answered without an error. *)
Definition succeeded {A} (r : reply A) : bool :=
  match r with
  | Reply _ None => true
  | _ => false
  end.

(** An awaited call answered (with or without an error) rather than
    rejecting. *)
Definition answered {A} (r : reply A) : bool :=
  match r with
  | Reply _ _ => true
  | Rejects => false
  end.

(** [saveProfile()]: [Some (Some b)] is [return b], [Some None] is the bare
    [return] (undefined), [None] would be an exception reaching the
    caller. *)
Definition saveProfile (st : Store) (r : SaveReplies) : M (option bool) :=
  match profileData st with
  | None =>
      emit (ConsoleError
              (u16 "ProfileContext: saveProfile called but profileData is null")) ;;
      ret None
  | Some p =>
      let saveSuccessful := true in
      finally
        (try_catch
           (emit (SetIsLoading true) ;;
            (* Update profile table *)
            '(_, profileError) <-
               await (UpsertProfiles (profilePayload p)) (profiles_upsert r) ;;
            when (is_some profileError)
              (emit (ConsoleError
                       (u16 "ProfileContext: Error updating profiles table:"))) ;;
            let saveSuccessful :=
              if is_some profileError then false else saveSuccessful in
            (* Update preferences table *)
            '(_, preferencesError) <-
               await (UpsertPreferences (preferencesPayload p))
                     (preferences_upsert r) ;;
            when (is_some preferencesError)
              (emit (ConsoleError
                       (u16 "ProfileContext: Error updating user_preferences table:"))) ;;
            let saveSuccessful :=
              if is_some preferencesError then false else saveSuccessful in
            (* Update onboarding status *)
            '(_, onboardingError) <-
               await (UpsertOnboarding (onboardingPayload st p))
                     (onboarding_upsert r) ;;
            when (is_some onboardingError)
              (emit (ConsoleError
                       (u16 "ProfileContext: Error updating user_onboarding table:"))) ;;
            let saveSuccessful :=
              if is_some onboardingError then false else saveSuccessful in
            (* Verify saved data with a fresh fetch *)
            try_catch
              (await (SelectSingle profiles (id p)) (verify_select r) ;; ret tt)
              (emit (ConsoleError
                       (u16 "ProfileContext: Error during verification, but continuing:"))) ;;
            when (negb saveSuccessful)
              (emit (ConsoleWarn
                       (u16 "ProfileContext: saveProfile completed with some errors, profile may be partially updated"))) ;;
            ret (Some saveSuccessful))
           (emit (ConsoleError
                    (u16 "ProfileContext: Critical error saving profile:")) ;;
            ret (Some false)))
        [SetIsLoading false]
  end.

(** The replies to the remote calls of one [loadProfileData]. *)
Record LoadReplies : Type := {
  get_user : reply User;
  profiles_select : reply ProfilesRow;
  preferences_select : reply PreferencesRow;
  onboarding_select : reply OnboardingRow
}.

Definition PGRST116 : jsstring := u16 "PGRST116".

(** [error && error.code !== 'PGRST116'] *)
Definition error_other_than_not_found (e : option PostgrestError) : bool :=
  match e with
  | Some err => negb (eqb (code err) PGRST116)
  | None => false
  end.

(** [row?.field || fallback] for a string field *)
Definition field_or {R} (row : option R) (f : R -> option jsstring)
  (fallback : jsstring) : jsstring :=
  match row with
  | Some r => match f r with Some s => or_else s fallback | None => fallback end
  | None => fallback
  end.

(** [row?.field || fallback] for a field whose values are all truthy
    (objects, arrays, non-empty enum strings) *)
Definition value_or {R A} (row : option R) (f : R -> option A) (fallback : A)
  : A :=
  match row with
  | Some r => match f r with Some v => v | None => fallback end
  | None => fallback
  end.

Definition combine (user : User) (profileRow : option ProfilesRow)
  (preferencesRow : option PreferencesRow) (onboardingRow : option OnboardingRow)
  : ProfileData := {|
  id := user_id user;
  full_name :=
    field_or profileRow (fun r => Some (row_full_name r))
      (field_or (user_metadata user) meta_full_name []);
  email :=
    field_or profileRow (fun r => Some (row_email r))
      (field_or (Some user) user_email []);
  avatar_url :=
    Some (field_or profileRow row_avatar_url
            (field_or (user_metadata user) meta_avatar_url []));
  phone_number := Some (field_or profileRow row_phone_number []);
  location := Some (field_or profileRow row_location []);
  title := title initialProfileData;
  bio := bio initialProfileData;
  linkedin_url := Some (field_or profileRow row_linkedin_url []);
  github_url := Some (field_or profileRow row_github_url []);
  website_url := Some (field_or profileRow row_website_url []);
  resume_url := Some (field_or preferencesRow row_resume_url []);
  company_stage_preferences :=
    value_or preferencesRow row_company_stage_preferences
      (company_stage_preferences initialProfileData);
  locations := value_or preferencesRow row_locations [];
  remote_preference := value_or preferencesRow row_remote_preference flexible;
  graduation_date :=
    match preferencesRow with
    | Some r =>
        match row_graduation_date r with
        | Some d => if truthy d then Some d else None
        | None => None
        end
    | None => None
    end;
  employment_type := value_or preferencesRow row_employment_type full_time;
  selected_roles := value_or onboardingRow row_selected_roles [];
  resume := resume initialProfileData;
  onboarding_completed :=
    match onboardingRow with
    | Some r => match row_completed r with Some b => b | None => false end
    | None => false
    end;
  completed_steps := value_or onboardingRow row_completed_steps []
|}.

(** [loadProfileData()] *)
Definition loadProfileData (r : LoadReplies) : M unit :=
  finally
    (try_catch
       (emit (SetIsLoading true) ;;
        (* Get the current user *)
        '(user, _) <- await AuthGetUser (get_user r) ;;
        match user with
        | None => emit (SetIsLoading false)
        | Some user =>
            (* Get the user's profile *)
            '(profileRow, profileError) <-
               await (SelectSingle profiles (user_id user)) (profiles_select r) ;;
            if error_other_than_not_found profileError then
              emit (ConsoleError (u16 "ProfileContext: Error loading profile")) ;;
              emit (SetIsLoading false)
            else
              (* Get user preferences *)
              '(preferencesRow, preferencesError) <-
                 await (SelectMaybeSingle user_preferences (user_id user))
                       (preferences_select r) ;;
              when (is_some preferencesError)
                (emit (ConsoleError
                         (u16 "ProfileContext: Error loading preferences"))) ;;
              (* Get completed onboarding steps *)
              '(onboardingRow, onboardingError) <-
                 await (SelectMaybeSingle user_onboarding (user_id user))
                       (onboarding_select r) ;;
              when (error_other_than_not_found onboardingError)
                (emit (ConsoleError
                         (u16 "ProfileContext: Error loading onboarding status"))) ;;
              (* Combine all data into our profile model *)
              let combinedData :=
                combine user profileRow preferencesRow onboardingRow in
              emit (SetProfileData combinedData) ;;
              calculateCompletionStatus combinedData
        end)
       (emit (ConsoleError (u16 "ProfileContext: Error in loadProfileData"))))
    [SetIsLoading false].

Definition reply_data {A} (r : reply A) : option A :=
  match r with Reply d _ => d | Rejects => None end.

Definition reply_error {A} (r : reply A) : option PostgrestError :=
  match r with Reply _ e => e | Rejects => None end.

(** The reply carries an error whose code is not the not-found code. *)
Definition other_error {A} (r : reply A) : bool :=
  error_other_than_not_found (reply_error r).

(** The reply of [.single()] when no row exists: no data, and the error
    coded PGRST116. *)
Definition not_found_single {A} (r : reply A) : Prop :=
  exists e, r = Reply None (Some e) /\ code e = PGRST116.

(** The reply of [.maybeSingle()] when no row exists: no data, no error. *)
Definition not_found_maybeSingle {A} (r : reply A) : Prop :=
  r = Reply None None.

End ProfileContext.

(* ================================================================== *)
(** ** [TieredProfileSection.tsx]: the tier filter *)
(* ================================================================== *)

Module TieredProfileSection.
Import Js Data.

(** [enum FieldTier { ESSENTIAL = 1, IMPORTANT = 2, COMPREHENSIVE = 3 }];
    at run time a tier is a number. *)
Module FieldTier.
Definition ESSENTIAL : Z := 1.
End FieldTier.

(** [interface TieredField], without the rendered node.  [tier] is [None]
    when the property is undefined. *)
Record TieredField : Type := {
  field_id : jsstring;
  tier : option Z;
  label : option jsstring;
  required : option bool
}.

(** [field.tier === FieldTier.ESSENTIAL] *)
Definition tier_is (f : TieredField) (t : Z) : bool :=
  match tier f with
  | Some n => Z.eqb n t
  | None => false
  end.

(** [const currentMode = forceMode || mode] *)
Definition currentMode (forceMode : option ThemeMode) (mode : ThemeMode)
  : ThemeMode :=
  match forceMode with Some m => m | None => mode end.

(** The predicate of the [visibleFields] filter. *)
Definition visible (currentMode : ThemeMode) (field : TieredField) : bool :=
  match currentMode with
  | onboarding => tier_is field FieldTier.ESSENTIAL
  | profile => true
  end.

Definition visibleFields (forceMode : option ThemeMode) (mode : ThemeMode)
  (fields : list TieredField) : list TieredField :=
  filter (visible (currentMode forceMode mode)) fields.

End TieredProfileSection.

(* ================================================================== *)
(** ** [TieredPersonalInfo.tsx]: validation of the personal section *)
(* ================================================================== *)

Module TieredPersonalInfo.
Import Js Data Fx.
Local Open Scope fx_scope.

Definition at_sign : code_unit := 64%N.
Definition dot : code_unit := 46%N.
Definition plus_sign : code_unit := 43%N.
Definition hyphen : code_unit := 45%N.
Definition lparen : code_unit := 40%N.
Definition rparen : code_unit := 41%N.

(** [[^\s@]] *)
Definition not_space_or_at : regex := Class true [ASpace; AChar at_sign].

(** [/^[^\s@]+@[^\s@]+\.[^\s@]+$/] *)
Definition email_pattern : regex :=
  Cat (Plus not_space_or_at)
    (Cat (Lit at_sign)
       (Cat (Plus not_space_or_at)
          (Cat (Lit dot) (Plus not_space_or_at)))).

(** [[\d\s-()]]: digits, white space, and the literal characters
    [-], [(] and [)] (a class escape cannot bound a range). *)
Definition phone_char : regex :=
  Class false [ADigit; ASpace; AChar hyphen; AChar lparen; AChar rparen].

(** [/^\+?[\d\s-()]{10,}$/] *)
Definition phone_pattern : regex :=
  Cat (Opt (Lit plus_sign)) (AtLeast 10 phone_char).

(** The section's three validated inputs. *)
Definition nameValid (fullName : jsstring) : bool :=
  2 <=? List.length (trim fullName).
Definition emailValid (email : jsstring) : bool := test email_pattern email.
Definition phoneValid (phone : jsstring) : bool :=
  negb (truthy (trim phone)) || test phone_pattern phone.

(** The component's input state. *)
Record Fields : Type := {
  fullName : jsstring;
  email : jsstring;
  phone : jsstring;
  location : jsstring;
  title : jsstring;
  bio : jsstring;
  linkedinUrl : jsstring;
  githubUrl : jsstring;
  personalWebsite : jsstring
}.

Definition isValidNow (f : Fields) : bool :=
  nameValid (fullName f) && emailValid (email f) && phoneValid (phone f).

(** [validateAndNotify()]: computes the validity, passes it to the
    [onValidationChange] prop when there is one, and returns it. *)
Definition validateAndNotify (f : Fields)
  (onValidationChange : option (bool -> M unit)) : M bool :=
  let isValidNow := isValidNow f in
  match onValidationChange with
  | Some notify => notify isValidNow
  | None => ret tt
  end ;;
  ret isValidNow.

End TieredPersonalInfo.

(* ================================================================== *)
(** ** [pages/UnifiedProfileExperience.tsx]: the section orchestrator *)
(* ================================================================== *)

Module UnifiedProfileExperience.
Import Js Data Fx ProfileContext.
Local Open Scope fx_scope.
Local Open Scope Z_scope.

Record Section : Type := {
  section_id : jsstring;
  section_title : jsstring;
  section_required : option bool
}.

Definition profileSections : list Section := [
  {| section_id := u16 "welcome"; section_title := u16 "Welcome";
     section_required := None |};
  {| section_id := u16 "personal";
     section_title := u16 "Personal Information";
     section_required := Some true |};
  {| section_id := u16 "roles"; section_title := u16 "Roles & Skills";
     section_required := Some true |};
  {| section_id := u16 "preferences"; section_title := u16 "Preferences";
     section_required := Some false |};
  {| section_id := u16 "education"; section_title := u16 "Education";
     section_required := Some false |};
  {| section_id := u16 "resume"; section_title := u16 "Resume";
     section_required := Some false |};
  {| section_id := u16 "complete"; section_title := u16 "Complete";
     section_required := None |}
].

(** [profileSections[i]]: undefined outside the array. *)
Definition sectionAt (i : Z) : option Section :=
  if i <? 0 then None else nth_error profileSections (Z.to_nat i).

(** The page's own state. *)
Record Page : Type := {
  currentStep : Z;
  activeSection : jsstring;
  isSaving : bool;
  isFormValid : bool;
  hasAttemptedContinue : bool;
  saveSuccessMessage : jsstring
}.

(** The page's state on mount. *)
Definition initialPage : Page :=
  {| currentStep := 0; activeSection := u16 "welcome"; isSaving := false;
     isFormValid := false; hasAttemptedContinue := false;
     saveSuccessMessage := [] |}.

(** What a setter does to the state of the mounted page; the other effects
    do not touch that state. *)
Definition apply (pg : Page) (e : effect) : Page :=
  match e with
  | SetCurrentStep n =>
      {| currentStep := n; activeSection := activeSection pg;
         isSaving := isSaving pg; isFormValid := isFormValid pg;
         hasAttemptedContinue := hasAttemptedContinue pg;
         saveSuccessMessage := saveSuccessMessage pg |}
  | SetActiveSection s =>
      {| currentStep := currentStep pg; activeSection := s;
         isSaving := isSaving pg; isFormValid := isFormValid pg;
         hasAttemptedContinue := hasAttemptedContinue pg;
         saveSuccessMessage := saveSuccessMessage pg |}
  | SetIsSaving b =>
      {| currentStep := currentStep pg; activeSection := activeSection pg;
         isSaving := b; isFormValid := isFormValid pg;
         hasAttemptedContinue := hasAttemptedContinue pg;
         saveSuccessMessage := saveSuccessMessage pg |}
  | SetIsFormValid b =>
      {| currentStep := currentStep pg; activeSection := activeSection pg;
         isSaving := isSaving pg; isFormValid := b;
         hasAttemptedContinue := hasAttemptedContinue pg;
         saveSuccessMessage := saveSuccessMessage pg |}
  | SetHasAttemptedContinue b =>
      {| currentStep := currentStep pg; activeSection := activeSection pg;
         isSaving := isSaving pg; isFormValid := isFormValid pg;
         hasAttemptedContinue := b;
         saveSuccessMessage := saveSuccessMessage pg |}
  | SetSaveSuccessMessage m =>
      {| currentStep := currentStep pg; activeSection := activeSection pg;
         isSaving := isSaving pg; isFormValid := isFormValid pg;
         hasAttemptedContinue := hasAttemptedContinue pg;
         saveSuccessMessage := m |}
  | _ => pg
  end.

(** An effect that takes the page off the screen.  Every route of the page
    renders it inside [PrivateRoute], which returns the loading screen in
    place of its children while the profile provider's [isLoading] is true;
    and [goToDashboard] ([navigate('/dashboard')]) leaves the page's
    route.  The provider sits above the routes and keeps its state. *)
Definition unmounts (e : effect) : bool :=
  match e with
  | SetIsLoading true | GoToDashboard => true
  | _ => false
  end.

(** The page once the effects of a computation started from it have taken
    place: the page on the screen or, when the computation took it off the
    screen, the page as it is mounted next.  Until then the setters act on
    it; those called afterwards reach no mounted instance, and the
    instance mounted next starts from the initial state. *)
Fixpoint run (pg : Page) (l : list effect) : Page :=
  match l with
  | [] => pg
  | e :: l' => if unmounts e then initialPage else run (apply pg e) l'
  end.

Definition is_required (s : Section) : bool :=
  match section_required s with Some true => true | _ => false end.

(** [handleValidationChange(isValid)] *)
Definition handleValidationChange (pg : Page) (isValid : bool) : M unit :=
  emit (SetIsFormValid isValid) ;;
  if hasAttemptedContinue pg then
    let required_ :=
      match sectionAt (currentStep pg) with
      | Some s => is_required s
      | None => false
      end in
    if required_ && negb isValid then
      emit (SetSaveSuccessMessage
              (u16 "Please complete all required fields before continuing."))
    else emit (SetSaveSuccessMessage [])
  else ret tt.

(** [canContinue()] *)
Definition canContinue (pg : Page) : bool :=
  let currentSection := sectionAt (currentStep pg) in
  if isSaving pg then false
  else
    match currentSection with
    | None => false
    | Some currentSection =>
        if eqb (section_id currentSection) (u16 "welcome")
           || eqb (section_id currentSection) (u16 "complete")
        then true
        else if is_required currentSection then isFormValid pg
        else true
    end.

(** [profileSections.length - 1] *)
Definition lastStep : Z := Z.of_nat (List.length profileSections) - 1.

Definition failed_to_save : jsstring :=
  u16 "Failed to save changes. Please try again.".

(** [handleNext()].  [st] and [pg] are the store and page values captured by
    the render the handler belongs to: the [saveProfile] and [updateProfile]
    it calls are the ones of that render.  [focusInForm] tells whether the
    focused element lies inside the personal-info form; [r1] answers the
    save made before leaving the personal section, [r2] the save that ends
    the step. *)
Definition handleNext (st : Store) (pg : Page) (focusInForm : bool)
  (r1 r2 : SaveReplies) : M unit :=
  emit (SetHasAttemptedContinue true) ;;
  if negb (canContinue pg) then ret tt
  else
    finally
      (try_catch
         (emit (SetIsSaving true) ;;
          (* Special handling for personal info section *)
          proceed <-
            (if eqb (activeSection pg) (u16 "personal") then
               when focusInForm (emit BlurActiveElement) ;;
               try_catch
                 (saveProfile st r1 ;; ret true)
                 (emit (ConsoleError (u16 "Error saving personal info:")) ;;
                  emit (SetSaveSuccessMessage failed_to_save) ;;
                  ret false)
             else ret true) ;;
          if negb proceed then ret tt
          else
            match profileData st with
            | None => throw
            | Some p =>
                (* Mark current section as complete if not already completed *)
                when (negb (includes (completed_steps p) (activeSection pg)))
                  (updateProfile st
                     [completed_steps_ (completed_steps p ++ [activeSection pg])]) ;;
                if currentStep pg =? lastStep
                then
                  (* at the last step, mark onboarding as complete *)
                  updateProfile st [onboarding_completed_ true] ;;
                  saved <-
                    try_catch
                      (saveProfile st r2 ;; ret true)
                      (emit (ConsoleError (u16 "Error in final save:")) ;;
                       emit (SetSaveSuccessMessage failed_to_save) ;;
                       ret false) ;;
                  if negb saved then ret tt
                  else
                    emit (LocalStorageRemoveItem (u16 "force_onboarding")) ;;
                    emit (LocalStorageRemoveItem
                            (u16 "force_onboarding_timestamp")) ;;
                    emit GoToDashboard
                else
                  (* Otherwise, move to the next step *)
                  let nextStep := currentStep pg + 1 in
                  match sectionAt nextStep with
                  | None => throw
                  | Some next =>
                      emit (SetCurrentStep nextStep) ;;
                      emit (SetActiveSection (section_id next)) ;;
                      emit (SetHasAttemptedContinue false) ;;
                      (* Save profile after all updates *)
                      try_catch
                        (saveProfile st r2 ;;
                         emit (SetSaveSuccessMessage []))
                        (emit (ConsoleError
                                 (u16 "Error saving profile after navigation:")) ;;
                         emit (SetSaveSuccessMessage
                                 (u16 "Changes saved but there was an error updating some information.")))
                  end
            end)
         (emit (ConsoleError (u16 "Error in handleNext:")) ;;
          emit (SetSaveSuccessMessage failed_to_save)))
      [SetIsSaving false].

(** The effect "If user has completed onboarding, redirect to dashboard",
    run after a render in which one of its dependencies changed. *)
Definition redirectWhenComplete (forceMode : bool) (mode : ThemeMode)
  (st : Store) (pg : Page) : M unit :=
  let in_onboarding_mode :=
    match mode with onboarding => true | profile => false end in
  if negb forceMode && in_onboarding_mode && isOnboardingComplete st
     && negb (isLoading st)
  then
    if currentStep pg =? lastStep then
      emit (LocalStorageRemoveItem (u16 "force_onboarding")) ;;
      emit (LocalStorageRemoveItem (u16 "force_onboarding_timestamp")) ;;
      emit GoToDashboard
    else ret tt
  else ret tt.

(** [handleBack()] *)
Definition handleBack (pg : Page) : M unit :=
  if 0 <? currentStep pg then
    let prevStep := currentStep pg - 1 in
    emit (SetCurrentStep prevStep) ;;
    match sectionAt prevStep with
    | None => throw
    | Some prev => emit (SetActiveSection (section_id prev))
    end
  else ret tt.

(** What [handleSectionClick] reads of the mouse event. *)
Record MouseEvent : Type := {
  target_is_currentTarget : bool;     (* e.currentTarget === e.target *)
  target_tagName : jsstring           (* e.target.tagName *)
}.

(** [profileData?.completed_steps?.includes(sectionId)], read as a
    condition *)
Definition is_completed (st : Store) (sectionId : jsstring) : bool :=
  match profileData st with
  | Some p => includes (completed_steps p) sectionId
  | None => false
  end.

(** [handleSectionClick(sectionId, e)] *)
Definition handleSectionClick (st : Store) (pg : Page) (mode : ThemeMode)
  (sectionId : jsstring) (e : MouseEvent) : M unit :=
  if negb (target_is_currentTarget e)
     && negb (eqb (target_tagName e) (u16 "SPAN"))
  then ret tt
  else
    let completed := is_completed st sectionId in
    let in_profile_mode :=
      match mode with profile => true | onboarding => false end in
    if in_profile_mode || completed then
      if negb (eqb (activeSection pg) sectionId) then
        emit (SetActiveSection sectionId) ;;
        emit (SetCurrentStep
                (findIndex (fun s => eqb (section_id s) sectionId)
                   profileSections))
      else ret tt
    else ret tt.

(** Successive clicks on the same section entry, each handled by the
    render that follows the previous one. *)
Fixpoint sectionClicks (st : Store) (mode : ThemeMode) (sectionId : jsstring)
  (es : list MouseEvent) (pg : Page) : Page :=
  match es with
  | [] => pg
  | e :: es' =>
      sectionClicks st mode sectionId es'
        (run pg (effects (handleSectionClick st pg mode sectionId e)))
  end.

(** The click hit the entry's button or the label inside it. *)
Definition on_entry (e : MouseEvent) : bool :=
  target_is_currentTarget e || eqb (target_tagName e) (u16 "SPAN").

(** A click on the section button itself. *)
Definition buttonClick : MouseEvent :=
  {| target_is_currentTarget := true; target_tagName := u16 "BUTTON" |}.

End UnifiedProfileExperience.

(* ================================================================== *)
(** ** [UserContext.tsx]: the auth-event queue *)
(* ================================================================== *)

Module UserContext.
Import Js Data.

Record Session : Type := { session_user : option User }.

(** An entry of [authEventQueueRef]. *)
Record AuthEvent : Type := {
  event : jsstring;
  session : option Session
}.

Definition event_user (e : AuthEvent) : option User :=
  match session e with
  | Some s => session_user s
  | None => None
  end.

(** The drain's console line ['Processing auth event'] opens the processing
    of an event; the [finally] block closes it. *)
Inductive mark : Type :=
| Begin (e : AuthEvent)
| End_ (e : AuthEvent).

(** The refs and state of [UserProvider] that the queue touches.
    [suspended] holds the events whose processing is waiting at
    [await loadUserData(...)]; [log] records where processings begin and
    end. *)
Record Provider : Type := {
  mountedRef : bool;
  processingAuthEventRef : bool;
  authEventQueueRef : list AuthEvent;
  sessionState : option Session;
  userState : option User;
  suspended : list AuthEvent;
  log : list mark
}.

(** The provider once its effect has run, before any event. *)
Definition mounted : Provider :=
  {| mountedRef := true; processingAuthEventRef := false;
     authEventQueueRef := []; sessionState := None; userState := None;
     suspended := []; log := [] |}.

Definition SIGNED_IN : jsstring := u16 "SIGNED_IN".
Definition SIGNED_OUT : jsstring := u16 "SIGNED_OUT".
Definition USER_DELETED : jsstring := u16 "USER_DELETED".
Definition TOKEN_REFRESHED : jsstring := u16 "TOKEN_REFRESHED".

(** The processing of [e] reaches [await loadUserData(...)]. *)
Definition awaits (e : AuthEvent) : bool :=
  eqb (event e) SIGNED_IN
  && match event_user e with Some _ => true | None => false end.

(** The state updates of the [try] block that run before any [await]
    ([safeSetState] and [resetStates] act only while mounted, which the
    caller has checked). *)
Definition processSync (e : AuthEvent) (p : Provider) : Provider :=
  if eqb (event e) SIGNED_IN then
    {| mountedRef := mountedRef p;
       processingAuthEventRef := processingAuthEventRef p;
       authEventQueueRef := authEventQueueRef p;
       sessionState := session e; userState := event_user e;
       suspended := suspended p; log := log p |}
  else if eqb (event e) SIGNED_OUT || eqb (event e) USER_DELETED then
    {| mountedRef := mountedRef p;
       processingAuthEventRef := processingAuthEventRef p;
       authEventQueueRef := authEventQueueRef p;
       sessionState := None; userState := None;
       suspended := suspended p; log := log p |}
  else if eqb (event e) TOKEN_REFRESHED then
    {| mountedRef := mountedRef p;
       processingAuthEventRef := processingAuthEventRef p;
       authEventQueueRef := authEventQueueRef p;
       sessionState := session e; userState := userState p;
       suspended := suspended p; log := log p |}
  else p.

(** [processNextAuthEvent()], up to the point where it returns or
    suspends; [queue] is the content of [authEventQueueRef] at the call. *)
Fixpoint processQueue (queue : list AuthEvent) (p : Provider) : Provider :=
  if negb (mountedRef p) || processingAuthEventRef p then p
  else
    match queue with
    | [] => p
    | nextEvent :: rest =>
        (* processing = true; shift() *)
        let p1 :=
          processSync nextEvent
            {| mountedRef := mountedRef p;
               processingAuthEventRef := true;
               authEventQueueRef := rest;
               sessionState := sessionState p; userState := userState p;
               suspended := suspended p;
               log := log p ++ [Begin nextEvent] |} in
        if awaits nextEvent then
          {| mountedRef := mountedRef p1;
             processingAuthEventRef := processingAuthEventRef p1;
             authEventQueueRef := authEventQueueRef p1;
             sessionState := sessionState p1; userState := userState p1;
             suspended := nextEvent :: suspended p1;
             log := log p1 |}
        else
          (* finally: processing = false; process next event if any *)
          let p2 :=
            {| mountedRef := mountedRef p1;
               processingAuthEventRef := false;
               authEventQueueRef := authEventQueueRef p1;
               sessionState := sessionState p1; userState := userState p1;
               suspended := suspended p1;
               log := log p1 ++ [End_ nextEvent] |} in
          match rest with
          | [] => p2
          | _ :: _ => processQueue rest p2
          end
    end.

Definition processNextAuthEvent (p : Provider) : Provider :=
  processQueue (authEventQueueRef p) p.

(** The [finally] block of a processing that was suspended on [e], run
    when [loadUserData] settles (resolved or rejected). *)
Definition resume (e : AuthEvent) (others : list AuthEvent) (p : Provider)
  : Provider :=
  let p1 :=
    {| mountedRef := mountedRef p;
       processingAuthEventRef := false;
       authEventQueueRef := authEventQueueRef p;
       sessionState := sessionState p; userState := userState p;
       suspended := others;
       log := log p ++ [End_ e] |} in
  match authEventQueueRef p1 with
  | [] => p1
  | _ :: _ => processNextAuthEvent p1
  end.

(** The [onAuthStateChange] callback. *)
Definition onAuthStateChange (e : AuthEvent) (p : Provider) : Provider :=
  if negb (mountedRef p) then p
  else
    (* immediate state updates *)
    let p1 :=
      if eqb (event e) SIGNED_IN then
        {| mountedRef := mountedRef p;
           processingAuthEventRef := processingAuthEventRef p;
           authEventQueueRef := authEventQueueRef p;
           sessionState := session e; userState := event_user e;
           suspended := suspended p; log := log p |}
      else if eqb (event e) SIGNED_OUT || eqb (event e) USER_DELETED then
        {| mountedRef := mountedRef p;
           processingAuthEventRef := processingAuthEventRef p;
           authEventQueueRef := authEventQueueRef p;
           sessionState := None; userState := None;
           suspended := suspended p; log := log p |}
      else p in
    (* queue the event for full data processing *)
    processNextAuthEvent
      {| mountedRef := mountedRef p1;
         processingAuthEventRef := processingAuthEventRef p1;
         authEventQueueRef := authEventQueueRef p1 ++ [e];
         sessionState := sessionState p1; userState := userState p1;
         suspended := suspended p1; log := log p1 |}.

(** The effect's cleanup. *)
Definition unmount (p : Provider) : Provider :=
  {| mountedRef := false; processingAuthEventRef := false;
     authEventQueueRef := [];
     sessionState := sessionState p; userState := userState p;
     suspended := suspended p; log := log p |}.

(** What can happen to the provider between two turns of the event loop. *)
Inductive action : Type :=
| Arrive (e : AuthEvent)     (* the identity provider delivers an event *)
| Settle (i : nat)           (* the i-th suspended processing resumes *)
| Unmount.

(** Removes the [i]-th element, returning it with the others. *)
Fixpoint pick {A} (i : nat) (l : list A) : option (A * list A) :=
  match l, i with
  | [], _ => None
  | x :: l', O => Some (x, l')
  | x :: l', S i' =>
      match pick i' l' with
      | Some (y, l'') => Some (y, x :: l'')
      | None => None
      end
  end.

Definition step (p : Provider) (a : action) : Provider :=
  match a with
  | Arrive e => onAuthStateChange e p
  | Settle i =>
      match pick i (suspended p) with
      | Some (e, others) => resume e others p
      | None => p
      end
  | Unmount => unmount p
  end.

Definition run (p : Provider) (acts : list action) : Provider :=
  fold_left step acts p.

(** The events delivered, in order of arrival. *)
Fixpoint arrivals (acts : list action) : list AuthEvent :=
  match acts with
  | [] => []
  | Arrive e :: acts' => e :: arrivals acts'
  | _ :: acts' => arrivals acts'
  end.

(** The events whose processing has begun, in order. *)
Fixpoint begun (l : list mark) : list AuthEvent :=
  match l with
  | [] => []
  | Begin e :: l' => e :: begun l'
  | End_ _ :: l' => begun l'
  end.

(** Logs in which processings do not overlap.  [Idle l]: every processing
    that began has ended before the next one began.  [Busy e l]: the same,
    except that the last one, of [e], has not ended yet. *)
Inductive Idle : list mark -> Prop :=
| idle_nil : Idle []
| idle_cons e l : Idle l -> Idle (Begin e :: End_ e :: l).

Inductive Busy (e : AuthEvent) : list mark -> Prop :=
| busy_last : Busy e [Begin e]
| busy_cons e' l : Busy e l -> Busy e (Begin e' :: End_ e' :: l).

Definition Sequential (l : list mark) : Prop :=
  Idle l \/ exists e, Busy e l.

(** What holds of the provider between two turns of the event loop: at
    most one processing is suspended, the log is sequential, the flag is
    set while a processing is suspended on a mounted provider, and nothing
    waits in the queue unless a processing is under way. *)
Definition Inv (p : Provider) : Prop :=
  match suspended p with
  | [] =>
      Idle (log p) /\ processingAuthEventRef p = false
      /\ authEventQueueRef p = []
  | [e] =>
      Busy e (log p)
      /\ (mountedRef p = true -> processingAuthEventRef p = true)
      /\ (mountedRef p = false ->
          processingAuthEventRef p = false /\ authEventQueueRef p = [])
  | _ :: _ :: _ => False
  end.

End UserContext.

(* ================================================================== *)
(** ** Scenarios: concrete stores, pages and replies *)
(* ================================================================== *)

Module Scenarios.
Import Js Data Fx ProfileContext UnifiedProfileExperience.

(** Scenario C of the specification: two completed steps and one selected
    role, no explicit flag. *)
Definition frontend_two_steps : ProfileData :=
  set_completed_steps
    (assign initialProfileData (selected_roles_ [u16 "frontend"]))
    [u16 "welcome"; u16 "personal"].

Definition scenarioC : Store :=
  {| profileData := Some frontend_two_steps;
     isLoading := false;
     completionStatus := initialCompletionStatus |}.

(** A store that is saving an aggregate whose flag is set. *)
Definition flagged_but_loading : Store :=
  {| profileData := Some (set_onboarding_completed initialProfileData true);
     isLoading := true;
     completionStatus := initialCompletionStatus |}.


(** A loaded store whose aggregate has completed the welcome step. *)
Definition welcomed : Store :=
  {| profileData :=
       Some (set_completed_steps initialProfileData [u16 "welcome"]);
     isLoading := false;
     completionStatus := initialCompletionStatus |}.




Definition ok : reply unit := Reply (Some tt) None.
Definition server_error {A} : reply A :=
  Reply None (Some {| code := u16 "500"; message := u16 "internal error" |}).

Definition all_ok : SaveReplies :=
  {| profiles_upsert := ok; preferences_upsert := ok;
     onboarding_upsert := ok; verify_select := ok |}.

(** Scenario E of the specification: only the preferences upsert fails. *)
Definition scenarioE : SaveReplies :=
  {| profiles_upsert := ok; preferences_upsert := server_error;
     onboarding_upsert := ok; verify_select := ok |}.

Definition ada : User :=
  {| user_id := u16 "u-1"; user_email := Some (u16 "ada@x.com");
     user_metadata :=
       Some {| meta_full_name := Some (u16 "Ada Lovelace");
               meta_avatar_url := None |} |}.

Definition ada_row : ProfilesRow :=
  {| row_full_name := u16 "Ada Lovelace"; row_email := u16 "ada@x.com";
     row_avatar_url := None; row_phone_number := None;
     row_location := None; row_linkedin_url := None;
     row_github_url := None; row_website_url := None |}.

Definition not_found {A} : reply A :=
  Reply None (Some {| code := PGRST116; message := u16 "no rows" |}).

(** Scenario A of the specification: a fresh identity with no remote row. *)
Definition scenarioA : LoadReplies :=
  {| get_user := Reply (Some ada) None;
     profiles_select := not_found;
     preferences_select := Reply None None;
     onboarding_select := Reply None None |}.

(** The profile row loads; the preferences query fails with a server
    error; there is no onboarding row. *)
Definition preferences_down : LoadReplies :=
  {| get_user := Reply (Some ada) None;
     profiles_select := Reply (Some ada_row) None;
     preferences_select := server_error;
     onboarding_select := Reply None None |}.

(** The profiles query fails with a server error. *)
Definition profiles_down : LoadReplies :=
  {| get_user := Reply (Some ada) None;
     profiles_select := server_error;
     preferences_select := Reply None None;
     onboarding_select := Reply None None |}.

(** The page on the personal section, as "Get Started" leaves it. *)
Definition at_personal : Page :=
  {| currentStep := 1; activeSection := u16 "personal"; isSaving := false;
     isFormValid := false; hasAttemptedContinue := false;
     saveSuccessMessage := [] |}.



(** Auth events: a sign-in with a user, a token refresh, a sign-out. *)
Definition signed_in : UserContext.AuthEvent :=
  {| UserContext.event := UserContext.SIGNED_IN;
     UserContext.session := Some {| UserContext.session_user := Some ada |} |}.

Definition token_refreshed : UserContext.AuthEvent :=
  {| UserContext.event := UserContext.TOKEN_REFRESHED;
     UserContext.session := Some {| UserContext.session_user := Some ada |} |}.

Definition signed_out : UserContext.AuthEvent :=
  {| UserContext.event := UserContext.SIGNED_OUT;
     UserContext.session := None |}.

(** Three events arrive while the first is still loading; then the load
    settles. *)
Definition burst : list UserContext.action :=
  [UserContext.Arrive signed_in; UserContext.Arrive token_refreshed;
   UserContext.Arrive signed_out; UserContext.Settle 0].
End Scenarios.

(* ================================================================== *)
(** ** The specification's own words *)
(* ================================================================== *)

(** Each definition follows the specification's words; the properties
    below compare it with what the code does. *)
Module Stated.
Import Js Data Fx.

(** A character that is neither white space nor [@]. *)
Definition plain (c : code_unit) : bool :=
  negb (is_space c) && negb (N.eqb c TieredPersonalInfo.at_sign).

(** The "local@domain.tld shape": three non-empty runs of plain
    characters, separated by one [@] and then a dot. *)
Definition email_shape (s : jsstring) : Prop :=
  exists local domain tld,
    s = local ++ TieredPersonalInfo.at_sign
               :: domain ++ TieredPersonalInfo.dot :: tld
    /\ local <> [] /\ domain <> [] /\ tld <> []
    /\ forallb plain local = true
    /\ forallb plain domain = true
    /\ forallb plain tld = true.




(** "Any other remote error [on one of the three collections] is logged
    and leaves the in-memory aggregate empty." *)
Definition load_fails_loud (r : ProfileContext.LoadReplies) : Prop :=
  ProfileContext.other_error (ProfileContext.profiles_select r)
  || ProfileContext.other_error (ProfileContext.preferences_select r)
  || ProfileContext.other_error (ProfileContext.onboarding_select r) = true ->
  existsb is_console_error (effects (ProfileContext.loadProfileData r)) = true
  /\ ProfileContext.profileData
       (ProfileContext.run ProfileContext.initialStore
          (effects (ProfileContext.loadProfileData r))) = None.

(** [in_order ps l]: some effects of [l] satisfy the predicates [ps], one
    after the other. *)
Fixpoint in_order (ps : list (effect -> bool)) (l : list effect) : bool :=
  match ps, l with
  | [], _ => true
  | _ :: _, [] => false
  | p :: ps', e :: l' => if p e then in_order ps' l' else in_order ps l'
  end.

Definition marks_complete (s : jsstring) (e : effect) : bool :=
  match e with
  | SetProfileData p => includes (completed_steps p) s
  | _ => false
  end.

Definition is_upsert (e : effect) : bool :=
  match upsert_table e with Some _ => true | None => false end.

Definition advances_to (n : Z) (e : effect) : bool :=
  match e with SetCurrentStep m => Z.eqb m n | _ => false end.

Definition sets_flag (e : effect) : bool :=
  match e with SetProfileData p => onboarding_completed p | _ => false end.

Definition redirects (e : effect) : bool :=
  match e with GoToDashboard => true | _ => false end.

(** "[forward()] marks the current section complete, persists via save(),
    then moves currentStepIndex += 1.  If the new index is the terminal
    complete state, additionally sets onboarding_completed = true before
    the final save() and triggers a redirect to the dashboard." *)
Definition forward (st : ProfileContext.Store)
  (pg : UnifiedProfileExperience.Page) (focusInForm : bool)
  (r1 r2 : ProfileContext.SaveReplies) : Prop :=
  UnifiedProfileExperience.canContinue pg = true ->
  let done :=
    effects (UnifiedProfileExperience.handleNext st pg focusInForm r1 r2) in
  let next := (UnifiedProfileExperience.currentStep pg + 1)%Z in
  in_order [marks_complete (UnifiedProfileExperience.activeSection pg);
            is_upsert; advances_to next] done = true
  /\ (next = UnifiedProfileExperience.lastStep ->
      in_order [sets_flag; is_upsert; redirects] done = true).

End Stated.

(* ================================================================== *)
(** * More of the code

    Further parts of the same sources, embedded in the same way:
    - the store's operations in sequence, and what [saveProfile] writes
      (src/unnamed/part_004),
    - the page's initial-step effect, its "Get Started" and "Save Changes"
      handlers, and the page as a whole under any sequence of gestures
      (src/unnamed/part_007),
    - the validation effect and the counters of [TieredProfileSection], the
      upload handler of [TieredResumeUpload], and the initialisation, the
      effects and the inputs of [TieredPersonalInfo]
      (src/src/components/profile/sections/TieredResumeUpload.tsx),
    - what the auth-event queue of [UserProvider] leaves shown, and
      [ensureUserHasDefaultRole] (src/src/contexts/UserContext.tsx).
    Their properties follow those of the first part. *)
(* ================================================================== *)

From Stdlib Require DecimalString.

(* ================================================================== *)
(** ** The store's operations in sequence *)
(* ================================================================== *)

Module StoreOps.
Import Js Data Fx ProfileContext.

(** The status [calculateCompletionStatus] computes for an aggregate. *)
Definition status_of (data : ProfileData) : CompletionStatus :=
  {| personalInfo := truthy (full_name data) && truthy (email data);
     externalProfiles :=
       opt_truthy (linkedin_url data) || opt_truthy (github_url data)
       || opt_truthy (website_url data) || opt_truthy (resume_url data);
     companyPreferences := true;
     locationPreferences := 0 <? List.length (locations data);
     employmentDetails := true;
     roles := 0 <? List.length (selected_roles data) |}.

(** A call of one of the provider's operations, each made from the render
    that follows the previous call. *)
Inductive call : Type :=
| Load (r : LoadReplies)
| Update (data : Partial)
| Complete (step : jsstring)
| Save (r : SaveReplies).

Definition exec (st : Store) (c : call) : Store :=
  match c with
  | Load r => run st (effects (loadProfileData r))
  | Update data => run st (effects (updateProfile st data))
  | Complete step => run st (effects (completeStep st step))
  | Save r => run st (effects (saveProfile st r))
  end.

Definition execAll (st : Store) (cs : list call) : Store :=
  fold_left exec cs st.

(** The aggregate holds the value the update assigns. *)
Definition holds (u : FieldUpdate) (p : ProfileData) : Prop :=
  match u with
  | id_ v => id p = v
  | full_name_ v => full_name p = v
  | email_ v => email p = v
  | avatar_url_ v => avatar_url p = Some v
  | phone_number_ v => phone_number p = Some v
  | location_ v => location p = Some v
  | title_ v => title p = Some v
  | bio_ v => bio p = Some v
  | linkedin_url_ v => linkedin_url p = Some v
  | github_url_ v => github_url p = Some v
  | website_url_ v => website_url p = Some v
  | resume_url_ v => resume_url p = Some v
  | company_stage_preferences_ v => company_stage_preferences p = v
  | locations_ v => locations p = v
  | remote_preference_ v => remote_preference p = v
  | graduation_date_ v => graduation_date p = v
  | employment_type_ v => employment_type p = v
  | selected_roles_ v => selected_roles p = v
  | resume_ v => resume p = Some v
  | onboarding_completed_ v => onboarding_completed p = v
  | completed_steps_ v => completed_steps p = v
  end.

(** The key an update assigns. *)
Definition key_of (u : FieldUpdate) : nat :=
  match u with
  | id_ _ => 0 | full_name_ _ => 1 | email_ _ => 2 | avatar_url_ _ => 3
  | phone_number_ _ => 4 | location_ _ => 5 | title_ _ => 6 | bio_ _ => 7
  | linkedin_url_ _ => 8 | github_url_ _ => 9 | website_url_ _ => 10
  | resume_url_ _ => 11 | company_stage_preferences_ _ => 12
  | locations_ _ => 13 | remote_preference_ _ => 14
  | graduation_date_ _ => 15 | employment_type_ _ => 16
  | selected_roles_ _ => 17 | resume_ _ => 18
  | onboarding_completed_ _ => 19 | completed_steps_ _ => 20
  end.

(** The completion status is the one of the aggregate the store holds. *)
Definition in_step (st : Store) : Prop :=
  forall p, profileData st = Some p -> completionStatus st = status_of p.

(** The onboarding payloads a computation sends to the remote store. *)
Fixpoint onboarding_payloads (l : list effect) : list OnboardingPayload :=
  match l with
  | [] => []
  | UpsertOnboarding payload :: l' => payload :: onboarding_payloads l'
  | _ :: l' => onboarding_payloads l'
  end.

(** The rule of the completion evaluator, applied to the onboarding row a
    load received. *)
Definition row_complete (row : option OnboardingRow) : bool :=
  match row with
  | Some r =>
      match row_completed r with Some true => true | _ => false end
      || (0 <? List.length
                 (match row_selected_roles r with Some l => l | None => [] end))
         && (2 <=? List.length
                     (match row_completed_steps r with
                      | Some l => l
                      | None => []
                      end))
  | None => false
  end.

End StoreOps.

(* ================================================================== *)
(** ** The page's other handlers and effects *)
(* ================================================================== *)

Module PageOps.
Import Js Data Fx ProfileContext UnifiedProfileExperience.
Local Open Scope fx_scope.
Local Open Scope Z_scope.

(** [Array.prototype.findIndex] with a predicate that also reads the
    index. *)
Fixpoint findIndexI_from {A} (p : A -> Z -> bool) (i : Z) (xs : list A) : Z :=
  match xs with
  | [] => -1
  | x :: xs' => if p x i then i else findIndexI_from p (i + 1) xs'
  end.
Definition findIndexI {A} (p : A -> Z -> bool) (xs : list A) : Z :=
  findIndexI_from p 0 xs.

(** The page together with its [showWelcome] state. *)
Record View : Type := {
  page : Page;
  showWelcome : bool
}.

(** The view on mount. *)
Definition initialView : View := {| page := initialPage; showWelcome := true |}.

Definition navigate (v : View) (step : Z) (section : jsstring)
  (welcome : bool) : View :=
  {| page :=
       {| currentStep := step; activeSection := section;
          isSaving := isSaving (page v); isFormValid := isFormValid (page v);
          hasAttemptedContinue := hasAttemptedContinue (page v);
          saveSuccessMessage := saveSuccessMessage (page v) |};
     showWelcome := welcome |}.

(** The effect "Set initial step/section based on profile data": the view
    after its setters.  ([profileSections[i].id] of an index the search
    returned, or of index 1, is always defined.) *)
Definition initialStep (st : Store) (mode : ThemeMode) (v : View) : View :=
  match profileData st with
  | Some p =>
      if negb (isLoading st) && (currentStep (page v) =? 0) then
        match mode with
        | onboarding =>
            if includes (completed_steps p) (u16 "welcome") then
              let nextIncompleteIndex :=
                findIndexI
                  (fun section index =>
                     (0 <? index)
                     && negb (includes (completed_steps p) (section_id section)))
                  profileSections in
              if negb (nextIncompleteIndex =? -1) then
                match sectionAt nextIncompleteIndex with
                | Some s => navigate v nextIncompleteIndex (section_id s) false
                | None => v
                end
              else v
            else if negb (showWelcome v) then
              match sectionAt 1 with
              | Some s => navigate v 1 (section_id s) (showWelcome v)
              | None => v
              end
            else v
        | profile =>
            navigate v
              (findIndex (fun s => eqb (section_id s) (u16 "personal"))
                 profileSections)
              (u16 "personal") (showWelcome v)
        end
      else v
  | None => v
  end.

(** The "Get Started" button of the welcome screen: it also sets
    [showWelcome] to false. *)
Definition getStarted (st : Store) : M unit :=
  emit (SetCurrentStep 1) ;;
  match sectionAt 1 with
  | None => throw
  | Some s =>
      emit (SetActiveSection (section_id s)) ;;
      (* Mark welcome as complete *)
      match profileData st with
      | Some p =>
          if negb (includes (completed_steps p) (u16 "welcome")) then
            updateProfile st
              [completed_steps_ (completed_steps p ++ [u16 "welcome"])]
          else ret tt
      | None => ret tt
      end
  end.

(** [setTimeout(callback, delay)]: what a handler leaves scheduled. *)
Record Timer : Type := {
  delay : Z;
  callback : list effect
}.

Definition saved_successfully : jsstring := u16 "Changes saved successfully!".

(** [handleSaveSection()]: the "Save Changes" button of profile mode.  Its
    value is the timer it schedules. *)
Definition handleSaveSection (st : Store) (r : SaveReplies)
  : M (list Timer) :=
  finally
    (try_catch
       (emit (SetIsSaving true) ;;
        saveProfile st r ;;
        emit (SetSaveSuccessMessage saved_successfully) ;;
        ret [ {| delay := 3000; callback := [SetSaveSuccessMessage []] |} ])
       (emit (ConsoleError (u16 "Error saving profile data:")) ;;
        ret []))
    [SetIsSaving false].

(** What the user, or a change of the data, can do to the view.  (The
    page passes no validation callback to the sections it renders, so
    nothing ever calls [handleValidationChange].) *)
Inductive gesture : Type :=
| InitialStep (st : Store) (mode : ThemeMode)
| GetStarted (st : Store)
| Next (st : Store) (focusInForm : bool) (r1 r2 : SaveReplies)
| Back
| Click (st : Store) (mode : ThemeMode) (sectionId : jsstring)
    (e : MouseEvent)
| Save (st : Store) (r : SaveReplies).

(** The view once a handler has run; [welcome] is what the handler leaves
    in [showWelcome].  Where the handler took the page off the screen the
    view is that of the instance mounted next, whose [showWelcome] is the
    initial one. *)
Definition after {A} (v : View) (m : M A) (welcome : bool) : View :=
  {| page := UnifiedProfileExperience.run (page v) (effects m);
     showWelcome :=
       if existsb unmounts (effects m) then showWelcome initialView
       else welcome |}.

Definition perform (v : View) (g : gesture) : View :=
  match g with
  | InitialStep st mode => initialStep st mode v
  | GetStarted st => after v (getStarted st) false
  | Next st focusInForm r1 r2 =>
      after v (handleNext st (page v) focusInForm r1 r2) (showWelcome v)
  | Back => after v (handleBack (page v)) (showWelcome v)
  | Click st mode sectionId e =>
      after v (handleSectionClick st (page v) mode sectionId e)
        (showWelcome v)
  | Save st r => after v (handleSaveSection st r) (showWelcome v)
  end.

Definition performAll (v : View) (gs : list gesture) : View :=
  fold_left perform gs v.

(** The string is the id of one of the sections. *)
Definition is_section_id (s : jsstring) : bool :=
  existsb (fun sec => eqb (section_id sec) s) profileSections.

(** A click made on an entry of the sidebar, which lists sections only. *)
Definition on_a_section (g : gesture) : Prop :=
  match g with
  | Click _ _ sectionId _ => is_section_id sectionId = true
  | _ => True
  end.

(** The active section is the one at the current step. *)
Definition coherent (pg : Page) : bool :=
  match sectionAt (currentStep pg) with
  | Some s => eqb (section_id s) (activeSection pg)
  | None => false
  end.

(** The two state variables that say where the page is. *)
Definition position (pg : Page) : Z * jsstring :=
  (currentStep pg, activeSection pg).

(** The section at the current step asks for a valid form. *)
Definition gated (pg : Page) : bool :=
  (currentStep pg =? 1) || (currentStep pg =? 2).

End PageOps.

(* ================================================================== *)
(** ** Further scenarios *)
(* ================================================================== *)

Module MoreScenarios.
Import Js Data Fx ProfileContext UnifiedProfileExperience Scenarios.
Local Open Scope Z_scope.

(** Nobody is signed in. *)
Definition signed_out_load : LoadReplies :=
  {| get_user := Reply None None;
     profiles_select := Reply None None;
     preferences_select := Reply None None;
     onboarding_select := Reply None None |}.

(** The page on the roles step while a save is under way. *)
Definition saving : Page :=
  {| currentStep := 2; activeSection := u16 "roles"; isSaving := true;
     isFormValid := false; hasAttemptedContinue := false;
     saveSuccessMessage := [] |}.

(** The page on the roles step, no role selected yet. *)
Definition invalid_roles : Page :=
  {| currentStep := 2; activeSection := u16 "roles"; isSaving := false;
     isFormValid := false; hasAttemptedContinue := false;
     saveSuccessMessage := [] |}.

(** A loaded store that holds the given aggregate. *)
Definition loaded (data : ProfileData) : Store :=
  {| profileData := Some data;
     isLoading := false;
     completionStatus := StoreOps.status_of data |}.

(** The page as the initial-step effect places it on a section. *)
Definition placed (step : Z) (section : jsstring) : Page :=
  {| currentStep := step; activeSection := section; isSaving := false;
     isFormValid := false; hasAttemptedContinue := false;
     saveSuccessMessage := [] |}.

(** The first three steps are completed: the page opens on preferences. *)
Definition three_steps : ProfileData :=
  set_completed_steps frontend_two_steps
    [u16 "welcome"; u16 "personal"; u16 "roles"].
Definition resumed : Store := loaded three_steps.
Definition at_preferences : Page := placed 3 (u16 "preferences").

(** The steps through education are completed: the page opens on resume. *)
Definition five_steps : ProfileData :=
  set_completed_steps frontend_two_steps
    [u16 "welcome"; u16 "personal"; u16 "roles"; u16 "preferences";
     u16 "education"].
Definition through_education : Store := loaded five_steps.
Definition at_resume : Page := placed 5 (u16 "resume").

(** Every section is completed but no role is selected, so that onboarding
    does not count as complete: the page opens on the completion screen
    and is not redirected from it. *)
Definition six_steps : ProfileData :=
  set_completed_steps initialProfileData
    [u16 "welcome"; u16 "personal"; u16 "roles"; u16 "preferences";
     u16 "education"; u16 "resume"].
Definition all_done : Store := loaded six_steps.
Definition on_completion : Page := placed 6 (u16 "complete").

End MoreScenarios.

(* ================================================================== *)
(** ** [TieredProfileSection]: the validation effect and the counters *)
(* ================================================================== *)

Module SectionOps.
Import Js Data TieredProfileSection.

(** [fields.filter(field => field.required && field.tier ===
    FieldTier.ESSENTIAL)] *)
Definition requiredFields (fields : list TieredField) : list TieredField :=
  filter (fun field =>
            match required field with Some true => true | _ => false end
            && tier_is field FieldTier.ESSENTIAL)
    fields.

(** [requiredFields.every(field => true)]: what the effect passes to
    [setIsValid] and to [onValidationChange]. *)
Definition allValid (fields : list TieredField) : bool :=
  forallb (fun _ => true) (requiredFields fields).

(** The two counters of the completion indicator shown in profile mode. *)
Definition essentialCount (fields : list TieredField) : nat :=
  List.length (filter (fun f => tier_is f FieldTier.ESSENTIAL) fields).
Definition additionalCount (fields : list TieredField) : nat :=
  List.length (filter (fun f => negb (tier_is f FieldTier.ESSENTIAL)) fields).

End SectionOps.

(* ================================================================== *)
(** ** The auth-event queue: what the provider shows *)
(* ================================================================== *)

Module AuthOps.
Import Js Data UserContext.

(** The session and the user the provider's state holds. *)
Definition shown (p : Provider) : option Session * option User :=
  (sessionState p, userState p).

(** The state updates of the events [es], applied in order. *)
Definition replay (es : list AuthEvent) (p : Provider) : Provider :=
  fold_left (fun q e => processSync e q) es p.

(** Every suspended load settles, [k] times over. *)
Definition settle (k : nat) : list action := repeat (Settle 0) k.

(** [processSync], as it acts on what is shown. *)
Definition sync (e : AuthEvent) (s : option Session * option User)
  : option Session * option User :=
  if eqb (event e) SIGNED_IN then (session e, event_user e)
  else if eqb (event e) SIGNED_OUT || eqb (event e) USER_DELETED
       then (None, None)
  else if eqb (event e) TOKEN_REFRESHED then (session e, snd s)
  else s.

Definition syncAll (es : list AuthEvent) (s : option Session * option User)
  : option Session * option User :=
  fold_left (fun s e => sync e s) es s.

(** Three events arrive while the first is still loading. *)
Definition pending : list action :=
  [Arrive Scenarios.signed_in; Arrive Scenarios.token_refreshed;
   Arrive Scenarios.signed_out].

End AuthOps.

(* ================================================================== *)
(** ** Handlers with events of their own *)
(* ================================================================== *)

Module Hx.
Import Js.

(** A value thrown: an [Error] instance with its [message], or anything
    else. *)
Inductive thrown : Type :=
| Error_ (message : jsstring)
| NotAnError.

(** A computation over events [E]: the events so far, and either its value
    or the value thrown. *)
Definition M (E A : Type) : Type := (list E * (A + thrown))%type.

Definition ret {E A} (a : A) : M E A := ([], inl a).
Definition throw {E A} (x : thrown) : M E A := ([], inr x).
Definition emit {E} (e : E) : M E unit := ([e], inl tt).

Definition bind {E A B} (m : M E A) (f : A -> M E B) : M E B :=
  match m with
  | (l, inl a) => let (l', r) := f a in (l ++ l', r)
  | (l, inr x) => (l, inr x)
  end.

(** [try { m } catch (err) { h err }] *)
Definition try_catch {E A} (m : M E A) (h : thrown -> M E A) : M E A :=
  match m with
  | (l, inl a) => (l, inl a)
  | (l, inr x) => let (l', r) := h x in (l ++ l', r)
  end.

(** [... finally { fin }]: a [finally] block that throws replaces the
    outcome. *)
Definition finally {E A} (m : M E A) (fin : M E unit) : M E A :=
  match fin with
  | (l', inl _) => (fst m ++ l', snd m)
  | (l', inr x) => (fst m ++ l', inr x)
  end.

(** A computation of the profile context, run inside a handler. *)
Definition lift {E A} (inj : Fx.effect -> E) (m : Fx.M A) : M E A :=
  (map inj (Fx.effects m),
   match Fx.result m with Some a => inl a | None => inr NotAnError end).

Definition events {E A} (m : M E A) : list E := fst m.
Definition outcome {E A} (m : M E A) : A + thrown := snd m.

End Hx.

Declare Scope hx_scope.
Delimit Scope hx_scope with hx.
Notation "x <- m ;; k" := (Hx.bind m (fun x => k))
  (at level 61, m at next level, right associativity) : hx_scope.
Notation "m ;; k" := (Hx.bind m (fun _ => k))
  (at level 61, right associativity) : hx_scope.

(* ================================================================== *)
(** ** [TieredResumeUpload.tsx]: the upload handler *)
(* ================================================================== *)

Module TieredResumeUpload.
Import Js Data ProfileContext Hx.
Local Open Scope hx_scope.
Local Open Scope Z_scope.

(** What the handler reads of a [File]. *)
Record File : Type := {
  File_type : jsstring;
  File_size : Z;
  File_name : jsstring
}.

Inductive event : Type :=
(* state setters of the component *)
| SetIsUploading (b : bool)
| SetUploadProgress (n : Z)
| SetError (msg : option jsstring)
| SetSuccess (b : bool)
(* storage *)
| StorageUpload (bucket path : jsstring) (file : File)
| StorageGetPublicUrl (bucket path : jsstring)
(* the profile context *)
| Profile (e : Fx.effect).

(** The component's state. *)
Record Uploader : Type := {
  isUploading : bool;
  uploadProgress : Z;
  error : option jsstring;
  success : bool
}.

Definition initialUploader : Uploader :=
  {| isUploading := false; uploadProgress := 0; error := None;
     success := false |}.

Definition apply (u : Uploader) (e : event) : Uploader :=
  match e with
  | SetIsUploading b =>
      {| isUploading := b; uploadProgress := uploadProgress u;
         error := error u; success := success u |}
  | SetUploadProgress n =>
      {| isUploading := isUploading u; uploadProgress := n;
         error := error u; success := success u |}
  | SetError msg =>
      {| isUploading := isUploading u; uploadProgress := uploadProgress u;
         error := msg; success := success u |}
  | SetSuccess b =>
      {| isUploading := isUploading u; uploadProgress := uploadProgress u;
         error := error u; success := b |}
  | _ => u
  end.

Definition run (u : Uploader) (l : list event) : Uploader :=
  fold_left apply l u.

(** The effects on the profile store among the events. *)
Fixpoint profile_effects (l : list event) : list Fx.effect :=
  match l with
  | [] => []
  | Profile e :: l' => e :: profile_effects l'
  | _ :: l' => profile_effects l'
  end.

Definition is_storage (e : event) : bool :=
  match e with
  | StorageUpload _ _ _ | StorageGetPublicUrl _ _ => true
  | _ => false
  end.

(** What the storage service answers to the upload: [{ data, error }], or
    a rejected promise. *)
Inductive UploadReply : Type :=
| Answered (uploadError : option thrown)
| Rejected (err : thrown).

(** What the handler reads from outside: the clock and the storage
    service.  (The progress reports made during the upload are left out.) *)
Record World : Type := {
  now : Z;                    (* Date.now() *)
  isoNow : jsstring;          (* new Date().toISOString() *)
  upload : UploadReply;
  publicUrl : jsstring        (* what getPublicUrl(filePath) gives *)
}.

Definition validTypes : list jsstring :=
  [u16 "application/pdf"; u16 "application/msword";
   u16 "application/vnd.openxmlformats-officedocument.wordprocessingml.document"].

Definition maxSize : Z := 5 * 1024 * 1024.

(** [s.split(sep)] for a one-character separator. *)
Fixpoint split (sep : code_unit) (s : jsstring) : list jsstring :=
  match s with
  | [] => [[]]
  | c :: s' =>
      if N.eqb c sep then [] :: split sep s'
      else
        match split sep s' with
        | piece :: pieces => (c :: piece) :: pieces
        | [] => [[c]]
        end
  end.

(** [file.name.split('.').pop()] *)
Definition fileExt (name : jsstring) : jsstring :=
  last (split 46%N name) [].

(** A number in a template string, for an integer. *)
Definition number_toString (n : Z) : jsstring :=
  u16 (DecimalString.NilZero.string_of_int (Z.to_int n)).

(** [`resumes/${profileData?.id}-${Date.now()}.${fileExt}`] *)
Definition filePath (st : Store) (w : World) (file : File) : jsstring :=
  u16 "resumes/"
  ++ match profileData st with Some p => id p | None => u16 "undefined" end
  ++ u16 "-" ++ number_toString (now w)
  ++ u16 "." ++ fileExt (File_name file).

(** [await supabase.storage.from('resumes').upload(filePath, file, ...)] *)
Definition await_upload (call : event) (r : UploadReply)
  : M event (option thrown) :=
  match r with
  | Answered uploadError => ([call], inl uploadError)
  | Rejected err => ([call], inr err)
  end.

(** [handleFileUpload(file)]; [st] is the store of the render the handler
    belongs to. *)
Definition handleFileUpload (st : Store) (w : World) (file : File)
  : M event unit :=
  finally
    (try_catch
       (emit (SetIsUploading true) ;;
        emit (SetError None) ;;
        emit (SetSuccess false) ;;
        emit (SetUploadProgress 0) ;;
        (* Validate file type *)
        if negb (includes validTypes (File_type file)) then
          throw (Error_ (u16 "Please upload a PDF or Word document"))
        (* Validate file size (max 5MB) *)
        else if maxSize <? File_size file then
          throw (Error_ (u16 "File size must be less than 5MB"))
        else
          let filePath := filePath st w file in
          (* Upload to Supabase Storage *)
          uploadError <-
            await_upload (StorageUpload (u16 "resumes") filePath file)
              (upload w) ;;
          match uploadError with
          | Some err => throw err
          | None =>
              (* Get the public URL *)
              emit (StorageGetPublicUrl (u16 "resumes") filePath) ;;
              (* Update profile with resume information *)
              lift Profile
                (updateProfile st
                   [resume_ {| file_url := publicUrl w;
                               file_name := File_name file;
                               upload_date := isoNow w |}]) ;;
              emit (SetSuccess true)
          end)
       (fun err =>
          emit (SetError
                  (Some match err with
                        | Error_ message => message
                        | NotAnError => u16 "Failed to upload resume"
                        end))))
    (emit (SetIsUploading false)).

(** The two checks the handler makes before it uploads. *)
Definition accepted (file : File) : bool :=
  includes validTypes (File_type file) && negb (maxSize <? File_size file).

(** A PDF of exactly 5 MiB, one byte more, and a picture. *)
Definition pdf_5MiB : File :=
  {| File_type := u16 "application/pdf"; File_size := 5242880;
     File_name := u16 "cv.final.pdf" |}.
Definition pdf_too_big : File :=
  {| File_type := u16 "application/pdf"; File_size := 5242881;
     File_name := u16 "cv.pdf" |}.
Definition picture : File :=
  {| File_type := u16 "image/png"; File_size := 1000;
     File_name := u16 "me.png" |}.

Definition fine : World :=
  {| now := 1700000000000; isoNow := u16 "2023-11-14T22:13:20.000Z";
     upload := Answered None;
     publicUrl := u16 "https://storage.example/resumes/x.pdf" |}.

End TieredResumeUpload.

(* ================================================================== *)
(** ** [TieredPersonalInfo]: initialisation, its effects, and the inputs *)
(* ================================================================== *)

Module PersonalInfoOps.
Import Js Data ProfileContext TieredPersonalInfo Hx.
Local Open Scope hx_scope.

(** What the component reads of the signed-in user. *)
Record Metadata : Type := {
  md_full_name : option jsstring;
  md_given_name : option jsstring;
  md_family_name : option jsstring;
  md_phone : option jsstring;
  md_location : option jsstring;
  md_title : option jsstring;
  md_bio : option jsstring;
  md_linkedin_url : option jsstring;
  md_github_url : option jsstring;
  md_website_url : option jsstring
}.

Record AuthUser : Type := {
  au_email : option jsstring;
  au_metadata : option Metadata
}.

(** [initializedRef] and [profileDataRef]. *)
Record Refs : Type := {
  initializedRef : bool;
  profileDataRef : option ProfileData
}.

Definition initialRefs : Refs :=
  {| initializedRef := false; profileDataRef := None |}.

Inductive event : Type :=
(* state setters of the component *)
| SetFullName (v : jsstring)
| SetEmail (v : jsstring)
| SetPhone (v : jsstring)
| SetLocation (v : jsstring)
| SetTitle (v : jsstring)
| SetBio (v : jsstring)
| SetLinkedinUrl (v : jsstring)
| SetGithubUrl (v : jsstring)
| SetPersonalWebsite (v : jsstring)
(* assignments to the refs *)
| InitializedRef (b : bool)
| ProfileDataRef (v : option ProfileData)
(* [setTimeout(() => validateAndNotify(), 0)] *)
| SetTimeoutValidate
(* the profile context and the callback prop *)
| Outside (e : Fx.effect).

Definition applyRef (refs : Refs) (e : event) : Refs :=
  match e with
  | InitializedRef b =>
      {| initializedRef := b; profileDataRef := profileDataRef refs |}
  | ProfileDataRef v =>
      {| initializedRef := initializedRef refs; profileDataRef := v |}
  | _ => refs
  end.

(** The effects on the profile store among the events. *)
Fixpoint outside (l : list event) : list Fx.effect :=
  match l with
  | [] => []
  | Outside e :: l' => e :: outside l'
  | _ :: l' => outside l'
  end.

(** The calls of the component's own setters among the events. *)
Definition is_setter (e : event) : bool :=
  match e with
  | InitializedRef _ | ProfileDataRef _ | SetTimeoutValidate | Outside _ =>
      false
  | _ => true
  end.

(** [user?.user_metadata?.key] *)
Definition meta (user : option AuthUser) (key : Metadata -> option jsstring)
  : option jsstring :=
  match user with
  | Some u => match au_metadata u with Some m => key m | None => None end
  | None => None
  end.

(** [profileData?.key] *)
Definition of_profile (profileData : option ProfileData)
  (key : ProfileData -> option jsstring) : option jsstring :=
  match profileData with Some p => key p | None => None end.

(** [a || b], where [a] may be undefined. *)
Definition or_ (a : option jsstring) (b : jsstring) : jsstring :=
  match a with Some s => or_else s b | None => b end.

(** [setIsLoading] is not declared in this component: its [useState] line
    is commented out.  Evaluating the identifier throws a ReferenceError,
    which is an [Error]. *)
Definition setIsLoading_is_not_defined : thrown :=
  Error_ (u16 "setIsLoading is not defined").

Definition is_none {A} (o : option A) : bool :=
  match o with Some _ => false | None => true end.

(** [initializeFields()], the async function of the first effect. *)
Definition initializeFields (refs : Refs) (profileData : option ProfileData)
  (user : option AuthUser) : M event unit :=
  (* Skip if already initialized or no data available *)
  if initializedRef refs || (is_none profileData && is_none user) then ret tt
  else
    finally
      ((* setIsLoading(true) *)
       throw (A := unit) setIsLoading_is_not_defined ;;
       let newFullName :=
         or_ (of_profile profileData (fun p => Some (full_name p)))
           (or_ (meta user md_full_name)
              (or_else
                 (trim (or_ (meta user md_given_name) [] ++ u16 " "
                        ++ or_ (meta user md_family_name) []))
                 [])) in
       let newEmail :=
         or_ (of_profile profileData (fun p => Some (Data.email p)))
           (or_ match user with Some u => au_email u | None => None end []) in
       let newPhone :=
         or_ (of_profile profileData phone_number)
           (or_ (meta user md_phone) []) in
       let newLocation :=
         or_ (of_profile profileData Data.location)
           (or_ (meta user md_location) []) in
       let newTitle :=
         or_ (of_profile profileData Data.title)
           (or_ (meta user md_title) []) in
       let newBio :=
         or_ (of_profile profileData Data.bio) (or_ (meta user md_bio) []) in
       let newLinkedinUrl :=
         or_ (of_profile profileData linkedin_url)
           (or_ (meta user md_linkedin_url) []) in
       let newGithubUrl :=
         or_ (of_profile profileData github_url)
           (or_ (meta user md_github_url) []) in
       let newPersonalWebsite :=
         or_ (of_profile profileData website_url)
           (or_ (meta user md_website_url) []) in
       (* Batch set all values *)
       emit (SetFullName newFullName) ;;
       emit (SetEmail newEmail) ;;
       emit (SetPhone newPhone) ;;
       emit (SetLocation newLocation) ;;
       emit (SetTitle newTitle) ;;
       emit (SetBio newBio) ;;
       emit (SetLinkedinUrl newLinkedinUrl) ;;
       emit (SetGithubUrl newGithubUrl) ;;
       emit (SetPersonalWebsite newPersonalWebsite) ;;
       (* Mark as initialized if we have core required values *)
       (if truthy newFullName && truthy newEmail then
          emit (InitializedRef true) ;;
          emit SetTimeoutValidate
        else ret tt) ;;
       (* Store reference for change detection *)
       emit (ProfileDataRef profileData))
      ((* setIsLoading(false) *)
       throw setIsLoading_is_not_defined).

(** The three effects.  The first calls [initializeFields()] and drops the
    promise, so a rejection does not reach the effect. *)
Definition initializeEffect (refs : Refs) (profileData : option ProfileData)
  (user : option AuthUser) : list event :=
  events (initializeFields refs profileData user).

(** "Reset initialization and revalidate if profile data changes
    significantly" *)
Definition changedEffect (refs : Refs) (profileData : option ProfileData)
  (f : Fields) (onValidationChange : option (bool -> Fx.M unit))
  : list event :=
  match profileData, profileDataRef refs with
  | Some p, Some q =>
      if negb (eqb (id p) (id q)) || negb (eqb (full_name p) (full_name q))
      then
        [InitializedRef false; ProfileDataRef None]
        ++ map Outside (Fx.effects (validateAndNotify f onValidationChange))
      else []
  | _, _ => []
  end.

(** "Run validation whenever fields change" *)
Definition fieldsEffect (refs : Refs) (f : Fields)
  (onValidationChange : option (bool -> Fx.M unit)) : list event :=
  if initializedRef refs then
    map Outside (Fx.effects (validateAndNotify f onValidationChange))
  else [].

(** A run of one of the effects, with the values of its render. *)
Inductive effectRun : Type :=
| Initialize (profileData : option ProfileData) (user : option AuthUser)
| Changed (profileData : option ProfileData) (f : Fields)
    (onValidationChange : option (bool -> Fx.M unit))
| FieldsChanged (f : Fields)
    (onValidationChange : option (bool -> Fx.M unit)).

Definition effectEvents (refs : Refs) (r : effectRun) : list event :=
  match r with
  | Initialize profileData user => initializeEffect refs profileData user
  | Changed profileData f cb => changedEffect refs profileData f cb
  | FieldsChanged f cb => fieldsEffect refs f cb
  end.

(** The effects run one after another: the refs they leave and what they
    did. *)
Fixpoint runEffects (refs : Refs) (rs : list effectRun)
  : Refs * list event :=
  match rs with
  | [] => (refs, [])
  | r :: rs' =>
      let l := effectEvents refs r in
      let (refs', l') := runEffects (fold_left applyRef l refs) rs' in
      (refs', l ++ l')
  end.

(** *** The inputs *)

(** What [mapping[field] || field] evaluates to: a string, or one of the
    properties the mapping object inherits from [Object.prototype], none of
    which is a string. *)
Inductive key : Type :=
| Str (s : jsstring)
| Inherited.

Definition objectPrototypeKeys : list jsstring :=
  [u16 "constructor"; u16 "__defineGetter__"; u16 "__defineSetter__";
   u16 "hasOwnProperty"; u16 "__lookupGetter__"; u16 "__lookupSetter__";
   u16 "isPrototypeOf"; u16 "propertyIsEnumerable"; u16 "toString";
   u16 "valueOf"; u16 "__proto__"; u16 "toLocaleString"].

Definition mapping : list (jsstring * jsstring) :=
  [(u16 "fullName", u16 "full_name");
   (u16 "email", u16 "email");
   (u16 "phone", u16 "phone_number");
   (u16 "location", u16 "location");
   (u16 "title", u16 "title");
   (u16 "bio", u16 "bio");
   (u16 "linkedinUrl", u16 "linkedin_url");
   (u16 "githubUrl", u16 "github_url");
   (u16 "personalWebsite", u16 "website_url")].

Fixpoint lookup (k : jsstring) (l : list (jsstring * jsstring))
  : option jsstring :=
  match l with
  | [] => None
  | (k', v) :: l' => if eqb k k' then Some v else lookup k l'
  end.

(** [mapFieldToProfileKey(field)] *)
Definition mapFieldToProfileKey (field : jsstring) : key :=
  match lookup field mapping with
  | Some profileKey => Str profileKey
  | None => if includes objectPrototypeKeys field then Inherited else Str field
  end.

(** [case k:] of a [switch] over a key. *)
Definition is_key (profileKey : key) (k : jsstring) : bool :=
  match profileKey with
  | Str s => eqb s k
  | Inherited => false
  end.

(** [stored !== value], where [stored] may be undefined. *)
Definition differs (stored : option jsstring) (value : jsstring) : bool :=
  match stored with
  | Some s => negb (eqb s value)
  | None => true
  end.

(** [{ [profileKey]: value }], for the keys the handler passes on. *)
Definition computed (profileKey : key) (value : jsstring) : Partial :=
  if is_key profileKey (u16 "full_name") then [full_name_ value]
  else if is_key profileKey (u16 "email") then [email_ value]
  else if is_key profileKey (u16 "phone_number") then [phone_number_ value]
  else if is_key profileKey (u16 "location") then [location_ value]
  else if is_key profileKey (u16 "title") then [title_ value]
  else if is_key profileKey (u16 "bio") then [bio_ value]
  else if is_key profileKey (u16 "linkedin_url") then [linkedin_url_ value]
  else if is_key profileKey (u16 "github_url") then [github_url_ value]
  else if is_key profileKey (u16 "website_url") then [website_url_ value]
  else [].

(** [handleChange(field, value)]; [st] is the store of the render the
    handler belongs to. *)
Definition handleChange (st : Store) (field value : jsstring)
  : M event unit :=
  (* Update local state *)
  (if eqb field (u16 "fullName") then emit (SetFullName value)
   else if eqb field (u16 "email") then emit (SetEmail value)
   else if eqb field (u16 "phone") then emit (SetPhone value)
   else if eqb field (u16 "location") then emit (SetLocation value)
   else if eqb field (u16 "title") then emit (SetTitle value)
   else if eqb field (u16 "bio") then emit (SetBio value)
   else if eqb field (u16 "linkedinUrl") then emit (SetLinkedinUrl value)
   else if eqb field (u16 "githubUrl") then emit (SetGithubUrl value)
   else if eqb field (u16 "personalWebsite") then
     emit (SetPersonalWebsite value)
   else ret tt) ;;
  (* Map field name to profile key *)
  let profileKey := mapFieldToProfileKey field in
  (* Update profile if needed *)
  match profileData st with
  | Some p =>
      let needsUpdate :=
        if is_key profileKey (u16 "full_name") then
          negb (eqb (full_name p) value)
        else if is_key profileKey (u16 "email") then
          negb (eqb (Data.email p) value)
        else if is_key profileKey (u16 "phone_number") then
          differs (phone_number p) value
        else if is_key profileKey (u16 "location") then
          differs (Data.location p) value
        else if is_key profileKey (u16 "title") then
          differs (Data.title p) value
        else if is_key profileKey (u16 "bio") then
          differs (Data.bio p) value
        else if is_key profileKey (u16 "linkedin_url") then
          differs (linkedin_url p) value
        else if is_key profileKey (u16 "github_url") then
          differs (github_url p) value
        else if is_key profileKey (u16 "website_url") then
          differs (website_url p) value
        else false in
      if needsUpdate then
        try_catch
          (lift Outside (updateProfile st (computed profileKey value)))
          (fun _ =>
             emit (Outside
                     (Fx.ConsoleError (u16 "Error updating profile data:"))))
      else ret tt
  | None => ret tt
  end.

(** The nine inputs: the field name the input passes to [handleChange],
    its setter, and the key of the aggregate it stands for. *)
Definition wiring
  : list (jsstring * (jsstring -> event) * (jsstring -> FieldUpdate)) :=
  [(u16 "fullName", SetFullName, full_name_);
   (u16 "email", SetEmail, email_);
   (u16 "phone", SetPhone, phone_number_);
   (u16 "location", SetLocation, location_);
   (u16 "title", SetTitle, title_);
   (u16 "bio", SetBio, bio_);
   (u16 "linkedinUrl", SetLinkedinUrl, linkedin_url_);
   (u16 "githubUrl", SetGithubUrl, github_url_);
   (u16 "personalWebsite", SetPersonalWebsite, website_url_)].

(** The aggregate does not hold the value an update would assign. *)
Definition stale (p : ProfileData) (u : FieldUpdate) : bool :=
  match u with
  | full_name_ v => negb (eqb (full_name p) v)
  | email_ v => negb (eqb (Data.email p) v)
  | phone_number_ v => differs (phone_number p) v
  | location_ v => differs (Data.location p) v
  | title_ v => differs (Data.title p) v
  | bio_ v => differs (Data.bio p) v
  | linkedin_url_ v => differs (linkedin_url p) v
  | github_url_ v => differs (github_url p) v
  | website_url_ v => differs (website_url p) v
  | _ => false
  end.

(** *** The marks of the inputs *)

(** [s.includes(c)] for a one-character string [c]. *)
Definition includes_char (s : jsstring) (c : code_unit) : bool :=
  existsb (N.eqb c) s.

(** [valid={fullName.trim().length > 0}] *)
Definition nameMark (fullName : jsstring) : bool :=
  0 <? List.length (trim fullName).

(** [valid={email.includes('@') && email.includes('.')}] *)
Definition emailMark (email : jsstring) : bool :=
  includes_char email at_sign && includes_char email dot.

End PersonalInfoOps.

(* ================================================================== *)
(** ** [UserContext.tsx]: the default role *)
(* ================================================================== *)

Module UserRoles.
Import Js Data Hx.
Local Open Scope hx_scope.

(** [type UserRole] *)
Record UserRole : Type := {
  role_id : jsstring;
  role_name : jsstring
}.

(** The row [from('roles').select('id')] yields. *)
Record RoleRow : Type := { row_id : jsstring }.

Inductive event : Type :=
(* state setters of the provider *)
| SetRoles (roles : list UserRole)
| SetPermissions (permissions : list jsstring)
(* remote calls *)
| SelectDefaultRole
| InsertUserRole (user_id role_id : jsstring)
(* console *)
| ConsoleError (msg : jsstring).

(** The provider's roles and permissions. *)
Record Held : Type := {
  roles : list UserRole;
  permissions : list jsstring
}.

Definition apply (h : Held) (e : event) : Held :=
  match e with
  | SetRoles r => {| roles := r; permissions := permissions h |}
  | SetPermissions p => {| roles := roles h; permissions := p |}
  | _ => h
  end.

Definition run (h : Held) (l : list event) : Held := fold_left apply l h.

Definition is_setter (e : event) : bool :=
  match e with
  | SetRoles _ | SetPermissions _ => true
  | _ => false
  end.

(** [mountedRef.current], as read when the function is called and in the
    stretch of code that follows each [await]. *)
Record Mounted : Type := {
  at_call : bool;
  after_select : bool;
  after_insert : bool
}.

Fixpoint startsWith (s prefix : jsstring) : bool :=
  match prefix, s with
  | [], _ => true
  | c :: prefix', d :: s' => N.eqb c d && startsWith s' prefix'
  | _ :: _, [] => false
  end.

(** [s.includes(part)] *)
Fixpoint str_includes (s part : jsstring) : bool :=
  startsWith s part
  || match s with
     | [] => false
     | _ :: s' => str_includes s' part
     end.

Definition await {A} (call : event) (r : reply A)
  : M event (option A * option PostgrestError) :=
  match r with
  | Reply d e => ([call], inl (d, e))
  | Rejects => ([call], inr NotAnError)
  end.

(** [safeSetState(setRoles, [{ id, name: 'user' }]);
     safeSetState(setPermissions, new Set(['basic_access']))], in a stretch
    where the provider is mounted. *)
Definition setUserRole (id : jsstring) : M event unit :=
  emit (SetRoles [ {| role_id := id; role_name := u16 "user" |} ]) ;;
  emit (SetPermissions [u16 "basic_access"]).

Definition is_some {A} (o : option A) : bool :=
  match o with Some _ => true | None => false end.

(** [ensureUserHasDefaultRole(userId)].  The [catch] block is reached from
    a rejected [await] only, so the [mountedRef.current] it reads is the
    one of the stretch after that [await]. *)
Definition ensureUserHasDefaultRole (userId : jsstring) (mt : Mounted)
  (roleReply : reply RoleRow) (assignReply : reply unit) : M event unit :=
  if negb (at_call mt) then ret tt
  else
    try_catch
      (x <- await SelectDefaultRole roleReply ;;
       let (roleData, roleError) := x in
       if negb (after_select mt) then ret tt
       else
         match roleData, roleError with
         | Some row, None =>
             y <- await (InsertUserRole userId (row_id row)) assignReply ;;
             let (_, assignError) := y in
             if negb (after_insert mt) then ret tt
             else
               match assignError with
               | Some e =>
                   if str_includes (message e) (u16 "unique constraint")
                   then ret tt
                   else emit (ConsoleError
                                (u16 "Error assigning default role:"))
               | None => ret tt
               end ;;
               setUserRole (row_id row)
         | _, _ =>
             emit (ConsoleError (u16 "Error fetching default role:")) ;;
             setUserRole (u16 "default")
         end)
      (fun _ =>
         emit (ConsoleError (u16 "Error in ensureUserHasDefaultRole:")) ;;
         if match roleReply with
            | Rejects => after_select mt
            | Reply _ _ => after_insert mt
            end
         then setUserRole (u16 "default")
         else ret tt).

(** [hasRole(roleName)] and [hasPermission(permissionName)] *)
Definition hasRole (h : Held) (roleName : jsstring) : bool :=
  existsb (fun role => eqb (role_name role) roleName) (roles h).
Definition hasPermission (h : Held) (permissionName : jsstring) : bool :=
  includes (permissions h) permissionName.

(** The provider stays mounted throughout. *)
Definition stays_mounted : Mounted :=
  {| at_call := true; after_select := true; after_insert := true |}.

(** The role is found, but assigning it fails on some other ground than a
    duplicate. *)
Definition found : reply RoleRow :=
  Reply (Some {| row_id := u16 "r-17" |}) None.
Definition refused : reply unit :=
  Reply None (Some {| code := u16 "42501";
                      message := u16 "permission denied" |}).

End UserRoles.


(* ================================================================== *)
(** * Properties *)
(* ================================================================== *)

Arguments Js.u16 : simpl never.

(** ** JavaScript strings *)

Module JsFacts.
Import Js.

Lemma eqb_eq (s t : jsstring) : eqb s t = true <-> s = t.
Proof.
  revert t. induction s as [| c s IH]; intros [| d t]; simpl;
    try (split; intro; congruence).
  rewrite andb_true_iff, N.eqb_eq, IH. split.
  - intros [-> ->]. reflexivity.
  - intros H. injection H as -> ->. split; reflexivity.
Qed.

Lemma eqb_refl (s : jsstring) : eqb s s = true.
Proof. apply eqb_eq. reflexivity. Qed.

Lemma eqb_neq (s t : jsstring) : eqb s t = false <-> s <> t.
Proof.
  rewrite <- eqb_eq. destruct (eqb s t); split; intro; congruence.
Qed.

Lemma includes_In (xs : list jsstring) (x : jsstring) :
  includes xs x = true <-> In x xs.
Proof.
  unfold includes. rewrite existsb_exists. split.
  - intros [y [Hy He]]. apply eqb_eq in He. subst. exact Hy.
  - intros H. exists x. split; [exact H | apply eqb_refl].
Qed.

Lemma includes_snoc (xs : list jsstring) (x : jsstring) :
  includes (xs ++ [x]) x = true.
Proof. apply includes_In, in_or_app. right. left. reflexivity. Qed.

End JsFacts.

(** ** Regular expressions: the matcher decides the language *)

Module RegexFacts.
Import Js.

Lemma Matches_Cat_inv (r1 r2 : regex) (s : jsstring) :
  Matches (Cat r1 r2) s ->
  exists s1 s2, s = s1 ++ s2 /\ Matches r1 s1 /\ Matches r2 s2.
Proof.
  intros H. inversion H; subst. exists s1, s2. auto.
Qed.

Lemma Matches_Alt_inv (r1 r2 : regex) (s : jsstring) :
  Matches (Alt r1 r2) s -> Matches r1 s \/ Matches r2 s.
Proof. intros H. inversion H; subst; auto. Qed.

Lemma Matches_Class_inv (neg : bool) (atoms : list class_atom) (s : jsstring) :
  Matches (Class neg atoms) s ->
  exists c, s = [c] /\ class_has neg atoms c = true.
Proof. intros H. inversion H; subst. eauto. Qed.

Lemma Matches_Eps_inv (s : jsstring) : Matches Eps s -> s = [].
Proof. intros H. inversion H. reflexivity. Qed.

Lemma Matches_Empty_inv (s : jsstring) : ~ Matches Empty s.
Proof. intros H. inversion H. Qed.

(** A non-empty match of [r*] starts with a non-empty match of [r]. *)
Lemma Matches_Star_cons (r : regex) (c : code_unit) (s : jsstring) :
  Matches (Star r) (c :: s) ->
  exists s1 s2, s = s1 ++ s2 /\ Matches r (c :: s1) /\ Matches (Star r) s2.
Proof.
  intros H. remember (Star r) as r' eqn:Er. remember (c :: s) as t eqn:Et.
  induction H as [| | | | | | r0 s1 s2 H1 _ H2 IH2]; try discriminate.
  injection Er as ->.
  destruct s1 as [| c1 s1]; simpl in Et.
  - apply IH2; [reflexivity | exact Et].
  - injection Et as -> <-. exists s1, s2. auto.
Qed.

Lemma nullable_spec (r : regex) : nullable r = true <-> Matches r [].
Proof.
  induction r as [| | neg atoms | r1 IH1 r2 IH2 | r1 IH1 r2 IH2 | r IH]; simpl.
  - split; [discriminate | intros H; inversion H].
  - split; [intros _; constructor | reflexivity].
  - split; [discriminate | intros H; inversion H].
  - rewrite andb_true_iff, IH1, IH2. split.
    + intros [H1 H2]. exact (MCat H1 H2).
    + intros H. apply Matches_Cat_inv in H.
      destruct H as [s1 [s2 [E [H1 H2]]]].
      symmetry in E. apply app_eq_nil in E. destruct E as [-> ->]. auto.
  - rewrite orb_true_iff, IH1, IH2. split.
    + intros [H | H]; [apply MAltL | apply MAltR]; exact H.
    + apply Matches_Alt_inv.
  - split; [intros _; constructor | reflexivity].
Qed.

Lemma deriv_spec (c : code_unit) (r : regex) (s : jsstring) :
  Matches (deriv c r) s <-> Matches r (c :: s).
Proof.
  revert s.
  induction r as [| | neg atoms | r1 IH1 r2 IH2 | r1 IH1 r2 IH2 | r IH];
    intros s; simpl.
  - split; intros H; inversion H.
  - split; intros H; inversion H.
  - destruct (class_has neg atoms c) eqn:E; split; intros H.
    + apply Matches_Eps_inv in H. subst. constructor. exact E.
    + apply Matches_Class_inv in H. destruct H as [d [Es _]].
      injection Es as _ ->. constructor.
    + inversion H.
    + apply Matches_Class_inv in H. destruct H as [d [Es Hd]].
      injection Es as <- ->. congruence.
  - assert (L : Matches (Cat (deriv c r1) r2) s ->
                Matches (Cat r1 r2) (c :: s)).
    { intros H. apply Matches_Cat_inv in H.
      destruct H as [s1 [s2 [-> [H1 H2]]]].
      apply IH1 in H1. exact (MCat H1 H2). }
    assert (R : Matches (Cat r1 r2) (c :: s) ->
                Matches (Cat (deriv c r1) r2) s
                \/ (Matches r1 [] /\ Matches r2 (c :: s))).
    { intros H. apply Matches_Cat_inv in H.
      destruct H as [s1 [s2 [E [H1 H2]]]].
      destruct s1 as [| c1 s1]; simpl in E.
      - right. subst. auto.
      - left. injection E as <- ->. apply IH1 in H1. exact (MCat H1 H2). }
    destruct (nullable r1) eqn:N.
    + split.
      * intros H. apply Matches_Alt_inv in H. destruct H as [H | H].
        -- exact (L H).
        -- apply IH2 in H. apply nullable_spec in N.
           exact (MCat N H).
      * intros H. destruct (R H) as [H' | [_ H']].
        -- apply MAltL. exact H'.
        -- apply MAltR. apply IH2. exact H'.
    + split; [exact L |].
      intros H. destruct (R H) as [H' | [H' _]]; [exact H' |].
      apply nullable_spec in H'. congruence.
  - split.
    + intros H. apply Matches_Alt_inv in H.
      destruct H as [H | H]; [apply MAltL, IH1 | apply MAltR, IH2]; exact H.
    + intros H. apply Matches_Alt_inv in H.
      destruct H as [H | H]; [apply MAltL, IH1 | apply MAltR, IH2]; exact H.
  - split.
    + intros H. apply Matches_Cat_inv in H.
      destruct H as [s1 [s2 [-> [H1 H2]]]].
      apply IH in H1. exact (MStarS H1 H2).
    + intros H. apply Matches_Star_cons in H.
      destruct H as [s1 [s2 [-> [H1 H2]]]].
      apply IH in H1. exact (MCat H1 H2).
Qed.

(** [test] decides membership in the pattern's language. *)
Theorem test_spec (r : regex) (s : jsstring) :
  test r s = true <-> Matches r s.
Proof.
  revert r. induction s as [| c s IH]; intros r; simpl.
  - apply nullable_spec.
  - rewrite IH. apply deriv_spec.
Qed.

(** *** The shapes of the patterns built from one character class *)

Section OneClass.
Variable neg : bool.
Variable atoms : list class_atom.
Let cls := Class neg atoms.
Let ok (c : code_unit) := class_has neg atoms c.

Lemma Matches_Star_class (s : jsstring) :
  Matches (Star cls) s <-> forallb ok s = true.
Proof.
  split.
  - induction s as [| c s IH]; intros H; [reflexivity |].
    apply Matches_Star_cons in H. destruct H as [s1 [s2 [-> [H1 H2]]]].
    apply Matches_Class_inv in H1. destruct H1 as [d [E Hd]].
    injection E as <- ->. simpl. unfold ok at 1. rewrite Hd.
    apply IH. exact H2.
  - induction s as [| c s IH]; simpl; intros H; [constructor |].
    apply andb_true_iff in H. destruct H as [Hc Hs].
    change (c :: s) with ([c] ++ s).
    apply MStarS; [constructor; exact Hc | apply IH; exact Hs].
Qed.

Lemma Matches_AtLeast_class (n : nat) (s : jsstring) :
  Matches (AtLeast n cls) s <->
  (n <= List.length s)%nat /\ forallb ok s = true.
Proof.
  revert s. induction n as [| n IH]; intros s; simpl.
  - rewrite Matches_Star_class. split; [intros H; split; [lia | exact H] |].
    intros [_ H]. exact H.
  - split.
    + intros H. apply Matches_Cat_inv in H.
      destruct H as [s1 [s2 [-> [H1 H2]]]].
      apply Matches_Class_inv in H1. destruct H1 as [d [-> Hd]].
      apply IH in H2. destruct H2 as [Hl Hs]. simpl.
      unfold ok at 1. rewrite Hd. split; [lia | exact Hs].
    + intros [Hl Hs]. destruct s as [| c s]; [simpl in Hl; lia |].
      simpl in Hl, Hs. apply andb_true_iff in Hs. destruct Hs as [Hc Hs].
      change (c :: s) with ([c] ++ s).
      apply MCat; [constructor; exact Hc |].
      apply IH. split; [lia | exact Hs].
Qed.

Lemma Matches_Plus_class (s : jsstring) :
  Matches (Plus cls) s <-> s <> [] /\ forallb ok s = true.
Proof.
  change (Plus cls) with (AtLeast 1 cls).
  rewrite Matches_AtLeast_class.
  destruct s; simpl; split; intros [H1 H2]; split;
    try lia; try congruence; try exact H2.
Qed.
End OneClass.

Lemma Matches_Lit (c : code_unit) (s : jsstring) :
  Matches (Lit c) s <-> s = [c].
Proof.
  unfold Lit. split.
  - intros H. apply Matches_Class_inv in H. destruct H as [d [-> Hd]].
    unfold class_has in Hd. simpl in Hd. rewrite orb_false_r in Hd.
    apply N.eqb_eq in Hd. subst. reflexivity.
  - intros ->. constructor. unfold class_has. simpl.
    rewrite N.eqb_refl. reflexivity.
Qed.

End RegexFacts.

(** ** Completion evaluator *)

Module CompletionFacts.
Import Js Data Fx ProfileContext Scenarios.

Lemma isOnboardingComplete_loaded (st : Store) (p : ProfileData) :
  isLoading st = false ->
  profileData st = Some p ->
  isOnboardingComplete st =
    onboarding_completed p
    || (0 <? List.length (selected_roles p))
       && (2 <=? List.length (completed_steps p)).
Proof.
  intros Hl Hp. unfold isOnboardingComplete. rewrite Hl, Hp.
  destruct (onboarding_completed p); reflexivity.
Qed.

(** C1. On a loaded aggregate (the store is not loading and holds an
    aggregate), [isOnboardingComplete] is true exactly when the
    [onboarding_completed] flag is true, or at least one role is selected
    and at least two steps are completed; so the heuristic alone makes it
    true when the flag is false. *)
Theorem isOnboardingComplete_flag_or_heuristic (st : Store) (p : ProfileData) :
  isLoading st = false ->
  profileData st = Some p ->
  (isOnboardingComplete st = true <->
     onboarding_completed p = true
     \/ (1 <= List.length (selected_roles p)
         /\ 2 <= List.length (completed_steps p)))
  /\ (onboarding_completed p = false ->
      1 <= List.length (selected_roles p) ->
      2 <= List.length (completed_steps p) ->
      isOnboardingComplete st = true).
Proof.
  intros Hl Hp. rewrite (isOnboardingComplete_loaded st Hl Hp).
  split.
  - rewrite orb_true_iff, andb_true_iff, Nat.ltb_lt, Nat.leb_le.
    unfold lt. reflexivity.
  - intros Hf Hr Hs. rewrite Hf, orb_false_l.
    apply andb_true_iff. split.
    + apply Nat.ltb_lt. exact Hr.
    + apply Nat.leb_le. exact Hs.
Qed.

Lemma isOnboardingComplete_flag_or_heuristic_witness :
  isLoading scenarioC = false
  /\ onboarding_completed frontend_two_steps = false
  /\ isOnboardingComplete scenarioC = true.
Proof.
  split; [reflexivity | split; [reflexivity | ]].
  apply (proj2 (isOnboardingComplete_flag_or_heuristic scenarioC
                  eq_refl eq_refl)).
  - reflexivity.
  - simpl. lia.
  - simpl. lia.
Defined.

(** C10. While the store is loading, or before any aggregate is loaded,
    [isOnboardingComplete] is false, whatever the aggregate's flag says. *)
Theorem isOnboardingComplete_false_until_loaded (st : Store) :
  isLoading st = true \/ profileData st = None ->
  isOnboardingComplete st = false.
Proof.
  intros [Hl | Hp]; unfold isOnboardingComplete.
  - rewrite Hl. reflexivity.
  - rewrite Hp. destruct (isLoading st); reflexivity.
Qed.

Lemma isOnboardingComplete_false_until_loaded_witness :
  isOnboardingComplete flagged_but_loading = false
  /\ isOnboardingComplete initialStore = false.
Proof.
  split.
  - apply isOnboardingComplete_false_until_loaded. left. reflexivity.
  - apply isOnboardingComplete_false_until_loaded. right. reflexivity.
Defined.

End CompletionFacts.

(** ** Local store operations *)

Module StoreFacts.
Import Js Data Fx ProfileContext Scenarios JsFacts.

Lemma completeStep_absent (st : Store) (p : ProfileData) (step : jsstring) :
  profileData st = Some p ->
  includes (completed_steps p) step = false ->
  completeStep st step =
    emit (SetProfileData (set_completed_steps p (completed_steps p ++ [step]))).
Proof.
  intros Hp Hin. unfold completeStep. rewrite Hp, Hin. reflexivity.
Qed.

Lemma completeStep_present (st : Store) (p : ProfileData) (step : jsstring) :
  profileData st = Some p ->
  includes (completed_steps p) step = true ->
  completeStep st step = ret tt.
Proof.
  intros Hp Hin. unfold completeStep. rewrite Hp, Hin. reflexivity.
Qed.

Lemma completeStep_local (st : Store) (step : jsstring) :
  Forall (fun e => is_remote e = false) (effects (completeStep st step)).
Proof.
  unfold completeStep. destruct (profileData st) as [p |].
  - destruct (includes (completed_steps p) step); simpl.
    + constructor.
    + constructor; [reflexivity | constructor].
  - constructor.
Qed.

(** C6. On a loaded aggregate, [completeStep] appends the step exactly when
    it is absent; a second call with the same step (from the next render, or
    from the same one) changes nothing more, so the list grows by one, not
    two; and no call reaches the remote store. *)
Theorem completeStep_idempotent (st : Store) (p : ProfileData)
  (step : jsstring) :
  profileData st = Some p ->
  let st1 := run st (effects (completeStep st step)) in
  let st2 := run st1 (effects (completeStep st1 step)) in
  (includes (completed_steps p) step = false ->
     steps_of st1 = Some (completed_steps p ++ [step])
     /\ option_map (fun l => List.length l) (steps_of st2)
        = Some (S (List.length (completed_steps p))))
  /\ (includes (completed_steps p) step = true -> st1 = st)
  /\ st2 = st1
  /\ run st1 (effects (completeStep st step)) = st1
  /\ Forall (fun e => is_remote e = false) (effects (completeStep st step))
  /\ Forall (fun e => is_remote e = false) (effects (completeStep st1 step)).
Proof.
  intros Hp st1 st2.
  destruct (includes (completed_steps p) step) eqn:Hin.
  - assert (H1 : st1 = st).
    { unfold st1. rewrite (completeStep_present st step Hp Hin). reflexivity. }
    assert (H2 : st2 = st1).
    { unfold st2. rewrite H1.
      rewrite (completeStep_present st step Hp Hin). reflexivity. }
    split; [intro; discriminate |].
    split; [intros _; exact H1 |].
    split; [exact H2 |].
    split; [| split; apply completeStep_local].
    rewrite H1. rewrite (completeStep_present st step Hp Hin). reflexivity.
  - assert (E1 : profileData st1
                 = Some (set_completed_steps p (completed_steps p ++ [step]))).
    { unfold st1. rewrite (completeStep_absent st step Hp Hin). reflexivity. }
    assert (H2 : st2 = st1).
    { unfold st2.
      rewrite (completeStep_present st1 step E1); [reflexivity |].
      simpl. apply includes_snoc. }
    split.
    { intros _. split.
      - unfold steps_of. rewrite E1. reflexivity.
      - rewrite H2. unfold steps_of. rewrite E1. simpl.
        rewrite length_app. simpl. f_equal. lia. }
    split; [intro; discriminate |].
    split; [exact H2 |].
    split; [| split; apply completeStep_local].
    unfold st1. rewrite (completeStep_absent st step Hp Hin). reflexivity.
Qed.

Lemma completeStep_idempotent_witness :
  steps_of (run (run welcomed (effects (completeStep welcomed (u16 "personal"))))
              (effects
                 (completeStep
                    (run welcomed (effects (completeStep welcomed (u16 "personal"))))
                    (u16 "personal"))))
  = Some [u16 "welcome"; u16 "personal"].
Proof.
  pose proof (@completeStep_idempotent welcomed _ (u16 "personal") eq_refl)
    as [H1 [_ [H3 _]]].
  cbv zeta in H3. rewrite H3.
  exact (proj1 (H1 eq_refl)).
Defined.

(** Case analysis on the replies to the four remote calls of a save. *)
Ltac each_reply r :=
  let d1 := fresh "d" in let d2 := fresh "d" in
  let d3 := fresh "d" in let d4 := fresh "d" in
  let e1 := fresh "e" in let e2 := fresh "e" in
  let e3 := fresh "e" in let e4 := fresh "e" in
  destruct r as [[d1 [e1 |] |] [d2 [e2 |] |] [d3 [e3 |] |] [d4 e4 |]].

(** Without an aggregate [saveProfile] returns undefined and calls
    nothing. *)
Lemma saveProfile_unloaded (st : Store) (r : SaveReplies) :
  profileData st = None ->
  result (saveProfile st r) = Some None
  /\ filter is_remote (effects (saveProfile st r)) = [].
Proof.
  intros Hp. unfold saveProfile. rewrite Hp. split; reflexivity.
Qed.

(** C3. On a loaded aggregate [saveProfile] always returns a boolean (no
    exception reaches the caller, even when a call rejects); the boolean is
    true exactly when the three upserts succeeded; and whenever the upserts
    answer, with or without an error, all three are issued, in the order
    profiles, user_preferences, user_onboarding, followed only by the
    verifying read: an error of an earlier upsert neither stops the later
    ones nor undoes anything. *)
Theorem saveProfile_partial_saves (st : Store) (p : ProfileData)
  (r : SaveReplies) :
  profileData st = Some p ->
  (exists b, result (saveProfile st r) = Some (Some b))
  /\ (result (saveProfile st r) = Some (Some true) <->
        succeeded (profiles_upsert r) = true
        /\ succeeded (preferences_upsert r) = true
        /\ succeeded (onboarding_upsert r) = true)
  /\ (answered (profiles_upsert r) = true ->
      answered (preferences_upsert r) = true ->
      answered (onboarding_upsert r) = true ->
      filter is_remote (effects (saveProfile st r)) =
        [UpsertProfiles (profilePayload p);
         UpsertPreferences (preferencesPayload p);
         UpsertOnboarding (onboardingPayload st p);
         SelectSingle profiles (id p)]).
Proof.
  intros Hp. unfold saveProfile. rewrite Hp.
  each_reply r;
    cbn [profiles_upsert preferences_upsert onboarding_upsert verify_select
         succeeded answered];
    (split; [eexists; reflexivity |]);
    (split;
     [ split; [intro H; discriminate H || (repeat split) | intro H ];
       try reflexivity;
       try (destruct H as [H1 [H2 H3]]; discriminate)
     | intros H1 H2 H3; try discriminate; reflexivity ]).
Qed.

Lemma saveProfile_partial_saves_witness :
  result (saveProfile scenarioC scenarioE) = Some (Some false)
  /\ filter is_remote (effects (saveProfile scenarioC scenarioE)) =
       [UpsertProfiles (profilePayload frontend_two_steps);
        UpsertPreferences (preferencesPayload frontend_two_steps);
        UpsertOnboarding (onboardingPayload scenarioC frontend_two_steps);
        SelectSingle profiles (id frontend_two_steps)].
Proof.
  pose proof (@saveProfile_partial_saves scenarioC _ scenarioE eq_refl)
    as [[b Hb] [Hiff Hcalls]].
  split.
  - rewrite Hb. destruct b; [| reflexivity].
    apply Hiff in Hb. destruct Hb as [_ [H _]]. discriminate H.
  - exact (Hcalls eq_refl eq_refl eq_refl).
Defined.

(** *** Loading *)

Lemma run_app (st : Store) (l1 l2 : list effect) :
  run st (l1 ++ l2) = run (run st l1) l2.
Proof. apply fold_left_app. Qed.

(** The load stops after a failed profiles query. *)
Lemma loadProfileData_profiles_error (u : User) (r : LoadReplies)
  (e0 : option PostgrestError) :
  get_user r = Reply (Some u) e0 ->
  answered (profiles_select r) = true ->
  other_error (profiles_select r) = true ->
  effects (loadProfileData r) =
    [SetIsLoading true; AuthGetUser; SelectSingle profiles (user_id u);
     ConsoleError (u16 "ProfileContext: Error loading profile");
     SetIsLoading false; SetIsLoading false].
Proof.
  intros Hu Ha He. unfold loadProfileData. rewrite Hu.
  destruct (profiles_select r) as [d1 e1 |]; [| discriminate Ha].
  unfold other_error in He. simpl in He.
  cbn [await bind try_catch finally effects fst snd emit app].
  rewrite He. reflexivity.
Qed.

(** The load goes on after the profiles query unless that query failed. *)
Lemma loadProfileData_continues (u : User) (r : LoadReplies)
  (e0 : option PostgrestError) :
  get_user r = Reply (Some u) e0 ->
  answered (profiles_select r) = true ->
  other_error (profiles_select r) = false ->
  answered (preferences_select r) = true ->
  answered (onboarding_select r) = true ->
  let combinedData :=
    combine u (reply_data (profiles_select r))
      (reply_data (preferences_select r))
      (reply_data (onboarding_select r)) in
  effects (loadProfileData r) =
    [SetIsLoading true; AuthGetUser; SelectSingle profiles (user_id u);
     SelectMaybeSingle user_preferences (user_id u)]
    ++ (if is_some (reply_error (preferences_select r))
        then [ConsoleError (u16 "ProfileContext: Error loading preferences")]
        else [])
    ++ [SelectMaybeSingle user_onboarding (user_id u)]
    ++ (if other_error (onboarding_select r)
        then [ConsoleError
                (u16 "ProfileContext: Error loading onboarding status")]
        else [])
    ++ effects (emit (SetProfileData combinedData))
    ++ effects (calculateCompletionStatus combinedData)
    ++ [SetIsLoading false].
Proof.
  intros Hu Ha1 He1 Ha2 Ha3. unfold loadProfileData. rewrite Hu.
  destruct (profiles_select r) as [d1 e1 |]; [| discriminate Ha1].
  destruct (preferences_select r) as [d2 e2 |]; [| discriminate Ha2].
  destruct (onboarding_select r) as [d3 e3 |]; [| discriminate Ha3].
  unfold other_error in *. simpl in He1.
  cbn [await bind try_catch finally effects fst snd emit app reply_data
       reply_error].
  rewrite He1.
  destruct e2 as [e2 |], (error_other_than_not_found e3); reflexivity.
Qed.

Lemma not_found_is_not_other (e : PostgrestError) :
  code e = PGRST116 -> error_other_than_not_found (Some e) = false.
Proof.
  intros H. simpl. rewrite H, eqb_refl. reflexivity.
Qed.

(** C8, as the code has it.  For a signed-in user:
    - when no collection has a row (the profiles query answers not-found,
      the preferences query answers without row or error, the onboarding
      query answers without row and without error or with the not-found
      error), the aggregate is built from the defaults and nothing is
      logged as an error;
    - an error other than not-found on the profiles query is logged and
      stops the load: no later query is made and the aggregate stays as it
      was;
    - otherwise the load goes on to the end and builds the aggregate from
      the rows the replies carry, with the defaults for a collection
      without row; an error is logged exactly when the preferences query
      answers with an error or the onboarding query with an error other
      than not-found. *)
Theorem loadProfileData_error_handling (u : User) (r : LoadReplies)
  (e0 : option PostgrestError) (st : Store) :
  get_user r = Reply (Some u) e0 ->
  let done := effects (loadProfileData r) in
  (not_found_single (profiles_select r) ->
   not_found_maybeSingle (preferences_select r) ->
   not_found_maybeSingle (onboarding_select r)
   \/ not_found_single (onboarding_select r) ->
     profileData (run st done) = Some (combine u None None None)
     /\ existsb is_console_error done = false)
  /\ (answered (profiles_select r) = true ->
      other_error (profiles_select r) = true ->
        existsb is_console_error done = true
        /\ profileData (run st done) = profileData st
        /\ filter is_remote done
           = [AuthGetUser; SelectSingle profiles (user_id u)])
  /\ (answered (profiles_select r) = true ->
      other_error (profiles_select r) = false ->
      answered (preferences_select r) = true ->
      answered (onboarding_select r) = true ->
        existsb is_console_error done
        = is_some (reply_error (preferences_select r))
          || other_error (onboarding_select r)
        /\ profileData (run st done)
           = Some (combine u (reply_data (profiles_select r))
                     (reply_data (preferences_select r))
                     (reply_data (onboarding_select r)))).
Proof.
  intros Hu done. split; [| split].
  - intros [e1 [H1 Hc1]] H2 H3.
    assert (Ho : other_error (onboarding_select r) = false
                 /\ reply_data (onboarding_select r) = None
                 /\ answered (onboarding_select r) = true).
    { destruct H3 as [H3 | [e3 [H3 Hc3]]]; rewrite H3.
      - repeat split.
      - unfold other_error. simpl reply_error.
        rewrite (not_found_is_not_other e3 Hc3). repeat split. }
    destruct Ho as [Ho [Hd Ha]].
    assert (E1 : other_error (profiles_select r) = false).
    { rewrite H1. unfold other_error. simpl reply_error.
      apply not_found_is_not_other. exact Hc1. }
    unfold done.
    rewrite (@loadProfileData_continues u r e0 Hu); try assumption;
      try (rewrite H1; reflexivity); try (rewrite H2; reflexivity).
    rewrite Ho, Hd, H1, H2. simpl. split; reflexivity.
  - intros Ha He. unfold done.
    rewrite (@loadProfileData_profiles_error u r e0 Hu Ha He).
    repeat split.
  - intros Ha1 He1 Ha2 Ha3. unfold done.
    rewrite (@loadProfileData_continues u r e0 Hu Ha1 He1 Ha2 Ha3).
    destruct (is_some (reply_error (preferences_select r))),
             (other_error (onboarding_select r));
      split; reflexivity.
Qed.

Lemma loadProfileData_error_handling_witness :
  (profileData (run initialStore (effects (loadProfileData scenarioA)))
   = Some (combine ada None None None)
   /\ existsb is_console_error (effects (loadProfileData scenarioA)) = false)
  /\ profileData (run initialStore (effects (loadProfileData profiles_down)))
     = None
  /\ profileData
       (run initialStore (effects (loadProfileData preferences_down)))
     = Some (combine ada (Some ada_row) None None).
Proof.
  split; [| split].
  - apply (proj1 (@loadProfileData_error_handling ada scenarioA None
                    initialStore eq_refl)).
    + eexists. split; reflexivity.
    + reflexivity.
    + left. reflexivity.
  - apply (proj1 (proj2 (@loadProfileData_error_handling ada profiles_down
                           None initialStore eq_refl))); reflexivity.
  - apply (proj2 (proj2 (@loadProfileData_error_handling ada preferences_down
                           None initialStore eq_refl))); reflexivity.
Defined.

(** C8 as stated fails: a server error on the preferences query is logged,
    yet the load builds the aggregate from the other collections. *)
Lemma load_fails_loud_counterexample :
  ~ Stated.load_fails_loud preferences_down.
Proof.
  unfold Stated.load_fails_loud. intros H.
  destruct (H eq_refl) as [_ Hnone].
  vm_compute in Hnone. discriminate Hnone.
Qed.

End StoreFacts.

(** ** Tier classifier *)

Module TierFacts.
Import Js Data TieredProfileSection Scenarios.





End TierFacts.

(** ** Validation of the personal section *)

Module PersonalInfoFacts.
Import Js Data Fx TieredPersonalInfo UnifiedProfileExperience Scenarios.
Import JsFacts RegexFacts.

Lemma forallb_same {A} (f g : A -> bool) (l : list A) :
  (forall x, f x = g x) -> forallb f l = forallb g l.
Proof.
  intros H. induction l as [| x l IH]; simpl; [reflexivity |].
  rewrite H, IH. reflexivity.
Qed.

Lemma plain_class (s : jsstring) :
  forallb (class_has true [ASpace; AChar at_sign]) s
  = forallb Stated.plain s.
Proof.
  apply forallb_same. intros c. unfold class_has, Stated.plain. simpl.
  rewrite orb_false_r. destruct (is_space c), (N.eqb c at_sign); reflexivity.
Qed.


Lemma email_pattern_shape (s : jsstring) :
  Matches email_pattern s <-> Stated.email_shape s.
Proof.
  unfold email_pattern, not_space_or_at, Stated.email_shape. split.
  - intros H.
    apply Matches_Cat_inv in H. destruct H as [a [t1 [-> [Ha H]]]].
    apply Matches_Cat_inv in H. destruct H as [x [t2 [-> [Hx H]]]].
    apply Matches_Cat_inv in H. destruct H as [b [t3 [-> [Hb H]]]].
    apply Matches_Cat_inv in H. destruct H as [y [c [-> [Hy Hc]]]].
    apply Matches_Lit in Hx. apply Matches_Lit in Hy. subst x y.
    apply Matches_Plus_class in Ha. apply Matches_Plus_class in Hb.
    apply Matches_Plus_class in Hc.
    rewrite plain_class in Ha, Hb, Hc.
    exists a, b, c. simpl. tauto.
  - intros [a [b [c [-> [Na [Nb [Nc [Ha [Hb Hc]]]]]]]]].
    rewrite <- plain_class in Ha, Hb, Hc.
    apply MCat; [apply Matches_Plus_class; auto |].
    change (at_sign :: b ++ dot :: c) with ([at_sign] ++ b ++ [dot] ++ c).
    apply MCat; [apply Matches_Lit; reflexivity |].
    apply MCat; [apply Matches_Plus_class; auto |].
    apply MCat; [apply Matches_Lit; reflexivity |].
    apply Matches_Plus_class; auto.
Qed.


Lemma emailValid_spec (s : jsstring) :
  emailValid s = true <-> Stated.email_shape s.
Proof. unfold emailValid. rewrite test_spec. apply email_pattern_shape. Qed.





End PersonalInfoFacts.

(** ** Section orchestrator *)

Module OrchestratorFacts.
Import Js Data Fx ProfileContext UnifiedProfileExperience Scenarios JsFacts.
Import MoreScenarios.
Local Open Scope Z_scope.

Lemma handleSectionClick_blocked (st : Store) (pg : Page)
  (sectionId : jsstring) (e : MouseEvent) :
  is_completed st sectionId = false ->
  handleSectionClick st pg onboarding sectionId e = ret tt.
Proof.
  intros Hc. unfold handleSectionClick. rewrite Hc. simpl.
  destruct (negb (target_is_currentTarget e)
            && negb (eqb (target_tagName e) (u16 "SPAN"))); reflexivity.
Qed.

Lemma handleSectionClick_profile (st : Store) (pg : Page)
  (sectionId : jsstring) (e : MouseEvent) :
  on_entry e = true ->
  handleSectionClick st pg profile sectionId e =
    if negb (eqb (activeSection pg) sectionId) then
      ([SetActiveSection sectionId;
        SetCurrentStep
          (findIndex (fun s => eqb (section_id s) sectionId) profileSections)],
       Some tt)
    else ret tt.
Proof.
  unfold on_entry, handleSectionClick. intros He.
  destruct (target_is_currentTarget e); simpl in *.
  - reflexivity.
  - rewrite He. reflexivity.
Qed.

(** C9. In profile mode a click on a section entry takes the page to that
    section whatever [completed_steps] holds.  In onboarding mode, while the
    section is not in [completed_steps], a click does nothing at all, and
    neither does any number of further clicks: [currentStep] and
    [activeSection] stay as they were. *)
Theorem handleSectionClick_jump (st : Store) (pg : Page)
  (sectionId : jsstring) :
  (forall e,
     on_entry e = true ->
     let pg' := run pg (effects (handleSectionClick st pg profile sectionId e)) in
     activeSection pg' = sectionId
     /\ (activeSection pg <> sectionId ->
         currentStep pg' =
           findIndex (fun s => eqb (section_id s) sectionId) profileSections))
  /\ (is_completed st sectionId = false ->
      forall es e,
        effects (handleSectionClick st pg onboarding sectionId e) = []
        /\ sectionClicks st onboarding sectionId es pg = pg).
Proof.
  split.
  - intros e He pg'. unfold pg'.
    rewrite (handleSectionClick_profile st pg sectionId e He).
    destruct (eqb (activeSection pg) sectionId) eqn:E; simpl.
    + apply eqb_eq in E. split; [exact E | intros H; contradiction].
    + split; reflexivity.
  - intros Hc es e. split.
    + rewrite (handleSectionClick_blocked st pg sectionId e Hc). reflexivity.
    + induction es as [| e' es IH]; simpl; [reflexivity |].
      rewrite (handleSectionClick_blocked st pg sectionId e' Hc). exact IH.
Qed.

Lemma handleSectionClick_jump_witness :
  activeSection
    (run at_personal
       (effects (handleSectionClick welcomed at_personal profile
                   (u16 "education") buttonClick)))
  = u16 "education"
  /\ sectionClicks welcomed onboarding (u16 "roles") [buttonClick; buttonClick]
       at_personal
     = at_personal.
Proof.
  pose proof (handleSectionClick_jump welcomed at_personal (u16 "education"))
    as [Hprofile _].
  pose proof (handleSectionClick_jump welcomed at_personal (u16 "roles"))
    as [_ Honboarding].
  split.
  - exact (proj1 (Hprofile buttonClick eq_refl)).
  - exact (proj2 (Honboarding eq_refl [buttonClick; buttonClick] buttonClick)).
Defined.

(** *** Moving forward *)

Lemma saveProfile_never_throws (st : Store) (r : SaveReplies) :
  result (saveProfile st r) <> None.
Proof.
  unfold saveProfile. destruct (profileData st) as [p |]; [| discriminate].
  StoreFacts.each_reply r;
    discriminate.
Qed.

Lemma sectionAt_range (i : Z) (s : Section) :
  sectionAt i = Some s -> 0 <= i <= lastStep.
Proof.
  unfold sectionAt. destruct (i <? 0) eqn:E; [discriminate |].
  apply Z.ltb_ge in E. intros H.
  assert (Hl : (Z.to_nat i < List.length profileSections)%nat).
  { apply nth_error_Some. congruence. }
  unfold lastStep. lia.
Qed.

Lemma canContinue_true (pg : Page) :
  canContinue pg = true ->
  isSaving pg = false /\ 0 <= currentStep pg <= lastStep.
Proof.
  unfold canContinue. destruct (isSaving pg); [discriminate |].
  destruct (sectionAt (currentStep pg)) as [s |] eqn:E; [| discriminate].
  intros _. split; [reflexivity | exact (sectionAt_range _ E)].
Qed.

Lemma sectionAt_next (i : Z) :
  0 <= i < lastStep -> exists next, sectionAt (i + 1) = Some next.
Proof.
  unfold lastStep. simpl. intros H.
  assert (C : i = 0 \/ i = 1 \/ i = 2 \/ i = 3 \/ i = 4 \/ i = 5) by lia.
  destruct C as [-> | [-> | [-> | [-> | [-> | ->]]]]];
    eexists; reflexivity.
Qed.

(** *** The page and the loading screen *)

Lemma page_run_unmounted (l : list effect) :
  forall pg, existsb unmounts l = true -> run pg l = initialPage.
Proof.
  induction l as [| e l IH]; intros pg H; [discriminate H |].
  cbn [run existsb] in *. destruct (unmounts e); [reflexivity |].
  apply IH. exact H.
Qed.

Lemma page_run_app (l1 l2 : list effect) :
  forall pg,
    existsb unmounts l1 = false ->
    run pg (l1 ++ l2) = run (run pg l1) l2.
Proof.
  induction l1 as [| e l1 IH]; intros pg H; [reflexivity |].
  cbn [run existsb app] in *. destruct (unmounts e); [discriminate H |].
  apply IH. exact H.
Qed.

(** A save on a loaded store begins by setting the provider loading. *)
Lemma saveProfile_begins_loading (st : Store) (r : SaveReplies)
  (p : ProfileData) :
  profileData st = Some p ->
  exists l, effects (saveProfile st r) = SetIsLoading true :: l.
Proof.
  intros Hp. unfold saveProfile. rewrite Hp.
  StoreFacts.each_reply r;
    eexists; reflexivity.
Qed.

Lemma saveProfile_unmounts (st : Store) (r : SaveReplies) (p : ProfileData) :
  profileData st = Some p ->
  existsb unmounts (effects (saveProfile st r)) = true.
Proof.
  intros Hp. destruct (saveProfile_begins_loading st r Hp) as [l ->].
  reflexivity.
Qed.

Lemma saveProfile_without_data (st : Store) (r : SaveReplies) :
  profileData st = None ->
  effects (saveProfile st r)
  = [ConsoleError
       (u16 "ProfileContext: saveProfile called but profileData is null")].
Proof. intros Hp. unfold saveProfile. rewrite Hp. reflexivity. Qed.

Lemma updateProfile_keeps_page (st : Store) (data : Partial) (pg : Page) :
  UnifiedProfileExperience.run pg (effects (updateProfile st data)) = pg.
Proof.
  unfold updateProfile. destruct (profileData st) as [p |]; reflexivity.
Qed.

Lemma saveProfile_keeps_data (st q : Store) (r : SaveReplies) :
  profileData (ProfileContext.run q (effects (saveProfile st r)))
  = profileData q.
Proof.
  unfold saveProfile. destruct (profileData st) as [p |]; [| reflexivity].
  StoreFacts.each_reply r;
    reflexivity.
Qed.

Lemma saveProfile_stays (st : Store) (r : SaveReplies) :
  existsb Stated.redirects (effects (saveProfile st r)) = false.
Proof.
  unfold saveProfile. destruct (profileData st) as [p |]; [| reflexivity].
  StoreFacts.each_reply r;
    reflexivity.
Qed.

Lemma saveProfile_sets_no_step (st : Store) (r : SaveReplies) (n : Z) :
  existsb (Stated.advances_to n) (effects (saveProfile st r)) = false.
Proof.
  unfold saveProfile. destruct (profileData st) as [p |]; [| reflexivity].
  StoreFacts.each_reply r;
    reflexivity.
Qed.

Lemma updateProfile_sets_no_step (st : Store) (data : Partial) (n : Z) :
  existsb (Stated.advances_to n) (effects (updateProfile st data)) = false.
Proof.
  unfold updateProfile. destruct (profileData st) as [p |]; reflexivity.
Qed.

(** The effects of [handleNext] when it is allowed to proceed. *)
Lemma handleNext_trace (st : Store) (pg : Page) (focusInForm : bool)
  (r1 r2 : SaveReplies) (p : ProfileData) :
  profileData st = Some p ->
  canContinue pg = true ->
  effects (handleNext st pg focusInForm r1 r2) =
    [SetHasAttemptedContinue true; SetIsSaving true]
    ++ (if eqb (activeSection pg) (u16 "personal")
        then (if focusInForm then [BlurActiveElement] else [])
             ++ effects (saveProfile st r1)
        else [])
    ++ (if includes (completed_steps p) (activeSection pg) then []
        else effects
               (updateProfile st
                  [completed_steps_ (completed_steps p ++ [activeSection pg])]))
    ++ (if currentStep pg =? lastStep then
          effects (updateProfile st [onboarding_completed_ true])
          ++ effects (saveProfile st r2)
          ++ [LocalStorageRemoveItem (u16 "force_onboarding");
              LocalStorageRemoveItem (u16 "force_onboarding_timestamp");
              GoToDashboard]
        else
          match sectionAt (currentStep pg + 1) with
          | Some next =>
              [SetCurrentStep (currentStep pg + 1);
               SetActiveSection (section_id next);
               SetHasAttemptedContinue false]
              ++ effects (saveProfile st r2)
              ++ [SetSaveSuccessMessage []]
          | None =>
              [ConsoleError (u16 "Error in handleNext:");
               SetSaveSuccessMessage failed_to_save]
          end)
    ++ [SetIsSaving false].
Proof.
  intros Hp Hcan. unfold handleNext. rewrite Hcan.
  pose proof (saveProfile_never_throws st r1) as N1.
  pose proof (saveProfile_never_throws st r2) as N2.
  unfold updateProfile. rewrite Hp.
  destruct (saveProfile st r1) as [l1 [v1 |]]; [| now contradiction N1].
  destruct (saveProfile st r2) as [l2 [v2 |]]; [| now contradiction N2].
  destruct (eqb (activeSection pg) (u16 "personal")), focusInForm,
    (includes (completed_steps p) (activeSection pg)),
    (currentStep pg =? lastStep),
    (sectionAt (currentStep pg + 1)) as [next |];
    cbn [negb bind emit ret when try_catch finally effects result fst snd
         app calculateCompletionStatus throw];
    repeat (rewrite <- app_assoc; cbn [app]); reflexivity.
Qed.

(** C2, as the code has it.  When [canContinue()] holds on a loaded
    aggregate, [handleNext] makes the following calls, in this order.
    It first saves if the active section is the personal one.  It marks the
    active section complete in the aggregate (through [updateProfile]) if it
    is not so already.  Then, on any step but the last, it calls
    [setCurrentStep(currentStep + 1)] and sets the active section to the
    next one, and only after that calls [saveProfile]; it neither sets
    [onboarding_completed] nor redirects, also when the next step is the
    completion screen.  On the last step (the completion screen) it sets
    [onboarding_completed] to true (through [updateProfile]), calls
    [saveProfile], and then redirects to the dashboard; it calls no step
    setter. *)
Theorem handleNext_forward (st : Store) (pg : Page) (focusInForm : bool)
  (r1 r2 : SaveReplies) (p : ProfileData) :
  profileData st = Some p ->
  canContinue pg = true ->
  let done := effects (handleNext st pg focusInForm r1 r2) in
  let first_save :=
    if eqb (activeSection pg) (u16 "personal")
    then (if focusInForm then [BlurActiveElement] else [])
         ++ effects (saveProfile st r1)
    else [] in
  let mark :=
    if includes (completed_steps p) (activeSection pg) then []
    else effects
           (updateProfile st
              [completed_steps_ (completed_steps p ++ [activeSection pg])]) in
  (currentStep pg <> lastStep ->
     exists next,
       sectionAt (currentStep pg + 1) = Some next
       /\ done =
            [SetHasAttemptedContinue true; SetIsSaving true]
            ++ first_save ++ mark
            ++ [SetCurrentStep (currentStep pg + 1);
                SetActiveSection (section_id next);
                SetHasAttemptedContinue false]
            ++ effects (saveProfile st r2)
            ++ [SetSaveSuccessMessage []; SetIsSaving false]
       /\ existsb Stated.redirects done = false
       /\ option_map onboarding_completed
            (profileData (ProfileContext.run st done))
          = Some (onboarding_completed p))
  /\ (currentStep pg = lastStep ->
      done =
        [SetHasAttemptedContinue true; SetIsSaving true]
        ++ first_save ++ mark
        ++ effects (updateProfile st [onboarding_completed_ true])
        ++ effects (saveProfile st r2)
        ++ [LocalStorageRemoveItem (u16 "force_onboarding");
            LocalStorageRemoveItem (u16 "force_onboarding_timestamp");
            GoToDashboard; SetIsSaving false]
      /\ (forall n, existsb (Stated.advances_to n) done = false)
      /\ option_map onboarding_completed
           (profileData (ProfileContext.run st done))
         = Some true).
Proof.
  intros Hp Hcan done first_save mark.
  destruct (canContinue_true pg Hcan) as [_ Hrange].
  pose proof (handleNext_trace st pg focusInForm r1 r2 Hp Hcan) as Ht.
  fold done first_save mark in Ht.
  assert (Sfirst : forall q,
             profileData (ProfileContext.run q first_save) = profileData q).
  { intros q. unfold first_save.
    destruct (eqb (activeSection pg) (u16 "personal")); [| reflexivity].
    rewrite StoreFacts.run_app, saveProfile_keeps_data.
    destruct focusInForm; reflexivity. }
  assert (Smark : option_map onboarding_completed
                    (profileData (ProfileContext.run st (first_save ++ mark)))
                  = Some (onboarding_completed p)
                  /\ existsb Stated.redirects (first_save ++ mark) = false).
  { split.
    - rewrite StoreFacts.run_app. unfold mark.
      destruct (includes (completed_steps p) (activeSection pg)).
      + simpl. rewrite Sfirst, Hp. reflexivity.
      + unfold updateProfile. rewrite Hp. reflexivity.
    - rewrite existsb_app. unfold first_save, mark, updateProfile.
      rewrite Hp.
      destruct (eqb (activeSection pg) (u16 "personal")), focusInForm,
        (includes (completed_steps p) (activeSection pg));
        cbn [app existsb orb Stated.redirects];
        rewrite ?saveProfile_stays; reflexivity. }
  destruct Smark as [Sflag Sstay].
  split.
  - intros Hne.
    destruct (@sectionAt_next (currentStep pg)) as [next Hnext]; [lia |].
    exists next. split; [exact Hnext |].
    apply Z.eqb_neq in Hne. rewrite Hne, Hnext in Ht.
    split; [| split].
    + rewrite Ht. rewrite <- !app_assoc. reflexivity.
    + rewrite existsb_app in Sstay.
      apply orb_false_iff in Sstay. destruct Sstay as [S1 S2].
      rewrite Ht. rewrite !existsb_app, S1, S2, saveProfile_stays.
      reflexivity.
    + rewrite Ht. rewrite (app_assoc first_save).
      change ([SetHasAttemptedContinue true; SetIsSaving true]
              ++ (first_save ++ mark) ++ ?l)
        with (SetHasAttemptedContinue true :: SetIsSaving true
              :: ((first_save ++ mark) ++ l)).
      cbn [ProfileContext.run fold_left ProfileContext.apply].
      change (fold_left ProfileContext.apply ?l ?q)
        with (ProfileContext.run q l).
      rewrite !StoreFacts.run_app.
      cbn [ProfileContext.run fold_left ProfileContext.apply].
      change (fold_left ProfileContext.apply ?l ?q)
        with (ProfileContext.run q l).
      rewrite saveProfile_keeps_data.
      rewrite <- StoreFacts.run_app. exact Sflag.
  - intros He. rewrite (proj2 (Z.eqb_eq _ _) He) in Ht.
    split; [| split].
    + rewrite Ht. rewrite <- !app_assoc. reflexivity.
    + intros n. rewrite Ht. unfold first_save, mark.
      destruct (eqb (activeSection pg) (u16 "personal")), focusInForm,
        (includes (completed_steps p) (activeSection pg));
        cbn [app existsb Stated.advances_to orb];
        rewrite ?existsb_app, ?saveProfile_sets_no_step,
          ?updateProfile_sets_no_step;
        reflexivity.
    + rewrite Ht.
      rewrite !app_assoc, !StoreFacts.run_app.
      cbn [ProfileContext.run fold_left ProfileContext.apply].
      change (fold_left ProfileContext.apply ?l ?q)
        with (ProfileContext.run q l).
      rewrite saveProfile_keeps_data.
      unfold updateProfile. rewrite Hp. reflexivity.
Qed.

(** The two pages used below are ones the initial-step effect puts the
    freshly mounted page on. *)
Lemma handleNext_forward_witness :
  (PageOps.page (PageOps.perform PageOps.initialView
                   (PageOps.InitialStep resumed onboarding))
   = at_preferences
   /\ existsb Stated.redirects
        (effects (handleNext resumed at_preferences false all_ok all_ok))
      = false)
  /\ (PageOps.page (PageOps.perform PageOps.initialView
                      (PageOps.InitialStep all_done onboarding))
      = on_completion
      /\ effects (redirectWhenComplete false onboarding all_done on_completion)
         = []
      /\ option_map onboarding_completed
           (profileData
              (ProfileContext.run all_done
                 (effects
                    (handleNext all_done on_completion false all_ok all_ok))))
         = Some true).
Proof.
  split; [split; [reflexivity |] | split; [reflexivity | split; [reflexivity |]]].
  - destruct (proj1 (@handleNext_forward resumed at_preferences false all_ok
                       all_ok three_steps eq_refl eq_refl))
      as [next [_ [_ [Hstay _]]]].
    + intro E. discriminate E.
    + exact Hstay.
  - exact (proj2 (proj2 (proj2 (@handleNext_forward all_done on_completion
                                  false all_ok all_ok six_steps
                                  eq_refl eq_refl) eq_refl))).
Defined.

(** C2 as stated fails on the preferences step, where the initial-step
    effect puts the page once the first three steps are completed: the
    step setter is called before anything is saved. *)
Lemma forward_counterexample :
  PageOps.page (PageOps.perform PageOps.initialView
                  (PageOps.InitialStep resumed onboarding))
  = at_preferences
  /\ ~ Stated.forward resumed at_preferences false all_ok all_ok.
Proof.
  split; [reflexivity |].
  unfold Stated.forward. intros H.
  destruct (H eq_refl) as [Horder _].
  vm_compute in Horder. discriminate Horder.
Qed.

(** Nor does the Continue made on the resume step, whose next step is the
    completion screen, set the flag or redirect: that happens on the next
    click, made on that screen. *)
Example forward_to_complete_does_not_finish :
  PageOps.page (PageOps.perform PageOps.initialView
                  (PageOps.InitialStep through_education onboarding))
  = at_resume
  /\ canContinue at_resume = true
  /\ Stated.in_order [Stated.sets_flag; Stated.is_upsert; Stated.redirects]
       (effects (handleNext through_education at_resume false all_ok all_ok))
     = false.
Proof. repeat split; vm_compute; reflexivity. Qed.

End OrchestratorFacts.

(** ** Auth-event queue *)

Module AuthQueueFacts.
Import Js Data UserContext Scenarios.

Lemma Idle_begin (e : AuthEvent) (l : list mark) :
  Idle l -> Busy e (l ++ [Begin e]).
Proof.
  induction 1 as [| e' l _ IH]; simpl; [constructor |].
  apply busy_cons. exact IH.
Qed.

Lemma Busy_end (e : AuthEvent) (l : list mark) :
  Busy e l -> Idle (l ++ [End_ e]).
Proof.
  induction 1 as [| e' l _ IH]; simpl.
  - apply idle_cons. constructor.
  - apply idle_cons. exact IH.
Qed.

Lemma begun_app (l1 l2 : list mark) :
  begun (l1 ++ l2) = begun l1 ++ begun l2.
Proof.
  induction l1 as [| [e | e] l1 IH]; simpl; [reflexivity | |];
    rewrite IH; reflexivity.
Qed.

(** The synchronous part of a processing touches the session and user
    state only. *)
Lemma processSync_frame (e : AuthEvent) (p : Provider) :
  exists s u,
    processSync e p =
      {| mountedRef := mountedRef p;
         processingAuthEventRef := processingAuthEventRef p;
         authEventQueueRef := authEventQueueRef p;
         sessionState := s; userState := u;
         suspended := suspended p; log := log p |}.
Proof.
  unfold processSync.
  destruct (eqb (event e) SIGNED_IN); [eexists; eexists; reflexivity |].
  destruct (eqb (event e) SIGNED_OUT || eqb (event e) USER_DELETED);
    [eexists; eexists; reflexivity |].
  destruct (eqb (event e) TOKEN_REFRESHED);
    [eexists; eexists; reflexivity |].
  destruct p. eexists; eexists; reflexivity.
Qed.

(** A drain that starts on an idle, mounted provider takes the queued
    events in order, and stops either with the queue empty or suspended on
    one event. *)
Lemma processQueue_spec (q : list AuthEvent) :
  forall p,
    mountedRef p = true ->
    processingAuthEventRef p = false ->
    suspended p = [] ->
    Idle (log p) ->
    authEventQueueRef p = q ->
    let p' := processQueue q p in
    mountedRef p' = true /\ Inv p'
    /\ begun (log p') ++ authEventQueueRef p' = begun (log p) ++ q.
Proof.
  induction q as [| e rest IH]; intros p Hm Hp Hs Hi Hq; simpl.
  - rewrite Hm, Hp. simpl. split; [exact Hm |]. split.
    + unfold Inv. rewrite Hs. auto.
    + rewrite Hq. reflexivity.
  - rewrite Hm, Hp. simpl.
    match goal with
    | |- context [processSync e ?x] =>
        destruct (processSync_frame e x) as [s [u E]]; rewrite E
    end.
    simpl. rewrite Hs.
    destruct (awaits e).
    + simpl. split; [reflexivity |]. split.
      * unfold Inv. simpl. split; [apply Idle_begin; exact Hi |].
        split; [reflexivity | intros H; discriminate H].
      * rewrite begun_app. simpl. rewrite <- app_assoc. reflexivity.
    + assert (Hi' : Idle ((log p ++ [Begin e]) ++ [End_ e])).
      { apply Busy_end, Idle_begin. exact Hi. }
      destruct rest as [| e' rest'].
      * simpl. split; [reflexivity |]. split.
        -- unfold Inv. simpl. auto.
        -- rewrite !begun_app. simpl. rewrite !app_nil_r. reflexivity.
      * match goal with
        | |- context [processQueue (e' :: rest') ?x] =>
            specialize (IH x eq_refl eq_refl eq_refl Hi' eq_refl)
        end.
        destruct IH as [IH1 [IH2 IH3]].
        split; [exact IH1 |]. split; [exact IH2 |].
        rewrite IH3. simpl log. rewrite !begun_app. simpl.
        rewrite !app_nil_r, <- app_assoc. reflexivity.
Qed.

Lemma processQueue_busy (q : list AuthEvent) (p : Provider) :
  processingAuthEventRef p = true -> processQueue q p = p.
Proof.
  intros H. destruct q; simpl; rewrite H, orb_true_r; reflexivity.
Qed.

Lemma processQueue_unmounted (q : list AuthEvent) (p : Provider) :
  mountedRef p = false -> processQueue q p = p.
Proof.
  intros H. destruct q; simpl; rewrite H; reflexivity.
Qed.

Lemma processQueue_mounted (q : list AuthEvent) :
  forall p, mountedRef (processQueue q p) = mountedRef p.
Proof.
  induction q as [| e rest IH]; intros p; simpl.
  - destruct (negb (mountedRef p) || processingAuthEventRef p); reflexivity.
  - destruct (negb (mountedRef p) || processingAuthEventRef p);
      [reflexivity |].
    match goal with
    | |- context [processSync e ?x] =>
        destruct (processSync_frame e x) as [s [u E]]; rewrite E
    end.
    destruct (awaits e); [reflexivity |].
    destruct rest as [| e' rest']; [reflexivity |].
    rewrite IH. reflexivity.
Qed.

(** On a mounted provider the callback queues the event and calls the
    drain; before that it touches the session and user state only. *)
Lemma onAuthStateChange_frame (e : AuthEvent) (p : Provider) :
  mountedRef p = true ->
  exists s u,
    onAuthStateChange e p =
      processNextAuthEvent
        {| mountedRef := mountedRef p;
           processingAuthEventRef := processingAuthEventRef p;
           authEventQueueRef := authEventQueueRef p ++ [e];
           sessionState := s; userState := u;
           suspended := suspended p; log := log p |}.
Proof.
  intros Hm. unfold onAuthStateChange. rewrite Hm. cbn [negb].
  destruct (eqb (event e) SIGNED_IN);
    [| destruct (eqb (event e) SIGNED_OUT || eqb (event e) USER_DELETED)];
    eexists; eexists;
    cbn [mountedRef processingAuthEventRef authEventQueueRef sessionState
         userState suspended log];
    rewrite ?Hm; reflexivity.
Qed.

Lemma pick_nil {A} (i : nat) : pick i (@nil A) = None.
Proof. destruct i; reflexivity. Qed.

Lemma pick_one {A} (i : nat) (x : A) :
  pick i [x] = match i with O => Some (x, []) | S _ => None end.
Proof. destruct i as [| [| i]]; reflexivity. Qed.

(** One step keeps the invariant, and while the provider stays mounted the
    events begun so far followed by the queue are the events arrived so
    far. *)
Lemma step_Inv (p : Provider) (a : action) (arrived : list AuthEvent) :
  Inv p ->
  (mountedRef p = true ->
   begun (log p) ++ authEventQueueRef p = arrived) ->
  Inv (step p a)
  /\ (mountedRef (step p a) = true ->
      mountedRef p = true
      /\ begun (log (step p a)) ++ authEventQueueRef (step p a)
         = arrived ++ match a with Arrive e => [e] | _ => [] end).
Proof.
  intros HI HF. destruct a as [e | i |]; simpl.
  - (* an event arrives *)
    destruct (mountedRef p) eqn:Hm.
    2:{ unfold onAuthStateChange. rewrite Hm. simpl.
        split; [exact HI | intros H; congruence]. }
    specialize (HF eq_refl).
    destruct (onAuthStateChange_frame e p Hm) as [s [u E]]. rewrite E.
    unfold processNextAuthEvent. cbn [authEventQueueRef].
    unfold Inv in HI.
    destruct (suspended p) as [| e0 [| e1 l]] eqn:Hs; [| | contradiction].
    + destruct HI as [Hi [Hp Hq]].
      match goal with
      | |- context [processQueue ?q ?x] =>
          destruct (@processQueue_spec q x) as [R1 [R2 R3]];
            [simpl; auto .. |]
      end.
      split; [exact R2 |]. intros _. split; [reflexivity |].
      rewrite R3. simpl. rewrite ?Hq. simpl.
      rewrite ?Hq, ?app_nil_r in HF. rewrite HF. reflexivity.
    + destruct HI as [Hb [Hp _]]. specialize (Hp Hm).
      rewrite processQueue_busy by exact Hp.
      split.
      * unfold Inv. simpl. rewrite ?Hs, ?Hm, ?Hp.
        split; [exact Hb |]. split; [reflexivity | intros H; discriminate H].
      * intros _. split; [reflexivity |]. simpl.
        rewrite app_assoc, HF. reflexivity.
  - (* a suspended processing resumes *)
    unfold Inv in HI.
    destruct (suspended p) as [| e0 [| e1 l]] eqn:Hs; [| | contradiction].
    + rewrite pick_nil. split.
      * unfold Inv. rewrite ?Hs. exact HI.
      * intros Hm. split; [exact Hm |]. rewrite app_nil_r. exact (HF Hm).
    + rewrite pick_one. destruct i as [| i].
      2:{ split.
          - unfold Inv. rewrite ?Hs. exact HI.
          - intros Hm. split; [exact Hm |]. rewrite app_nil_r.
            exact (HF Hm). }
      destruct HI as [Hb [Hp Hu]].
      assert (Hi : Idle (log p ++ [End_ e0])) by (apply Busy_end; exact Hb).
      unfold resume. simpl authEventQueueRef.
      destruct (authEventQueueRef p) as [| e1 q] eqn:Hq.
      * split.
        -- unfold Inv. simpl. auto.
        -- simpl. intros Hm. split; [exact Hm |].
           rewrite begun_app. simpl. rewrite !app_nil_r.
           specialize (HF Hm). rewrite app_nil_r in HF. exact HF.
      * destruct (mountedRef p) eqn:Hm.
        2:{ destruct (Hu eq_refl) as [_ Hnil]. discriminate Hnil. }
        unfold processNextAuthEvent. cbn [authEventQueueRef].
        match goal with
        | |- context [processQueue ?q ?x] =>
            destruct (@processQueue_spec q x) as [R1 [R2 R3]];
              [simpl; auto .. |]
        end.
        split; [exact R2 |]. intros _. split; [reflexivity |].
        rewrite R3. simpl. rewrite begun_app. simpl.
        rewrite !app_nil_r. exact (HF eq_refl).
  - (* the provider unmounts *)
    split.
    + unfold Inv in *. simpl.
      destruct (suspended p) as [| e0 [| e1 l]]; [| | contradiction].
      * destruct HI as [Hi _]. auto.
      * destruct HI as [Hb _]. split; [exact Hb |].
        split; [intros H; discriminate H | auto].
    + intros H. discriminate H.
Qed.

Lemma arrivals_snoc (acts : list action) (a : action) :
  arrivals (acts ++ [a])
  = arrivals acts ++ match a with Arrive e => [e] | _ => [] end.
Proof.
  induction acts as [| [e | i |] acts IH]; simpl.
  - destruct a; reflexivity.
  - rewrite IH. reflexivity.
  - exact IH.
  - exact IH.
Qed.

(** The invariant along a run that starts from the freshly mounted
    provider. *)
Lemma run_Inv (acts : list action) :
  let p := run mounted acts in
  Inv p
  /\ (mountedRef p = true ->
      begun (log p) ++ authEventQueueRef p = arrivals acts).
Proof.
  induction acts as [| a acts IH] using rev_ind.
  - simpl. split; [unfold Inv; simpl; auto using idle_nil | reflexivity].
  - unfold run in *. rewrite fold_left_app. simpl.
    destruct IH as [HI HF].
    destruct (@step_Inv _ a (arrivals acts) HI HF) as [HI' HF'].
    split; [exact HI' |]. intros Hm.
    destruct (HF' Hm) as [_ E]. rewrite E, arrivals_snoc. reflexivity.
Qed.

(** C7. Along any sequence of arrivals, resumptions and an unmount that
    starts from the mounted provider: the log of processings is sequential
    and at most one processing is suspended, so no two events are processed
    at once; a call of the drain while the flag is set does nothing; and
    while the provider is mounted, the events whose processing has begun,
    followed by the queue, are exactly the events delivered, in order of
    arrival, so each event is queued on arrival, taken in that order, and
    none is skipped, and the queue is empty whenever no processing is under
    way. *)
Theorem auth_events_one_at_a_time_in_order (acts : list action) :
  let p := run mounted acts in
  Sequential (log p)
  /\ List.length (suspended p) <= 1
  /\ (processingAuthEventRef p = true -> processNextAuthEvent p = p)
  /\ (mountedRef p = true ->
      begun (log p) ++ authEventQueueRef p = arrivals acts)
  /\ (forall e,
        mountedRef p = true ->
        let p' := onAuthStateChange e p in
        begun (log p') ++ authEventQueueRef p' = arrivals acts ++ [e])
  /\ (mountedRef p = true -> processingAuthEventRef p = false ->
      authEventQueueRef p = [] /\ suspended p = []
      /\ begun (log p) = arrivals acts).
Proof.
  intros p.
  assert (Harrive : forall e,
             mountedRef p = true ->
             let p' := onAuthStateChange e p in
             begun (log p') ++ authEventQueueRef p' = arrivals acts ++ [e]).
  { intros e Hm p'.
    destruct (run_Inv (acts ++ [Arrive e])) as [_ HF'].
    unfold run in HF'. rewrite fold_left_app in HF'. simpl in HF'.
    fold (run mounted acts) in HF'. fold p in HF'. fold p' in HF'.
    rewrite arrivals_snoc in HF'. apply HF'.
    unfold p'. destruct (onAuthStateChange_frame e p Hm) as [s [u E]].
    rewrite E. unfold processNextAuthEvent.
    rewrite processQueue_mounted. exact Hm. }
  destruct (run_Inv acts) as [HI HF]. fold p in HI, HF.
  unfold Inv in HI.
  destruct (suspended p) as [| e0 [| e1 l]] eqn:Hs; [| | contradiction].
  - destruct HI as [Hi [Hp Hq]].
    split; [left; exact Hi |].
    split; [simpl; lia |].
    split; [intros H; apply processQueue_busy; exact H |].
    split; [exact HF |].
    split; [exact Harrive |].
    intros Hm _. split; [exact Hq |]. split; [reflexivity |].
    specialize (HF Hm). rewrite Hq, app_nil_r in HF. exact HF.
  - destruct HI as [Hb [Hp _]].
    split; [right; exists e0; exact Hb |].
    split; [simpl; lia |].
    split; [intros H; apply processQueue_busy; exact H |].
    split; [exact HF |].
    split; [exact Harrive |].
    intros Hm Hf. rewrite (Hp Hm) in Hf. discriminate Hf.
Qed.

Lemma auth_events_one_at_a_time_in_order_witness :
  begun (log (run mounted burst)) = [signed_in; token_refreshed; signed_out]
  /\ authEventQueueRef (run mounted burst) = [].
Proof.
  destruct (auth_events_one_at_a_time_in_order burst)
    as [_ [_ [_ [_ [_ H]]]]].
  destruct (H eq_refl eq_refl) as [Hq [_ Hb]].
  split; [exact Hb | exact Hq].
Defined.

End AuthQueueFacts.

(* ================================================================== *)
(** * Further properties of the code *)
(* ================================================================== *)

(** ** The store's operations *)

Module StoreOpsFacts.
Import Js Data Fx ProfileContext StoreOps Scenarios MoreScenarios JsFacts.

Lemma calculateCompletionStatus_status_of (data : ProfileData) :
  calculateCompletionStatus data = emit (SetCompletionStatus (status_of data)).
Proof. reflexivity. Qed.

Lemma run_only_loading (st : Store) (b : bool) :
  profileData (run st [SetIsLoading b]) = profileData st
  /\ completionStatus (run st [SetIsLoading b]) = completionStatus st
  /\ isLoading (run st [SetIsLoading b]) = b.
Proof. repeat split. Qed.

(** X1. Whatever the remote calls answer, and also when they reject,
    [loadProfileData] completes without an exception and leaves the store
    not loading. *)
Theorem loadProfileData_settles (r : LoadReplies) (st : Store) :
  result (loadProfileData r) = Some tt
  /\ isLoading (run st (effects (loadProfileData r))) = false.
Proof.
  unfold loadProfileData. split.
  - unfold finally, result. cbn [snd].
    match goal with
    | |- snd (try_catch ?m _) = _ => destruct m as [l [[] |]]; reflexivity
    end.
  - unfold finally, effects. cbn [fst].
    rewrite StoreFacts.run_app. reflexivity.
Qed.

(** X2. When the identity provider delivers no user (or the call rejects),
    the load queries no table and leaves the aggregate and the completion
    status as they were; a rejection is logged. *)
Theorem loadProfileData_without_user (r : LoadReplies) (st : Store) :
  reply_data (get_user r) = None ->
  let done := effects (loadProfileData r) in
  filter is_remote done = [AuthGetUser]
  /\ profileData (run st done) = profileData st
  /\ completionStatus (run st done) = completionStatus st
  /\ existsb is_console_error done = negb (answered (get_user r)).
Proof.
  intros Hu. unfold loadProfileData.
  destruct (get_user r) as [[u |] e |]; [discriminate Hu | |];
    repeat split.
Qed.

Lemma loadProfileData_without_user_witness :
  filter is_remote (effects (loadProfileData signed_out_load)) = [AuthGetUser]
  /\ profileData (run welcomed (effects (loadProfileData signed_out_load)))
     = profileData welcomed.
Proof.
  pose proof (@loadProfileData_without_user signed_out_load welcomed eq_refl)
    as [H1 [H2 _]].
  split; [exact H1 | exact H2].
Defined.

Lemma run_load_continues (u : User) (r : LoadReplies)
  (e0 : option PostgrestError) (st : Store) :
  get_user r = Reply (Some u) e0 ->
  answered (profiles_select r) = true ->
  other_error (profiles_select r) = false ->
  answered (preferences_select r) = true ->
  answered (onboarding_select r) = true ->
  let combined :=
    combine u (reply_data (profiles_select r))
      (reply_data (preferences_select r))
      (reply_data (onboarding_select r)) in
  run st (effects (loadProfileData r)) =
    {| profileData := Some combined; isLoading := false;
       completionStatus := status_of combined |}.
Proof.
  intros Hu Ha1 He1 Ha2 Ha3 combined.
  rewrite (@StoreFacts.loadProfileData_continues u r e0 Hu Ha1 He1 Ha2 Ha3).
  fold combined.
  destruct (is_some (reply_error (preferences_select r))),
           (other_error (onboarding_select r)); reflexivity.
Qed.

(** X3. After a load that runs to its end, [isOnboardingComplete] is decided
    by the onboarding row alone: it is true exactly when the row's
    [completed] is true or the row lists at least one role and two steps,
    and false when there is no row, whatever the profile and the
    preferences hold. *)
Theorem isOnboardingComplete_after_load (u : User) (r : LoadReplies)
  (e0 : option PostgrestError) (st : Store) :
  get_user r = Reply (Some u) e0 ->
  answered (profiles_select r) = true ->
  other_error (profiles_select r) = false ->
  answered (preferences_select r) = true ->
  answered (onboarding_select r) = true ->
  isOnboardingComplete (run st (effects (loadProfileData r)))
  = row_complete (reply_data (onboarding_select r)).
Proof.
  intros Hu Ha1 He1 Ha2 Ha3.
  rewrite (@run_load_continues u r e0 st Hu Ha1 He1 Ha2 Ha3).
  unfold isOnboardingComplete, row_complete. cbn [isLoading profileData].
  destruct (reply_data (onboarding_select r)) as [row |]; [| reflexivity].
  cbn [combine onboarding_completed selected_roles completed_steps value_or].
  destruct (row_completed row) as [[|] |]; reflexivity.
Qed.

Lemma isOnboardingComplete_after_load_witness :
  isOnboardingComplete (run initialStore (effects (loadProfileData scenarioA)))
  = false.
Proof.
  exact (@isOnboardingComplete_after_load ada scenarioA None initialStore
           eq_refl eq_refl eq_refl eq_refl eq_refl).
Defined.

(** *** Updating *)

Lemma spread_app (p : ProfileData) (d1 d2 : Partial) :
  spread p (d1 ++ d2) = spread (spread p d1) d2.
Proof. apply fold_left_app. Qed.

Lemma assign_holds (p : ProfileData) (u : FieldUpdate) : holds u (assign p u).
Proof. destruct u; reflexivity. Qed.

Lemma assign_other (p : ProfileData) (x u : FieldUpdate) :
  key_of x <> key_of u -> holds u p -> holds u (assign p x).
Proof.
  destruct x, u; simpl; intros Hk H; try exact H; contradiction Hk;
    reflexivity.
Qed.

Lemma spread_other (data : Partial) (u : FieldUpdate) :
  forall p,
    Forall (fun x => key_of x <> key_of u) data ->
    holds u p -> holds u (spread p data).
Proof.
  induction data as [| x data IH]; intros p Hk H; [exact H |].
  inversion Hk; subst. apply IH; [assumption |].
  apply assign_other; assumption.
Qed.

Lemma updateProfile_loaded (st : Store) (p : ProfileData) (data : Partial) :
  profileData st = Some p ->
  updateProfile st data =
    ([SetProfileData (spread p data);
      SetCompletionStatus (status_of (spread p data))], Some tt).
Proof. intros Hp. unfold updateProfile. rewrite Hp. reflexivity. Qed.

(** X4. Reading after [updateProfile]: on a loaded store the aggregate holds
    every value the update assigns (the last one when a key is given
    twice), keeps the values of the keys it does not mention, and the
    completion status is the one of the new aggregate; nothing is sent to
    the remote store and the loading flag is untouched. *)
Theorem updateProfile_read_back (st : Store) (p : ProfileData)
  (before after : Partial) (u : FieldUpdate) :
  profileData st = Some p ->
  Forall (fun x => key_of x <> key_of u) after ->
  let done := effects (updateProfile st (before ++ u :: after)) in
  exists p',
    profileData (run st done) = Some p'
    /\ holds u p'
    /\ (forall k,
          Forall (fun x => key_of x <> key_of k) (before ++ u :: after) ->
          holds k p -> holds k p')
    /\ completionStatus (run st done) = status_of p'
    /\ isLoading (run st done) = isLoading st
    /\ filter is_remote done = [].
Proof.
  intros Hp Hafter done. unfold done.
  rewrite (updateProfile_loaded st (before ++ u :: after) Hp).
  exists (spread p (before ++ u :: after)).
  split; [reflexivity |]. split.
  - rewrite spread_app.
    change (spread (spread p before) (u :: after))
      with (spread (assign (spread p before) u) after).
    apply (@spread_other after u _ Hafter). apply assign_holds.
  - split; [| repeat split].
    intros k Hk Hh. apply spread_other; assumption.
Qed.

Lemma updateProfile_read_back_witness :
  exists p',
    profileData
      (run welcomed
         (effects (updateProfile welcomed
                     [full_name_ (u16 "Ada"); email_ (u16 "ada@x.com");
                      full_name_ (u16 "Ada Lovelace")])))
    = Some p'
    /\ full_name p' = u16 "Ada Lovelace"
    /\ completed_steps p' = [u16 "welcome"].
Proof.
  destruct (@updateProfile_read_back welcomed _
              [full_name_ (u16 "Ada"); email_ (u16 "ada@x.com")] []
              (full_name_ (u16 "Ada Lovelace")) eq_refl (Forall_nil _))
    as [p' [H1 [H2 [H3 _]]]].
  exists p'. split; [exact H1 |]. split; [exact H2 |].
  apply (H3 (completed_steps_ [u16 "welcome"])); [| reflexivity].
  repeat constructor; discriminate.
Defined.

(** X5. How two updates compose.  Made from successive renders they add
    up: the aggregate is the first spread, then the second.  Made from the
    same render, the second replaces the first: the aggregate is the
    render's aggregate with the second update only. *)
Theorem updateProfile_twice (st : Store) (p : ProfileData) (d1 d2 : Partial) :
  profileData st = Some p ->
  profileData (execAll st [Update d1; Update d2]) = Some (spread p (d1 ++ d2))
  /\ profileData
       (run st (effects (updateProfile st d1) ++ effects (updateProfile st d2)))
     = Some (spread p d2).
Proof.
  intros Hp. split.
  - simpl. rewrite (updateProfile_loaded st d1 Hp). simpl.
    rewrite spread_app. reflexivity.
  - rewrite !(updateProfile_loaded st _ Hp). reflexivity.
Qed.

Lemma updateProfile_twice_witness :
  option_map completed_steps
    (profileData
       (run welcomed
          (effects (updateProfile welcomed
                      [completed_steps_ [u16 "welcome"; u16 "complete"]])
           ++ effects (updateProfile welcomed [onboarding_completed_ true]))))
  = Some [u16 "welcome"].
Proof.
  rewrite (proj2 (@updateProfile_twice welcomed _
                    [completed_steps_ [u16 "welcome"; u16 "complete"]]
                    [onboarding_completed_ true] eq_refl)).
  reflexivity.
Defined.

(** *** Saving *)

Lemma saveProfile_store (st q : Store) (r : SaveReplies) :
  run q (effects (saveProfile st r)) =
    match profileData st with
    | Some _ =>
        {| profileData := profileData q; isLoading := false;
           completionStatus := completionStatus q |}
    | None => q
    end.
Proof.
  unfold saveProfile. destruct (profileData st) as [p |]; [| reflexivity].
  StoreFacts.each_reply r; reflexivity.
Qed.

(** X7. [saveProfile] never changes what the store holds in memory: the
    aggregate and the completion status are as before whatever the remote
    store answers; a store without aggregate is left as it is, and a store
    with one ends not loading. *)
Theorem saveProfile_memory (st : Store) (r : SaveReplies) :
  let st' := run st (effects (saveProfile st r)) in
  profileData st' = profileData st
  /\ completionStatus st' = completionStatus st
  /\ (profileData st = None -> st' = st)
  /\ (profileData st <> None -> isLoading st' = false).
Proof.
  cbv zeta. rewrite saveProfile_store.
  destruct (profileData st) as [p |] eqn:Hp.
  - cbn. split; [reflexivity |]. split; [reflexivity |].
    split; [intros H; discriminate H | intros _; reflexivity].
  - split; [exact Hp |]. split; [reflexivity |].
    split; [intros _; reflexivity | intros H; contradiction H; reflexivity].
Qed.

Lemma saveProfile_memory_witness :
  run initialStore (effects (saveProfile initialStore all_ok)) = initialStore
  /\ isLoading (run scenarioC (effects (saveProfile scenarioC scenarioE)))
     = false.
Proof.
  pose proof (saveProfile_memory initialStore all_ok) as [_ [_ [H1 _]]].
  pose proof (saveProfile_memory scenarioC scenarioE) as [_ [_ [_ H2]]].
  split; [exact (H1 eq_refl) | apply H2; discriminate].
Defined.

Lemma saveProfile_onboarding_row_raw (st : Store) (p : ProfileData)
  (r : SaveReplies) :
  profileData st = Some p ->
  onboarding_payloads (effects (saveProfile st r)) =
    (if answered (profiles_upsert r) && answered (preferences_upsert r)
     then [onboardingPayload st p]
     else []).
Proof.
  intros Hp. unfold saveProfile. rewrite Hp.
  StoreFacts.each_reply r; reflexivity.
Qed.

(** X8. The onboarding row [saveProfile] writes carries the roles and steps
    of the aggregate and, as [completed], the derived
    [isOnboardingComplete] of the render, not the aggregate's flag: it is
    written once, provided the two earlier upserts answered, and
    [completed] is true by the heuristic alone and false while the store is
    loading even if the flag is set. *)
Theorem saveProfile_onboarding_row (st : Store) (p : ProfileData)
  (r : SaveReplies) :
  profileData st = Some p ->
  onboarding_payloads (effects (saveProfile st r)) =
    (if answered (profiles_upsert r) && answered (preferences_upsert r)
     then [{| op_user_id := id p;
              op_selected_roles := selected_roles p;
              op_completed_steps := completed_steps p;
              op_completed := isOnboardingComplete st |}]
     else [])
  /\ (isLoading st = true -> isOnboardingComplete st = false)
  /\ (isLoading st = false -> onboarding_completed p = false ->
      isOnboardingComplete st
      = (0 <? List.length (selected_roles p))
        && (2 <=? List.length (completed_steps p))).
Proof.
  intros Hp. split; [| split].
  - unfold saveProfile. rewrite Hp.
    StoreFacts.each_reply r; reflexivity.
  - intros Hl. unfold isOnboardingComplete. rewrite Hl. reflexivity.
  - intros Hl Hf. unfold isOnboardingComplete. rewrite Hl, Hp, Hf.
    reflexivity.
Qed.

Lemma saveProfile_onboarding_row_witness :
  map op_completed (onboarding_payloads (effects (saveProfile scenarioC all_ok)))
  = [true]
  /\ map op_completed
       (onboarding_payloads
          (effects (saveProfile flagged_but_loading all_ok)))
     = [false].
Proof.
  split.
  - rewrite (proj1 (@saveProfile_onboarding_row scenarioC _ all_ok eq_refl)).
    reflexivity.
  - rewrite (proj1 (@saveProfile_onboarding_row flagged_but_loading _ all_ok
                      eq_refl)).
    reflexivity.
Defined.

(** *** The completion status along any sequence of calls *)

(** A load either runs to its end or leaves aggregate and status alone. *)
Lemma load_cases (r : LoadReplies) (st : Store) :
  (exists p,
     run st (effects (loadProfileData r)) =
       {| profileData := Some p; isLoading := false;
          completionStatus := status_of p |})
  \/ (profileData (run st (effects (loadProfileData r))) = profileData st
      /\ completionStatus (run st (effects (loadProfileData r)))
         = completionStatus st).
Proof.
  destruct (get_user r) as [[u |] e0 |] eqn:Hu.
  2:{ right. unfold loadProfileData. rewrite Hu. split; reflexivity. }
  2:{ right. unfold loadProfileData. rewrite Hu. split; reflexivity. }
  destruct (profiles_select r) as [d1 e1 |] eqn:H1.
  2:{ right. unfold loadProfileData. rewrite Hu, H1. split; reflexivity. }
  destruct (error_other_than_not_found e1) eqn:E1.
  { right. unfold loadProfileData. rewrite Hu, H1.
    cbn [await bind try_catch finally effects fst snd emit app].
    rewrite E1. split; reflexivity. }
  destruct (preferences_select r) as [d2 e2 |] eqn:H2.
  2:{ right. unfold loadProfileData. rewrite Hu, H1, H2.
      cbn [await bind try_catch finally effects fst snd emit app].
      rewrite E1. split; reflexivity. }
  destruct (onboarding_select r) as [d3 e3 |] eqn:H3.
  2:{ right. unfold loadProfileData. rewrite Hu, H1, H2, H3.
      cbn [await bind try_catch finally effects fst snd emit app].
      rewrite E1. destruct e2; split; reflexivity. }
  left. eexists.
  apply (@run_load_continues u r e0 st Hu).
  - rewrite H1. reflexivity.
  - rewrite H1. exact E1.
  - rewrite H2. reflexivity.
  - rewrite H3. reflexivity.
Qed.

Lemma exec_in_step (st : Store) (c : call) : in_step st -> in_step (exec st c).
Proof.
  intros Hin. destruct c as [r | data | step | r]; cbn [exec].
  - (* load *)
    destruct (load_cases r st) as [[p E] | [E1 E2]].
    + rewrite E. intros q Hq. injection Hq as <-. reflexivity.
    + intros q Hq. rewrite E2. apply Hin. rewrite <- E1. exact Hq.
  - (* update *)
    unfold updateProfile. destruct (profileData st) as [p |] eqn:Hp.
    + intros q Hq. cbn in Hq. injection Hq as <-. reflexivity.
    + intros q Hq. cbn in Hq. congruence.
  - (* complete a step *)
    unfold completeStep. destruct (profileData st) as [p |] eqn:Hp.
    + destruct (includes (completed_steps p) step).
      * intros q Hq. cbn in Hq. apply Hin. exact Hq.
      * intros q Hq. cbn in Hq. injection Hq as <-. cbn.
        rewrite (Hin p Hp). reflexivity.
    + intros q Hq. cbn in Hq. congruence.
  - (* save *)
    rewrite saveProfile_store.
    destruct (profileData st) as [p |] eqn:Hp; [| exact Hin].
    intros q Hq. cbn in Hq. cbn. apply Hin. congruence.
Qed.

(** X6. However loads, updates, step completions and saves follow one
    another from the provider's mount on, whenever the store holds an
    aggregate its completion status is the one computed from that
    aggregate: personal info iff name and email are non-empty, roles iff a
    role is selected, locations iff one is listed. *)
Theorem completionStatus_in_step (cs : list call) (p : ProfileData) :
  profileData (execAll initialStore cs) = Some p ->
  completionStatus (execAll initialStore cs) = status_of p
  /\ personalInfo (completionStatus (execAll initialStore cs))
     = truthy (full_name p) && truthy (email p)
  /\ roles (completionStatus (execAll initialStore cs))
     = (0 <? List.length (selected_roles p)).
Proof.
  assert (H : in_step (execAll initialStore cs)).
  { unfold execAll. induction cs as [| c cs IH] using rev_ind.
    - intros q Hq. discriminate Hq.
    - rewrite fold_left_app. simpl. apply exec_in_step. exact IH. }
  intros Hp. rewrite (H p Hp). repeat split.
Qed.

Lemma completionStatus_in_step_witness :
  roles (completionStatus
           (execAll initialStore
              [Load scenarioA; Update [selected_roles_ [u16 "frontend"]];
               Complete (u16 "welcome"); Save scenarioE]))
  = true.
Proof.
  destruct (@completionStatus_in_step
              [Load scenarioA; Update [selected_roles_ [u16 "frontend"]];
               Complete (u16 "welcome"); Save scenarioE] _ eq_refl)
    as [_ [_ H]].
  rewrite H. reflexivity.
Defined.

End StoreOpsFacts.

(** ** The page's navigation *)

Module PageFacts.
Import Js Data Fx ProfileContext UnifiedProfileExperience PageOps.
Import Scenarios MoreScenarios JsFacts OrchestratorFacts.
Local Open Scope Z_scope.

(** What [findIndex] returns: -1 when no element passes, otherwise the
    index of the first element that passes. *)
Lemma findIndexI_from_spec {A} (p : A -> Z -> bool) (xs : list A) :
  forall i,
    0 <= i ->
    let k := findIndexI_from p i xs in
    (k = -1 \/ i <= k < i + Z.of_nat (List.length xs))
    /\ (forall j x,
          (k = -1 \/ i + Z.of_nat j < k) ->
          nth_error xs j = Some x -> p x (i + Z.of_nat j) = false)
    /\ (k <> -1 ->
        exists x, nth_error xs (Z.to_nat (k - i)) = Some x /\ p x k = true).
Proof.
  induction xs as [| x xs IH]; intros i Hi; cbn [findIndexI_from].
  - split; [left; reflexivity |]. split.
    + intros j y _ Hn. destruct j; discriminate Hn.
    + intros H. contradiction H. reflexivity.
  - destruct (p x i) eqn:Hp.
    + split; [right; simpl List.length; lia |]. split.
      * intros j y [H | H]; lia.
      * intros _. exists x. rewrite Z.sub_diag.
        split; [reflexivity | exact Hp].
    + assert (Hi' : 0 <= i + 1) by lia.
      specialize (IH (i + 1) Hi'). cbv zeta in IH.
      destruct IH as [Hr [Hbefore Hat]].
      set (k := findIndexI_from p (i + 1) xs) in *.
      split; [simpl List.length; lia |]. split.
      * intros j y Hk Hn. destruct j as [| j].
        -- simpl in Hn. injection Hn as <-. rewrite Z.add_0_r. exact Hp.
        -- simpl in Hn.
           replace (i + Z.of_nat (S j)) with (i + 1 + Z.of_nat j) by lia.
           apply (Hbefore j y); [lia | exact Hn].
      * intros Hk. destruct Hat as [y [Hy Hpy]]; [exact Hk |].
        exists y. split; [| exact Hpy].
        replace (Z.to_nat (k - i)) with (S (Z.to_nat (k - (i + 1)))) by lia.
        exact Hy.
Qed.

Lemma sectionAt_beyond (i : Z) : lastStep < i -> sectionAt i = None.
Proof.
  unfold lastStep, sectionAt. simpl List.length. intros H.
  destruct (i <? 0) eqn:E; [reflexivity |].
  apply nth_error_None. simpl List.length. lia.
Qed.

Lemma step_cases (i : Z) :
  i < 0 \/ i = 0 \/ i = 1 \/ i = 2 \/ i = 3 \/ i = 4 \/ i = 5 \/ i = 6
  \/ lastStep < i.
Proof. unfold lastStep. simpl. lia. Qed.

Lemma canContinue_eq (pg : Page) :
  canContinue pg
  = negb (isSaving pg)
    && (0 <=? currentStep pg) && (currentStep pg <=? lastStep)
    && (negb (gated pg) || isFormValid pg).
Proof.
  unfold canContinue, gated. destruct pg as [cs asec sv fv hac msg].
  cbn [currentStep isSaving isFormValid]. destruct sv; [reflexivity |].
  destruct (step_cases cs)
    as [H | [-> | [-> | [-> | [-> | [-> | [-> | [-> | H]]]]]]]];
    try reflexivity.
  - unfold sectionAt. rewrite (proj2 (Z.ltb_lt _ _) H).
    rewrite (proj2 (Z.leb_gt _ _) H). reflexivity.
  - rewrite (sectionAt_beyond H).
    rewrite (proj2 (Z.leb_gt _ _) H), andb_false_r. reflexivity.
Qed.

Lemma handleNext_blocked (st : Store) (pg : Page) (focusInForm : bool)
  (r1 r2 : SaveReplies) :
  canContinue pg = false ->
  effects (handleNext st pg focusInForm r1 r2) = [SetHasAttemptedContinue true].
Proof. intros H. unfold handleNext. rewrite H. reflexivity. Qed.

(** X11. [canContinue()] holds exactly when no save is under way, the
    current step is one of the seven sections, and, on the personal and
    roles steps, the form is valid; when it does not hold, [handleNext]
    records the attempt and does nothing else. *)
Theorem canContinue_spec (st : Store) (pg : Page) (focusInForm : bool)
  (r1 r2 : SaveReplies) :
  canContinue pg
  = negb (isSaving pg)
    && (0 <=? currentStep pg) && (currentStep pg <=? lastStep)
    && (negb (gated pg) || isFormValid pg)
  /\ (canContinue pg = false ->
      effects (handleNext st pg focusInForm r1 r2)
      = [SetHasAttemptedContinue true]).
Proof.
  split; [apply canContinue_eq | apply handleNext_blocked].
Qed.

Lemma canContinue_spec_witness :
  effects (handleNext scenarioC saving false all_ok all_ok)
  = [SetHasAttemptedContinue true]
  /\ effects (handleNext scenarioC invalid_roles false all_ok all_ok)
     = [SetHasAttemptedContinue true].
Proof.
  split.
  - apply (proj2 (canContinue_spec scenarioC saving false all_ok all_ok)).
    reflexivity.
  - apply (proj2 (canContinue_spec scenarioC invalid_roles false all_ok all_ok)).
    reflexivity.
Defined.

(** *** Where [handleNext] leaves the page *)

Lemma sectionAt_prev (i : Z) :
  0 < i <= lastStep -> exists s, sectionAt (i - 1) = Some s.
Proof.
  unfold lastStep. simpl List.length. intros H.
  assert (C : i = 1 \/ i = 2 \/ i = 3 \/ i = 4 \/ i = 5 \/ i = 6) by lia.
  destruct C as [-> | [-> | [-> | [-> | [-> | ->]]]]];
    eexists; reflexivity.
Qed.

Lemma handleNext_unmounts (st : Store) (pg : Page) (focusInForm : bool)
  (r1 r2 : SaveReplies) (p : ProfileData) :
  profileData st = Some p ->
  canContinue pg = true ->
  existsb unmounts (effects (handleNext st pg focusInForm r1 r2)) = true.
Proof.
  intros Hp Hcan.
  rewrite (handleNext_trace st pg focusInForm r1 r2 Hp Hcan).
  pose proof (saveProfile_unmounts st r2 Hp) as S.
  destruct (canContinue_true pg Hcan) as [_ Hr].
  destruct (currentStep pg =? lastStep) eqn:Hlast.
  - rewrite !existsb_app, S, !orb_true_r. reflexivity.
  - apply Z.eqb_neq in Hlast.
    destruct (@sectionAt_next (currentStep pg)) as [next Hn]; [lia |].
    rewrite Hn, !existsb_app, S, !orb_true_r. reflexivity.
Qed.

(** A Continue that proceeds on a loaded aggregate takes the page off the
    screen; otherwise the page stays where it is. *)
Lemma handleNext_page (st : Store) (pg : Page) (focusInForm : bool)
  (r1 r2 : SaveReplies) :
  let pg' := run pg (effects (handleNext st pg focusInForm r1 r2)) in
  match profileData st with
  | Some _ =>
      if canContinue pg then pg' = initialPage
      else pg' = UnifiedProfileExperience.apply pg (SetHasAttemptedContinue true)
  | None => position pg' = position pg /\ isFormValid pg' = isFormValid pg
  end.
Proof.
  cbv zeta. destruct (profileData st) as [p |] eqn:Hp.
  - destruct (canContinue pg) eqn:Hcan.
    + apply page_run_unmounted.
      exact (handleNext_unmounts st pg focusInForm r1 r2 Hp Hcan).
    + rewrite (handleNext_blocked st pg focusInForm r1 r2 Hcan). reflexivity.
  - unfold handleNext, saveProfile. rewrite Hp.
    destruct (canContinue pg); cbn [negb]; [| split; reflexivity].
    destruct (eqb (activeSection pg) (u16 "personal")), focusInForm;
      split; reflexivity.
Qed.

Lemma handleNext_position (st : Store) (pg : Page) (focusInForm : bool)
  (r1 r2 : SaveReplies) :
  position (run pg (effects (handleNext st pg focusInForm r1 r2))) =
    match profileData st with
    | Some _ => if canContinue pg then position initialPage else position pg
    | None => position pg
    end.
Proof.
  pose proof (handleNext_page st pg focusInForm r1 r2) as H. cbv zeta in H.
  destruct (profileData st) as [p |].
  - destruct (canContinue pg); rewrite H; reflexivity.
  - exact (proj1 H).
Qed.

Lemma coherent_position (a b : Page) :
  position a = position b -> coherent a = coherent b.
Proof.
  unfold position, coherent. intros H. injection H as H1 H2.
  rewrite H1, H2. reflexivity.
Qed.

Lemma coherent_at (pg : Page) (k : Z) (s : Section) :
  sectionAt k = Some s ->
  position pg = (k, section_id s) -> coherent pg = true.
Proof.
  unfold position, coherent. intros Hs H. injection H as H1 H2.
  rewrite H1, Hs, H2. apply eqb_refl.
Qed.

Lemma coherent_range (pg : Page) :
  coherent pg = true -> 0 <= currentStep pg <= lastStep.
Proof.
  unfold coherent.
  destruct (sectionAt (currentStep pg)) as [s |] eqn:E; [| discriminate].
  intros _. exact (sectionAt_range _ E).
Qed.

Lemma handleBack_position (pg : Page) :
  coherent pg = true ->
  position (run pg (effects (handleBack pg))) =
    if 0 <? currentStep pg then
      match sectionAt (currentStep pg - 1) with
      | Some prev => (currentStep pg - 1, section_id prev)
      | None => position pg
      end
    else position pg.
Proof.
  intros Hc. pose proof (coherent_range pg Hc) as Hr.
  unfold handleBack. destruct (0 <? currentStep pg) eqn:E; [| reflexivity].
  apply Z.ltb_lt in E. unfold lastStep in Hr. simpl in Hr.
  assert (C : currentStep pg = 1 \/ currentStep pg = 2 \/ currentStep pg = 3
              \/ currentStep pg = 4 \/ currentStep pg = 5
              \/ currentStep pg = 6) by lia.
  destruct C as [-> | [-> | [-> | [-> | [-> | ->]]]]]; reflexivity.
Qed.

Lemma handleSectionClick_position (st : Store) (pg : Page) (mode : ThemeMode)
  (sectionId : jsstring) (e : MouseEvent) :
  position (run pg (effects (handleSectionClick st pg mode sectionId e)))
  = position pg
  \/ position (run pg (effects (handleSectionClick st pg mode sectionId e)))
     = (findIndex (fun s => eqb (section_id s) sectionId) profileSections,
        sectionId).
Proof.
  unfold handleSectionClick.
  destruct (negb (target_is_currentTarget e)
            && negb (eqb (target_tagName e) (u16 "SPAN")));
    [left; reflexivity |].
  destruct ((match mode with profile => true | onboarding => false end)
            || is_completed st sectionId); [| left; reflexivity].
  destruct (negb (eqb (activeSection pg) sectionId));
    [right | left]; reflexivity.
Qed.

Lemma findIndex_section (sectionId : jsstring) :
  is_section_id sectionId = true ->
  exists s,
    sectionAt (findIndex (fun s => eqb (section_id s) sectionId)
                 profileSections) = Some s
    /\ section_id s = sectionId.
Proof.
  unfold is_section_id, findIndex. cbn [profileSections existsb section_id
                                         findIndex_from].
  repeat match goal with
         | |- context [eqb ?a sectionId] =>
             let E := fresh "E" in
             destruct (eqb a sectionId) eqn:E;
             [intros _; eexists; split;
              [reflexivity | apply eqb_eq; exact E] |]
         end.
  intros H. discriminate H.
Qed.

Lemma handleSaveSection_trace (st : Store) (r : SaveReplies) :
  effects (handleSaveSection st r)
  = SetIsSaving true
    :: effects (saveProfile st r)
       ++ [SetSaveSuccessMessage saved_successfully; SetIsSaving false]
  /\ result (handleSaveSection st r)
     = Some [ {| delay := 3000; callback := [SetSaveSuccessMessage []] |} ].
Proof.
  unfold handleSaveSection.
  pose proof (saveProfile_never_throws st r) as N.
  destruct (saveProfile st r) as [l [v |]]; [| now contradiction N].
  cbn [finally try_catch bind emit ret effects result fst snd app].
  rewrite <- app_assoc. split; reflexivity.
Qed.

Lemma handleSaveSection_page (st : Store) (r : SaveReplies) (pg : Page) :
  UnifiedProfileExperience.run pg (effects (handleSaveSection st r))
  = match profileData st with
    | Some _ => initialPage
    | None =>
        {| currentStep := currentStep pg; activeSection := activeSection pg;
           isSaving := false; isFormValid := isFormValid pg;
           hasAttemptedContinue := hasAttemptedContinue pg;
           saveSuccessMessage := saved_successfully |}
    end.
Proof.
  rewrite (proj1 (handleSaveSection_trace st r)).
  destruct (profileData st) as [p |] eqn:Hp.
  - destruct (saveProfile_begins_loading st r Hp) as [l ->]. reflexivity.
  - rewrite (saveProfile_without_data st r Hp). reflexivity.
Qed.

Lemma perform_coherent (v : View) (g : gesture) :
  on_a_section g -> coherent (page v) = true ->
  coherent (page (perform v g)) = true.
Proof.
  intros Hg Hc.
  destruct g as [st mode | st | st f r1 r2 | | st mode sid e | st r];
    cbn [perform].
  - (* the initial-step effect *)
    unfold initialStep.
    destruct (profileData st) as [p |]; [| exact Hc].
    destruct (negb (isLoading st) && (currentStep (page v) =? 0));
      [| exact Hc].
    destruct mode.
    + destruct (includes (completed_steps p) (u16 "welcome")).
      * match goal with
        | |- context [negb (?k =? -1)] => destruct (negb (k =? -1));
            [destruct (sectionAt k) as [s |] eqn:Hs |]
        end; try exact Hc.
        apply (@coherent_at _ _ _ Hs). reflexivity.
      * destruct (negb (showWelcome v)); [| exact Hc]. reflexivity.
    + reflexivity.
  - (* Get Started *)
    cbn [after page]. unfold getStarted.
    apply (@coherent_at _ 1 {| section_id := u16 "personal";
                               section_title := u16 "Personal Information";
                               section_required := Some true |});
      [reflexivity |].
    cbn [sectionAt]. destruct (profileData st) as [p |] eqn:Hp.
    + destruct (includes (completed_steps p) (u16 "welcome")).
      * reflexivity.
      * unfold updateProfile. rewrite Hp. reflexivity.
    + reflexivity.
  - (* Continue *)
    cbn [after page].
    pose proof (handleNext_position st (page v) f r1 r2) as H.
    destruct (profileData st) as [p |];
      [destruct (canContinue (page v)) |];
      rewrite (coherent_position H); first [exact Hc | reflexivity].
  - (* Back *)
    cbn [after page].
    pose proof (handleBack_position (page v) Hc) as H.
    destruct (0 <? currentStep (page v));
      [| rewrite (coherent_position H); exact Hc].
    destruct (sectionAt (currentStep (page v) - 1)) as [prev |] eqn:Hn;
      [| rewrite (coherent_position H); exact Hc].
    apply (@coherent_at _ _ _ Hn). exact H.
  - (* a click on a section entry *)
    cbn [after page]. cbn [on_a_section] in Hg.
    destruct (handleSectionClick_position st (page v) mode sid e) as [H | H].
    + rewrite (coherent_position H). exact Hc.
    + destruct (findIndex_section sid Hg) as [s [Hs Hid]].
      apply (@coherent_at _ _ _ Hs). rewrite Hid. exact H.
  - (* Save Changes *)
    cbn [after page]. rewrite handleSaveSection_page.
    destruct (profileData st); [reflexivity | exact Hc].
Qed.

(** X9. From the mount on, whatever sequence of initial-step effects,
    "Get Started", Continue, Back, saves and clicks on section entries the
    page goes through, [currentStep] stays within the seven sections and
    [activeSection] is the id of the section at [currentStep]. *)
Theorem navigation_coherent (gs : list gesture) :
  Forall on_a_section gs ->
  let pg := page (performAll initialView gs) in
  0 <= currentStep pg <= 6
  /\ exists s,
       sectionAt (currentStep pg) = Some s
       /\ section_id s = activeSection pg.
Proof.
  intros Hgs pg.
  assert (Hc : coherent pg = true).
  { unfold pg, performAll. induction gs as [| g gs IH] using rev_ind.
    - reflexivity.
    - rewrite fold_left_app. cbn [fold_left].
      apply Forall_app in Hgs. destruct Hgs as [Hgs Hg].
      inversion Hg; subst.
      apply perform_coherent; [assumption | apply IH; assumption]. }
  split; [exact (coherent_range pg Hc) |].
  unfold coherent in Hc.
  destruct (sectionAt (currentStep pg)) as [s |]; [| discriminate Hc].
  exists s. split; [reflexivity | apply eqb_eq; exact Hc].
Qed.

Lemma navigation_coherent_witness :
  0 <= currentStep
         (page (performAll initialView
                  [GetStarted welcomed;
                   Next scenarioC false all_ok all_ok;
                   Click scenarioC profile (u16 "resume") buttonClick;
                   Back])) <= 6
  /\ position
       (page (performAll initialView
                [GetStarted welcomed;
                 Next scenarioC false all_ok all_ok;
                 Click scenarioC profile (u16 "resume") buttonClick;
                 Back]))
     = (4, u16 "education").
Proof.
  split; [| reflexivity].
  apply (@navigation_coherent
           [GetStarted welcomed;
            Next scenarioC false all_ok all_ok;
            Click scenarioC profile (u16 "resume") buttonClick;
            Back]).
  repeat constructor.
Defined.

(** X10. Back does not undo Continue.  A Continue that proceeds on a loaded
    aggregate takes the page off the screen: its save sets the provider
    loading, and the route shows the loading screen in the page's place.
    What follows is a freshly mounted page on the welcome step, which the
    initial-step effect then places from the aggregate in memory.  Back
    itself moves a page whose active section is the one at its step [k > 0]
    to step [k - 1] and the section there, leaves the welcome flag alone,
    never touches the store or the remote store, and on the first step
    does nothing. *)
Theorem handleBack_after_handleNext (st : Store) (v : View)
  (focusInForm : bool) (r1 r2 : SaveReplies) :
  (profileData st <> None -> canContinue (page v) = true ->
   perform v (Next st focusInForm r1 r2) = initialView)
  /\ (coherent (page v) = true -> 0 < currentStep (page v) ->
      exists prev,
        sectionAt (currentStep (page v) - 1) = Some prev
        /\ position (page (perform v Back))
           = (currentStep (page v) - 1, section_id prev)
        /\ showWelcome (perform v Back) = showWelcome v)
  /\ ProfileContext.run st (effects (handleBack (page v))) = st
  /\ filter is_remote (effects (handleBack (page v))) = []
  /\ (currentStep (page v) = 0 -> perform v Back = v).
Proof.
  split; [| split; [| split; [| split]]].
  - intros Hp Hcan. destruct (profileData st) as [p |] eqn:Ep;
      [| contradiction Hp; reflexivity].
    pose proof (handleNext_unmounts st (page v) focusInForm r1 r2 Ep Hcan)
      as Hu.
    cbn [perform]. unfold after. rewrite Hu.
    rewrite (page_run_unmounted _ (page v) Hu). reflexivity.
  - intros Hc Hpos. pose proof (coherent_range (page v) Hc) as Hr.
    destruct (@sectionAt_prev (currentStep (page v))) as [prev Hprev];
      [lia |].
    exists prev. split; [exact Hprev |].
    cbn [perform]. unfold after, handleBack.
    rewrite (proj2 (Z.ltb_lt _ _) Hpos), Hprev. split; reflexivity.
  - unfold handleBack. destruct (0 <? currentStep (page v)); [| reflexivity].
    destruct (sectionAt (currentStep (page v) - 1)); reflexivity.
  - unfold handleBack. destruct (0 <? currentStep (page v)); [| reflexivity].
    destruct (sectionAt (currentStep (page v) - 1)); reflexivity.
  - intros H0. cbn [perform]. unfold after, handleBack. rewrite H0.
    destruct v; reflexivity.
Qed.

(** The steps through education are completed, and the user has gone back
    to preferences.  Continue there does not lead to education, with Back
    returning to preferences: the page mounted after the save opens on
    resume, and Back leads to education. *)
Lemma handleBack_after_handleNext_witness :
  page (performAll initialView
          [InitialStep through_education onboarding; Back; Back])
  = at_preferences
  /\ position
       (page
          (performAll initialView
             [InitialStep through_education onboarding; Back; Back;
              Next through_education false all_ok all_ok;
              InitialStep
                (ProfileContext.run through_education
                   (effects
                      (handleNext through_education at_preferences false
                         all_ok all_ok)))
                onboarding;
              Back]))
     = (4, u16 "education").
Proof.
  split; [reflexivity |].
  unfold performAll. cbn [fold_left].
  set (v := perform (perform (perform initialView
                                (InitialStep through_education onboarding))
                       Back) Back).
  rewrite (proj1 (@handleBack_after_handleNext through_education v false
                    all_ok all_ok)).
  - reflexivity.
  - discriminate.
  - reflexivity.
Defined.

(** *** What Continue leaves in memory and what it persists *)

Lemma store_run_app (st : Store) (l1 l2 : list effect) :
  ProfileContext.run st (l1 ++ l2)
  = ProfileContext.run (ProfileContext.run st l1) l2.
Proof. apply fold_left_app. Qed.

Lemma onboarding_payloads_app (l1 l2 : list effect) :
  StoreOps.onboarding_payloads (l1 ++ l2)
  = StoreOps.onboarding_payloads l1 ++ StoreOps.onboarding_payloads l2.
Proof.
  induction l1 as [| e l1 IH]; [reflexivity |].
  destruct e; simpl; rewrite ?IH; reflexivity.
Qed.

Lemma saveProfile_payloads (st : Store) (p : ProfileData) (r : SaveReplies) :
  profileData st = Some p ->
  Forall (fun pl => pl = onboardingPayload st p)
    (StoreOps.onboarding_payloads (effects (saveProfile st r))).
Proof.
  intros Hp.
  rewrite (@StoreOpsFacts.saveProfile_onboarding_row_raw st p r Hp).
  destruct (answered (profiles_upsert r) && answered (preferences_upsert r));
    repeat constructor.
Qed.

Lemma updateProfile_payloads (st : Store) (data : Partial) :
  StoreOps.onboarding_payloads (effects (updateProfile st data)) = [].
Proof. unfold updateProfile. destruct (profileData st); reflexivity. Qed.

(** The onboarding rows a proceeding [handleNext] writes are those of its
    saves. *)
Lemma handleNext_written (st : Store) (pg : Page) (focusInForm : bool)
  (r1 r2 : SaveReplies) (p : ProfileData) :
  profileData st = Some p ->
  canContinue pg = true ->
  StoreOps.onboarding_payloads (effects (handleNext st pg focusInForm r1 r2))
  = (if eqb (activeSection pg) (u16 "personal")
     then StoreOps.onboarding_payloads (effects (saveProfile st r1))
     else [])
    ++ StoreOps.onboarding_payloads (effects (saveProfile st r2)).
Proof.
  intros Hp Hcan.
  rewrite (handleNext_trace st pg focusInForm r1 r2 Hp Hcan).
  destruct (canContinue_true pg Hcan) as [_ Hr].
  destruct (currentStep pg =? lastStep) eqn:Hlast.
  - destruct (eqb (activeSection pg) (u16 "personal")), focusInForm,
      (includes (completed_steps p) (activeSection pg));
      rewrite ?onboarding_payloads_app, ?updateProfile_payloads;
      cbn [app StoreOps.onboarding_payloads]; rewrite ?app_nil_r;
      reflexivity.
  - apply Z.eqb_neq in Hlast.
    destruct (@sectionAt_next (currentStep pg)) as [next Hn]; [lia |].
    rewrite Hn.
    destruct (eqb (activeSection pg) (u16 "personal")), focusInForm,
      (includes (completed_steps p) (activeSection pg));
      rewrite ?onboarding_payloads_app, ?updateProfile_payloads;
      cbn [app StoreOps.onboarding_payloads]; rewrite ?app_nil_r;
      reflexivity.
Qed.

(** X12. What a Continue persists is the aggregate of the render it was
    clicked in: every onboarding row written during [handleNext] carries
    the roles and steps that aggregate had, so a section this very call
    marks complete is not among the steps written; and when the handler
    proceeds and the closing save's first two upserts answer, such a row is
    written. *)
Theorem handleNext_persists_render (st : Store) (pg : Page)
  (focusInForm : bool) (r1 r2 : SaveReplies) (p : ProfileData) :
  profileData st = Some p ->
  let written :=
    StoreOps.onboarding_payloads
      (effects (handleNext st pg focusInForm r1 r2)) in
  Forall (fun pl =>
            op_completed_steps pl = completed_steps p
            /\ op_selected_roles pl = selected_roles p
            /\ op_completed pl = isOnboardingComplete st) written
  /\ (includes (completed_steps p) (activeSection pg) = false ->
      Forall (fun pl =>
                includes (op_completed_steps pl) (activeSection pg) = false)
        written)
  /\ (canContinue pg = true ->
      answered (profiles_upsert r2) && answered (preferences_upsert r2) = true ->
      written <> []).
Proof.
  intros Hp written.
  pose proof (@saveProfile_payloads st p r1 Hp) as S1.
  pose proof (@saveProfile_payloads st p r2 Hp) as S2.
  assert (Hall : Forall (fun pl => pl = onboardingPayload st p) written).
  { unfold written. destruct (canContinue pg) eqn:Hcan.
    - rewrite (handleNext_written st pg focusInForm r1 r2 Hp Hcan).
      apply Forall_app. split; [| exact S2].
      destruct (eqb (activeSection pg) (u16 "personal"));
        [exact S1 | constructor].
    - rewrite (handleNext_blocked st pg focusInForm r1 r2 Hcan).
      constructor. }
  split; [| split].
  - eapply Forall_impl; [| exact Hall]. intros pl ->. repeat split.
  - intros Hin. eapply Forall_impl; [| exact Hall]. intros pl ->. exact Hin.
  - intros Hcan Ha. unfold written.
    rewrite (handleNext_written st pg focusInForm r1 r2 Hp Hcan).
    rewrite (@StoreOpsFacts.saveProfile_onboarding_row_raw st p r2 Hp), Ha.
    intros H. apply app_eq_nil in H. destruct H as [_ H]. discriminate H.
Qed.

Lemma handleNext_persists_render_witness :
  map op_completed_steps
    (StoreOps.onboarding_payloads
       (effects (handleNext resumed at_preferences false all_ok all_ok)))
  = [[u16 "welcome"; u16 "personal"; u16 "roles"]].
Proof.
  pose proof (@handleNext_persists_render resumed at_preferences false all_ok
                all_ok three_steps eq_refl) as [_ [H _]].
  specialize (H eq_refl).
  reflexivity.
Defined.

Lemma store_run_cons (st : Store) (e : effect) (l : list effect) :
  ProfileContext.run st (e :: l)
  = ProfileContext.run (ProfileContext.apply st e) l.
Proof. reflexivity. Qed.

Lemma store_run_nil (st : Store) : ProfileContext.run st [] = st.
Proof. reflexivity. Qed.

Ltac run_store Hp :=
  repeat first
    [ rewrite store_run_app
    | rewrite store_run_cons
    | rewrite store_run_nil
    | rewrite StoreOpsFacts.saveProfile_store
    | rewrite Hp
    | progress cbn [app effects fst ProfileContext.apply profileData
                    isLoading completionStatus] ].

(** X13. What a proceeding Continue leaves in memory.  On any step but the
    last, the aggregate is the render's one with the active section added
    to the completed steps if it was absent.  On the last step it is the
    render's aggregate with [onboarding_completed] set and nothing else
    changed: the mark made earlier in the same call is replaced by the
    second update.  Either way the store ends not loading. *)
Theorem handleNext_memory (st : Store) (pg : Page) (focusInForm : bool)
  (r1 r2 : SaveReplies) (p : ProfileData) :
  profileData st = Some p ->
  canContinue pg = true ->
  let st' :=
    ProfileContext.run st (effects (handleNext st pg focusInForm r1 r2)) in
  profileData st' =
    Some (if currentStep pg =? lastStep then set_onboarding_completed p true
          else if includes (completed_steps p) (activeSection pg) then p
          else set_completed_steps p (completed_steps p ++ [activeSection pg]))
  /\ isLoading st' = false.
Proof.
  intros Hp Hcan st'. unfold st'.
  rewrite (handleNext_trace st pg focusInForm r1 r2 Hp Hcan).
  destruct (canContinue_true pg Hcan) as [_ Hr].
  rewrite !(@StoreOpsFacts.updateProfile_loaded st p _ Hp).
  destruct (currentStep pg =? lastStep) eqn:Hlast.
  - destruct (eqb (activeSection pg) (u16 "personal")), focusInForm,
      (includes (completed_steps p) (activeSection pg));
      run_store Hp; split; reflexivity.
  - apply Z.eqb_neq in Hlast.
    destruct (@sectionAt_next (currentStep pg)) as [next Hn]; [lia |].
    rewrite Hn.
    destruct (eqb (activeSection pg) (u16 "personal")), focusInForm,
      (includes (completed_steps p) (activeSection pg));
      run_store Hp; split; reflexivity.
Qed.

Lemma handleNext_memory_witness :
  option_map completed_steps
    (profileData
       (ProfileContext.run all_done
          (effects (handleNext all_done on_completion false all_ok all_ok))))
  = Some [u16 "welcome"; u16 "personal"; u16 "roles"; u16 "preferences";
          u16 "education"; u16 "resume"].
Proof.
  rewrite (proj1 (@handleNext_memory all_done on_completion false all_ok
                    all_ok six_steps eq_refl eq_refl)).
  reflexivity.
Defined.

(** X14. Where onboarding resumes.  When the data is loaded, the page is
    still on step 0 and the welcome step is among the completed ones, the
    initial-step effect moves to the first section after the welcome screen
    that is not completed, makes it the active section and hides the
    welcome screen; every section before it is completed.  When every
    section after the welcome screen is completed the effect changes
    nothing: the page stays on step 0. *)
Theorem initialStep_resumes (st : Store) (v : View) (p : ProfileData) :
  profileData st = Some p ->
  isLoading st = false ->
  currentStep (page v) = 0 ->
  includes (completed_steps p) (u16 "welcome") = true ->
  let v' := initialStep st onboarding v in
  let completed j :=
    match sectionAt j with
    | Some s => includes (completed_steps p) (section_id s)
    | None => true
    end in
  (v' = v /\ forall j, 1 <= j -> completed j = true)
  \/ (exists s,
        1 <= currentStep (page v')
        /\ sectionAt (currentStep (page v')) = Some s
        /\ activeSection (page v') = section_id s
        /\ includes (completed_steps p) (section_id s) = false
        /\ showWelcome v' = false
        /\ forall j, 1 <= j < currentStep (page v') -> completed j = true).
Proof.
  intros Hp Hl H0 Hw v' completed. unfold v', initialStep.
  rewrite Hp, Hl, H0, Hw. cbn [negb andb Z.eqb].
  unfold findIndexI.
  set (q := fun (section : Section) (index : Z) =>
              (0 <? index)
              && negb (includes (completed_steps p) (section_id section))).
  destruct (@findIndexI_from_spec _ q profileSections 0 (Z.le_refl 0))
    as [_ [Hbefore Hat]].
  set (k := findIndexI_from q 0 profileSections) in *.
  assert (Hdone : forall j, 1 <= j -> (k = -1 \/ j < k) -> completed j = true).
  { intros j Hj Hk. unfold completed, sectionAt.
    destruct (j <? 0) eqn:Hneg; [reflexivity |].
    destruct (nth_error profileSections (Z.to_nat j)) as [s |] eqn:Hs;
      [| reflexivity].
    assert (Hq : q s (0 + Z.of_nat (Z.to_nat j)) = false).
    { apply (Hbefore (Z.to_nat j) s); [| exact Hs].
      destruct Hk as [Hk | Hk]; [left; exact Hk | right; lia]. }
    unfold q in Hq. rewrite Z2Nat.id in Hq by lia.
    replace (0 <? 0 + j) with true in Hq by (symmetry; apply Z.ltb_lt; lia).
    cbn [andb] in Hq. apply negb_false_iff in Hq. exact Hq. }
  destruct (k =? -1) eqn:Hk; cbn [negb].
  - left. apply Z.eqb_eq in Hk.
    split; [reflexivity |]. intros j Hj. apply Hdone; [exact Hj | left; exact Hk].
  - right. apply Z.eqb_neq in Hk.
    destruct (Hat Hk) as [s [Hs Hq]].
    unfold q in Hq. apply andb_true_iff in Hq. destruct Hq as [Hpos Hnot].
    apply Z.ltb_lt in Hpos. apply negb_true_iff in Hnot.
    assert (Hsec : sectionAt k = Some s).
    { unfold sectionAt. replace (k <? 0) with false
        by (symmetry; apply Z.ltb_ge; lia).
      rewrite Z.sub_0_r in Hs. exact Hs. }
    rewrite Hsec. exists s. cbn [navigate page currentStep activeSection
                                 showWelcome].
    repeat split; try assumption; try lia.
    intros j Hj. apply Hdone; [lia | right; lia].
Qed.

Lemma initialStep_resumes_witness :
  PageOps.position (page (initialStep scenarioC onboarding initialView))
  = (2, u16 "roles").
Proof.
  pose proof (@initialStep_resumes scenarioC initialView frontend_two_steps
                eq_refl eq_refl eq_refl eq_refl) as H.
  reflexivity.
Defined.

(** The initial-step effect acts on step 0 only. *)
Lemma initialStep_started (st : Store) (mode : ThemeMode) (v : View) :
  currentStep (page v) <> 0 -> initialStep st mode v = v.
Proof.
  intros Hk. unfold initialStep.
  destruct (profileData st); [| reflexivity].
  replace (currentStep (page v) =? 0) with false
    by (symmetry; apply Z.eqb_neq; exact Hk).
  rewrite andb_false_r. reflexivity.
Qed.

(** Whenever it acts, it leaves step 0. *)
Lemma initialStep_cases (st : Store) (mode : ThemeMode) (v : View) :
  initialStep st mode v = v
  \/ currentStep (page (initialStep st mode v)) <> 0.
Proof.
  unfold initialStep.
  destruct (profileData st) as [p |]; [| left; reflexivity].
  destruct (negb (isLoading st) && (currentStep (page v) =? 0));
    [| left; reflexivity].
  destruct mode.
  - destruct (includes (completed_steps p) (u16 "welcome")).
    + unfold findIndexI.
      set (q := fun (section : Section) (index : Z) =>
                  (0 <? index)
                  && negb (includes (completed_steps p) (section_id section))).
      destruct (@findIndexI_from_spec _ q profileSections 0 (Z.le_refl 0))
        as [_ [_ Hat]].
      set (k := findIndexI_from q 0 profileSections) in *.
      destruct (k =? -1) eqn:Hk; cbn [negb]; [left; reflexivity |].
      apply Z.eqb_neq in Hk. destruct (Hat Hk) as [s [_ Hq]].
      unfold q in Hq. apply andb_true_iff in Hq. destruct Hq as [Hpos _].
      apply Z.ltb_lt in Hpos.
      destruct (sectionAt k); [| left; reflexivity].
      right. cbn [navigate page currentStep]. lia.
    + destruct (showWelcome v); cbn [negb]; [left; reflexivity |].
      right. vm_compute. discriminate.
  - right. vm_compute. discriminate.
Qed.

(** X15. The initial-step effect places the page once: run again on the
    view it produced, against the same data and mode, it changes nothing.
    (It acts only on step 0, and whenever it acts it leaves step 0.) *)
Theorem initialStep_once (st : Store) (mode : ThemeMode) (v : View) :
  initialStep st mode (initialStep st mode v) = initialStep st mode v.
Proof.
  destruct (initialStep_cases st mode v) as [H | H].
  - rewrite H. exact H.
  - apply initialStep_started. exact H.
Qed.

(** X16. The Save Changes button always calls for the success message,
    and on a loaded aggregate the page never shows it.  Whatever the store
    holds and whatever the remote store answers, also when every upsert
    fails or no profile is loaded, [handleSaveSection] sets the saving
    flag, runs [saveProfile], calls
    [setSaveSuccessMessage("Changes saved successfully!")] and clears the
    saving flag, in this order; it logs no "Error saving profile data:",
    never throws, and schedules the clearing of the message after 3000 ms.
    When a profile is loaded the save takes the page off the screen before
    the message is set, and the page mounted next is in its initial state,
    with no message and on the welcome step.  When none is loaded the page
    stays, with the message, the saving flag cleared and nothing else
    changed. *)
Theorem handleSaveSection_outcome (st : Store) (pg : Page) (r : SaveReplies) :
  let m := handleSaveSection st r in
  let pg' := UnifiedProfileExperience.run pg (effects m) in
  effects m
  = SetIsSaving true
    :: effects (saveProfile st r)
       ++ [SetSaveSuccessMessage saved_successfully; SetIsSaving false]
  /\ ~ In (ConsoleError (u16 "Error saving profile data:")) (effects m)
  /\ result m
     = Some [ {| delay := 3000; callback := [SetSaveSuccessMessage []] |} ]
  /\ (profileData st <> None ->
      pg' = initialPage /\ saveSuccessMessage pg' = [])
  /\ (profileData st = None ->
      pg' = {| currentStep := currentStep pg;
               activeSection := activeSection pg;
               isSaving := false; isFormValid := isFormValid pg;
               hasAttemptedContinue := hasAttemptedContinue pg;
               saveSuccessMessage := saved_successfully |}).
Proof.
  cbv zeta. destruct (handleSaveSection_trace st r) as [Ht Hr].
  assert (Hnolog : ~ In (ConsoleError (u16 "Error saving profile data:"))
                       (effects (saveProfile st r))).
  { unfold saveProfile. destruct (profileData st) as [p |].
    - StoreFacts.each_reply r; cbn; intuition discriminate.
    - cbn. intuition discriminate. }
  split; [exact Ht |]. split; [| split; [exact Hr |]].
  - rewrite Ht. intros [H | H]; [discriminate H |].
    apply in_app_or in H. destruct H as [H | H]; [exact (Hnolog H) |].
    cbn in H. intuition discriminate.
  - rewrite handleSaveSection_page. split.
    + intros Hp. destruct (profileData st); [| contradiction Hp; reflexivity].
      split; reflexivity.
    + intros ->. reflexivity.
Qed.

Lemma handleNext_validity (st : Store) (pg : Page) (focusInForm : bool)
  (r1 r2 : SaveReplies) :
  isFormValid pg = false ->
  isFormValid (run pg (effects (handleNext st pg focusInForm r1 r2))) = false.
Proof.
  intros Hv.
  pose proof (handleNext_page st pg focusInForm r1 r2) as H. cbv zeta in H.
  destruct (profileData st) as [p |].
  - destruct (canContinue pg); rewrite H; [reflexivity | exact Hv].
  - rewrite (proj2 H). exact Hv.
Qed.

Lemma perform_validity (v : View) (g : gesture) :
  isFormValid (page v) = false -> isFormValid (page (perform v g)) = false.
Proof.
  intros Hv.
  destruct g as [st mode | st | st f r1 r2 | | st mode sid e | st r];
    cbn [perform].
  - unfold initialStep.
    destruct (profileData st) as [p |]; [| exact Hv].
    destruct (negb (isLoading st) && (currentStep (page v) =? 0));
      [| exact Hv].
    destruct mode.
    + destruct (includes (completed_steps p) (u16 "welcome")).
      * match goal with
        | |- context [negb (?k =? -1)] => destruct (negb (k =? -1));
            [destruct (sectionAt k) as [s |] |]
        end; exact Hv.
      * destruct (negb (showWelcome v)); exact Hv.
    + exact Hv.
  - cbn [after page]. unfold getStarted. cbn [sectionAt].
    destruct (profileData st) as [p |] eqn:Hp; [| exact Hv].
    destruct (includes (completed_steps p) (u16 "welcome")); [exact Hv |].
    unfold updateProfile. rewrite Hp. exact Hv.
  - cbn [after page]. apply handleNext_validity. exact Hv.
  - cbn [after page]. unfold handleBack.
    destruct (0 <? currentStep (page v)); [| exact Hv].
    cbn [effects bind emit fst].
    destruct (sectionAt (currentStep (page v) - 1)); exact Hv.
  - cbn [after page]. unfold handleSectionClick.
    destruct (negb (target_is_currentTarget e)
              && negb (eqb (target_tagName e) (u16 "SPAN")));
      [exact Hv |].
    destruct ((match mode with profile => true | onboarding => false end)
              || is_completed st sid); [| exact Hv].
    destruct (negb (eqb (activeSection (page v)) sid)); exact Hv.
  - cbn [after page]. rewrite handleSaveSection_page.
    destruct (profileData st); [reflexivity | exact Hv].
Qed.

Lemma performAll_validity (gs : list gesture) :
  isFormValid (page (performAll initialView gs)) = false.
Proof.
  unfold performAll.
  induction gs as [| g gs IH] using rev_ind; [reflexivity |].
  rewrite fold_left_app. cbn [fold_left].
  apply perform_validity. exact IH.
Qed.

(** X18. The page never holds a valid form.  It passes no validation
    callback to the sections it renders, and none of its own handlers and
    effects sets [isFormValid]: from the mount on, whatever sequence of
    initial-step effects, Get Started, Continue, Back, clicks and saves the
    page goes through, [isFormValid] is false.  So on the personal and
    roles steps Continue records the attempt and does nothing else. *)
Theorem form_never_valid (gs : list gesture) :
  let pg := page (performAll initialView gs) in
  isFormValid pg = false
  /\ (forall st focusInForm r1 r2,
        gated pg = true ->
        effects (handleNext st pg focusInForm r1 r2)
        = [SetHasAttemptedContinue true]).
Proof.
  cbv zeta.
  pose proof (performAll_validity gs) as H.
  split; [exact H |].
  intros st f r1 r2 Hg. apply handleNext_blocked.
  rewrite canContinue_eq, H, Hg. cbn [negb orb]. apply andb_false_r.
Qed.

End PageFacts.

(* ================================================================== *)

(** ** The personal section's validity and the page *)

Module ValidityFacts.
Import Js Data Fx TieredPersonalInfo UnifiedProfileExperience PageOps.
Import Scenarios JsFacts RegexFacts PersonalInfoFacts PageFacts.




End ValidityFacts.

(* ================================================================== *)

Module SectionFacts.
Import Js Data TieredProfileSection SectionOps Scenarios.

Lemma allValid_always (fields : list TieredField) : allValid fields = true.
Proof.
  unfold allValid. induction (requiredFields fields) as [| f l IH];
    [reflexivity | exact IH].
Qed.

Lemma filter_split_length {A} (f : A -> bool) (l : list A) :
  (List.length (filter f l)
   + List.length (filter (fun x => negb (f x)) l))%nat
  = List.length l.
Proof.
  induction l as [| x l IH]; [reflexivity |].
  cbn [filter]. destruct (f x); cbn [negb List.length]; lia.
Qed.

(** X17. What the section wrapper makes of its fields.  Its validation
    effect reports every list of fields as valid: it passes [true] to
    [onValidationChange] whatever the fields are.  The two counters of its
    completion indicator partition the fields: the essential ones are
    those onboarding shows, and the essential and the additional ones
    together are the fields profile mode shows, each counted once. *)
Theorem section_wrapper_counts (mode : ThemeMode) (fields : list TieredField) :
  allValid fields = true
  /\ essentialCount fields
     = List.length (visibleFields (Some onboarding) mode fields)
  /\ (essentialCount fields + additionalCount fields)%nat
     = List.length (visibleFields (Some profile) mode fields).
Proof.
  split; [apply allValid_always |]. split; [reflexivity |].
  unfold essentialCount, additionalCount, visibleFields, currentMode.
  rewrite filter_split_length.
  assert (Hall : forall l : list TieredField, filter (visible profile) l = l).
  { induction l as [| f l IH]; [reflexivity |].
    cbn [filter visible]. now rewrite IH. }
  now rewrite Hall.
Qed.

End SectionFacts.

(* ================================================================== *)

Module AuthOpsFacts.
Import Js Data UserContext AuthOps Scenarios AuthQueueFacts.

Lemma begun_snoc_End (l : list mark) (e : AuthEvent) :
  begun (l ++ [End_ e]) = begun l.
Proof. rewrite begun_app. cbn [begun]. apply app_nil_r. Qed.

Lemma step_unmounted (p : Provider) (a : action) :
  mountedRef p = false ->
  authEventQueueRef p = [] ->
  let p' := step p a in
  mountedRef p' = false /\ authEventQueueRef p' = []
  /\ shown p' = shown p /\ begun (log p') = begun (log p).
Proof.
  intros Hm Hq. destruct a as [e | i |]; cbn [step].
  - unfold onAuthStateChange. rewrite Hm. cbn [negb]. auto.
  - destruct (pick i (suspended p)) as [[e others] |]; [| auto].
    unfold resume. cbn [authEventQueueRef]. rewrite Hq.
    cbn [mountedRef authEventQueueRef log].
    rewrite begun_snoc_End. auto.
  - unfold unmount. cbn. auto.
Qed.

(** X19. Once the provider is unmounted nothing moves any more: whatever
    events arrive and whatever loads settle afterwards, the session and the
    user it shows stay as they were, no further event is processed, and the
    queue stays empty. *)
Theorem unmounted_is_frozen (p : Provider) (acts : list action) :
  let p' := run (unmount p) acts in
  mountedRef p' = false
  /\ shown p' = shown p
  /\ begun (log p') = begun (log p)
  /\ authEventQueueRef p' = [].
Proof.
  cbv zeta.
  assert (H : forall q,
             mountedRef q = false -> authEventQueueRef q = [] ->
             mountedRef (run q acts) = false
             /\ shown (run q acts) = shown q
             /\ begun (log (run q acts)) = begun (log q)
             /\ authEventQueueRef (run q acts) = []).
  { induction acts as [| a acts IH]; intros q Hm Hq; [cbn; auto |].
    destruct (step_unmounted q a Hm Hq) as [Hm' [Hq' [Hs Hb]]].
    destruct (IH (step q a) Hm' Hq') as [R1 [R2 [R3 R4]]].
    change (run q (a :: acts)) with (run (step q a) acts).
    rewrite R2, R3, Hs, Hb. auto. }
  apply (H (unmount p)); reflexivity.
Qed.

Lemma processQueue_shorter (q : list AuthEvent) :
  forall p,
    mountedRef p = true ->
    processingAuthEventRef p = false ->
    q <> [] ->
    (List.length (authEventQueueRef (processQueue q p)) < List.length q)%nat.
Proof.
  induction q as [| e rest IH]; intros p Hm Hp Hne; [contradiction |].
  cbn [processQueue]. rewrite Hm, Hp. cbn [negb orb].
  match goal with
  | |- context [processSync e ?x] =>
      destruct (processSync_frame e x) as [s [u E]]; rewrite E
  end.
  cbn [mountedRef processingAuthEventRef authEventQueueRef sessionState
       userState suspended log].
  destruct (awaits e).
  - cbn [authEventQueueRef List.length]. lia.
  - destruct rest as [| e' rest'].
    + cbn [authEventQueueRef List.length]. lia.
    + match goal with
      | |- context [processQueue (e' :: rest') ?x] =>
          specialize (IH x eq_refl eq_refl)
      end.
      assert (Hne' : e' :: rest' <> []) by discriminate.
      specialize (IH Hne'). cbn [List.length] in *. lia.
Qed.

Lemma run_settle_S (p : Provider) (k : nat) :
  run p (settle (S k)) = run (step p (Settle 0)) (settle k).
Proof. reflexivity. Qed.

Lemma drain (n : nat) :
  forall p arrived,
    (List.length (authEventQueueRef p) < n)%nat ->
    mountedRef p = true ->
    Inv p ->
    begun (log p) ++ authEventQueueRef p = arrived ->
    exists k,
      (k <= n)%nat
      /\ mountedRef (run p (settle k)) = true
      /\ Inv (run p (settle k))
      /\ suspended (run p (settle k)) = []
      /\ begun (log (run p (settle k))) = arrived.
Proof.
  induction n as [| n IH]; intros p arrived Hlen Hm HI HF; [lia |].
  pose proof HI as HI0. unfold Inv in HI.
  destruct (suspended p) as [| e0 [| e1 l]] eqn:Hs; [| | contradiction].
  - exists 0%nat. destruct HI as [_ [_ Hq]].
    rewrite Hq, app_nil_r in HF.
    repeat split; [lia | exact Hm | exact HI0 | exact Hs | exact HF].
  - destruct (@step_Inv p (Settle 0) arrived HI0 (fun _ => HF)) as [HI1 HF1].
    assert (Hm1 : mountedRef (step p (Settle 0)) = true).
    { cbn [step]. rewrite Hs. cbn [pick]. unfold resume.
      cbn [authEventQueueRef].
      destruct (authEventQueueRef p); [exact Hm |].
      unfold processNextAuthEvent. rewrite processQueue_mounted. exact Hm. }
    destruct (HF1 Hm1) as [_ HF2]. rewrite app_nil_r in HF2.
    destruct (authEventQueueRef p) as [| e1 q] eqn:Hq.
    + exists 1%nat. rewrite run_settle_S. cbn [settle repeat run fold_left].
      assert (Hs1 : suspended (step p (Settle 0)) = []).
      { cbn [step]. rewrite Hs. cbn [pick]. unfold resume.
        cbn [authEventQueueRef]. rewrite Hq. reflexivity. }
      pose proof HI1 as HI1'. unfold Inv in HI1'. rewrite Hs1 in HI1'.
      destruct HI1' as [_ [_ Hq1]]. rewrite Hq1, app_nil_r in HF2.
      repeat split; [lia | exact Hm1 | exact HI1 | exact Hs1 | exact HF2].
    + assert (Hlen1 :
               (List.length (authEventQueueRef (step p (Settle 0))) < n)%nat).
      { cbn [step]. rewrite Hs. cbn [pick]. unfold resume.
        cbn [authEventQueueRef]. rewrite Hq.
        unfold processNextAuthEvent. cbn [authEventQueueRef].
        match goal with
        | |- context [processQueue ?qq ?x] =>
            pose proof (@processQueue_shorter qq x Hm eq_refl) as L
        end.
        assert (Hne : e1 :: q <> []) by discriminate.
        specialize (L Hne). cbn [List.length] in *. lia. }
      destruct (IH (step p (Settle 0)) arrived Hlen1 Hm1 HI1 HF2)
        as [k [Hk R]].
      exists (S k). rewrite run_settle_S. split; [lia | exact R].
Qed.

(** X20. Every event delivered is processed in the end.  From any state
    the mounted provider can reach, letting the suspended load settle at
    most once per queued event plus once empties the queue: nothing is
    left suspended or flagged as processing, the processings so far are
    exactly the events delivered, in order of arrival, and each has
    ended. *)
Theorem auth_events_all_processed (acts : list action) :
  let p := run mounted acts in
  mountedRef p = true ->
  exists k,
    (k <= S (List.length (authEventQueueRef p)))%nat
    /\ let q := run p (settle k) in
       processingAuthEventRef q = false
       /\ authEventQueueRef q = []
       /\ suspended q = []
       /\ begun (log q) = arrivals acts
       /\ Idle (log q).
Proof.
  intros p Hm. destruct (run_Inv acts) as [HI HF]. fold p in HI, HF.
  destruct (@drain (S (List.length (authEventQueueRef p))) p (arrivals acts)
              (Nat.lt_succ_diag_r _) Hm HI (HF Hm))
    as [k [Hk [Hm' [HI' [Hs' Hb']]]]].
  exists k. split; [exact Hk |]. cbv zeta.
  unfold Inv in HI'. rewrite Hs' in HI'. destruct HI' as [Hi [Hp Hq]].
  repeat split; assumption.
Qed.

Lemma auth_events_all_processed_witness :
  exists k,
    (k <= 3)%nat
    /\ begun (log (run (run mounted pending) (settle k)))
       = [signed_in; token_refreshed; signed_out].
Proof.
  destruct (auth_events_all_processed pending eq_refl)
    as [k [Hk [_ [_ [_ [Hb _]]]]]].
  exists k. split; [exact Hk | exact Hb].
Defined.

Lemma shown_processSync (e : AuthEvent) (p : Provider) :
  shown (processSync e p) = sync e (shown p).
Proof.
  unfold processSync, sync, shown.
  destruct (eqb (event e) SIGNED_IN); [reflexivity |].
  destruct (eqb (event e) SIGNED_OUT || eqb (event e) USER_DELETED);
    [reflexivity |].
  destruct (eqb (event e) TOKEN_REFRESHED); reflexivity.
Qed.

Lemma shown_replay (es : list AuthEvent) :
  forall p, shown (replay es p) = syncAll es (shown p).
Proof.
  induction es as [| e es IH]; intros p; [reflexivity |].
  cbn [replay fold_left syncAll].
  change (fold_left (fun q e0 => processSync e0 q) es (processSync e p))
    with (replay es (processSync e p)).
  rewrite IH, shown_processSync. reflexivity.
Qed.

Lemma syncAll_snoc (es : list AuthEvent) (e : AuthEvent)
  (s : option Session * option User) :
  syncAll (es ++ [e]) s = sync e (syncAll es s).
Proof. unfold syncAll. rewrite fold_left_app. reflexivity. Qed.

(** What is still to be shown once the queue is worked off does not change
    while the queue is worked on. *)
Lemma processQueue_shown (q : list AuthEvent) :
  forall p,
    authEventQueueRef p = q ->
    let p' := processQueue q p in
    syncAll (authEventQueueRef p') (shown p') = syncAll q (shown p).
Proof.
  induction q as [| e rest IH]; intros p Hq; cbn [processQueue].
  - destruct (negb (mountedRef p) || processingAuthEventRef p);
      cbv zeta; rewrite Hq; reflexivity.
  - destruct (negb (mountedRef p) || processingAuthEventRef p);
      [cbv zeta; rewrite Hq; reflexivity |].
    cbv zeta.
    match goal with
    | |- context [processSync e ?x] =>
        pose proof (shown_processSync e x) as Hsh;
        destruct (processSync_frame e x) as [s [u E]]; rewrite E in *
    end.
    cbn [mountedRef processingAuthEventRef authEventQueueRef sessionState
         userState suspended log] in *.
    unfold shown in Hsh. cbn [sessionState userState] in Hsh.
    destruct (awaits e).
    + unfold shown at 1. cbn [authEventQueueRef sessionState userState].
      rewrite Hsh. reflexivity.
    + destruct rest as [| e' rest'].
      * unfold shown at 1. cbn [authEventQueueRef sessionState userState].
        rewrite Hsh. reflexivity.
      * match goal with
        | |- context [processQueue (e' :: rest') ?x] =>
            specialize (IH x eq_refl)
        end.
        cbv zeta in IH. rewrite IH.
        unfold shown at 1. cbn [sessionState userState].
        rewrite Hsh. reflexivity.
Qed.

Lemma step_mounted (p : Provider) (a : action) :
  mountedRef (step p a) = true -> mountedRef p = true.
Proof.
  destruct a as [e | i |]; cbn [step].
  - unfold onAuthStateChange. destruct (mountedRef p) eqn:Hm; [reflexivity |].
    cbn [negb]. intros H. congruence.
  - destruct (pick i (suspended p)) as [[e others] |]; [| auto].
    unfold resume. cbn [authEventQueueRef].
    destruct (authEventQueueRef p); [auto |].
    unfold processNextAuthEvent. rewrite processQueue_mounted. auto.
  - intros H. discriminate H.
Qed.

Lemma sync_absorbs (e : AuthEvent) (q : list AuthEvent)
  (s : option Session * option User) :
  let s1 :=
    if eqb (event e) SIGNED_IN then (session e, event_user e)
    else if eqb (event e) SIGNED_OUT || eqb (event e) USER_DELETED
         then (None, None)
    else s in
  sync e (syncAll q s1) = sync e (syncAll q s).
Proof.
  cbv zeta. unfold sync at 1 2.
  destruct (eqb (event e) SIGNED_IN); [reflexivity |].
  destruct (eqb (event e) SIGNED_OUT || eqb (event e) USER_DELETED);
    reflexivity.
Qed.

Lemma step_shown (p : Provider) (a : action) (arrived : list AuthEvent) :
  (mountedRef p = true ->
   syncAll (authEventQueueRef p) (shown p) = syncAll arrived (shown mounted)) ->
  mountedRef (step p a) = true ->
  syncAll (authEventQueueRef (step p a)) (shown (step p a))
  = syncAll (arrived ++ match a with Arrive e => [e] | _ => [] end)
      (shown mounted).
Proof.
  intros HJ Hm'. pose proof (step_mounted p a Hm') as Hm.
  specialize (HJ Hm). destruct a as [e | i |]; cbn [step] in *.
  - rewrite syncAll_snoc, <- HJ.
    unfold onAuthStateChange. rewrite Hm. cbn [negb].
    unfold processNextAuthEvent. cbn [authEventQueueRef].
    match goal with
    | |- context [processQueue ?q ?x] =>
        pose proof (@processQueue_shown q x) as R
    end.
    cbv zeta in R. rewrite R.
    2:{ destruct (eqb (event e) SIGNED_IN); [reflexivity |].
        destruct (eqb (event e) SIGNED_OUT || eqb (event e) USER_DELETED);
          reflexivity. }
    rewrite <- (sync_absorbs e (authEventQueueRef p) (shown p)).
    cbv zeta.
    destruct (eqb (event e) SIGNED_IN);
      [cbn [authEventQueueRef]; rewrite syncAll_snoc; reflexivity |].
    destruct (eqb (event e) SIGNED_OUT || eqb (event e) USER_DELETED);
      cbn [authEventQueueRef]; rewrite syncAll_snoc; reflexivity.
  - rewrite app_nil_r, <- HJ.
    destruct (pick i (suspended p)) as [[e others] |]; [| reflexivity].
    unfold resume. cbn [authEventQueueRef].
    destruct (authEventQueueRef p) as [| e1 q] eqn:Hq; [reflexivity |].
    unfold processNextAuthEvent. cbn [authEventQueueRef]. rewrite ?Hq.
    match goal with
    | |- context [processQueue ?qq ?x] =>
        pose proof (@processQueue_shown qq x eq_refl) as R
    end.
    cbv zeta in R. rewrite R. reflexivity.
  - discriminate Hm'.
Qed.

Lemma run_shown (acts : list action) :
  let p := run mounted acts in
  mountedRef p = true ->
  syncAll (authEventQueueRef p) (shown p)
  = syncAll (arrivals acts) (shown mounted).
Proof.
  induction acts as [| a acts IH] using rev_ind; [reflexivity |].
  cbv zeta in *. unfold run in *. rewrite fold_left_app. cbn [fold_left].
  intros Hm. rewrite arrivals_snoc. apply step_shown; assumption.
Qed.

(** X21. Once the queue is worked off, what the provider shows is decided
    by the events delivered, in order of arrival, and not by when the loads
    settled: the session and the user are those obtained by applying each
    event's state update in turn.  In particular, if the last event
    delivered is a sign-out, no session and no user are shown, and if it is
    a sign-in, its session and user are. *)
Theorem auth_state_follows_events (acts : list action) :
  let p := run mounted acts in
  mountedRef p = true ->
  processingAuthEventRef p = false ->
  shown p = shown (replay (arrivals acts) mounted)
  /\ (forall es e,
        arrivals acts = es ++ [e] ->
        (event e = SIGNED_OUT -> shown p = (None, None))
        /\ (event e = SIGNED_IN -> shown p = (session e, event_user e))).
Proof.
  intros p Hm Hp.
  assert (Hshown : shown p = syncAll (arrivals acts) (shown mounted)).
  { pose proof (run_shown acts Hm) as R. fold p in R.
    destruct (run_Inv acts) as [HI _]. fold p in HI.
    unfold Inv in HI.
    destruct (suspended p) as [| e0 [| e1 l]]; [| | contradiction].
    - destruct HI as [_ [_ Hq]]. rewrite Hq in R. exact R.
    - destruct HI as [_ [Hbusy _]]. rewrite (Hbusy Hm) in Hp.
      discriminate Hp. }
  split.
  - rewrite shown_replay. exact Hshown.
  - intros es e Harr. rewrite Hshown, Harr, syncAll_snoc.
    split; intros He; unfold sync; rewrite He; reflexivity.
Qed.

Lemma auth_state_follows_events_witness :
  shown (run mounted burst) = (None, None).
Proof.
  destruct (auth_state_follows_events burst eq_refl eq_refl) as [_ H].
  destruct (H [signed_in; token_refreshed] signed_out eq_refl) as [H1 _].
  exact (H1 eq_refl).
Defined.

End AuthOpsFacts.

(* ================================================================== *)

Module UploadFacts.
Import Js Data ProfileContext Hx TieredResumeUpload JsFacts.
Local Open Scope Z_scope.

Lemma upload_run_app (u : Uploader) (l1 l2 : list event) :
  run u (l1 ++ l2) = run (run u l1) l2.
Proof. apply fold_left_app. Qed.

Lemma upload_run_cons (u : Uploader) (e : event) (l : list event) :
  run u (e :: l) = run (apply u e) l.
Proof. reflexivity. Qed.

Lemma upload_run_profile (u : Uploader) (l : list Fx.effect) :
  run u (map Profile l) = u.
Proof.
  revert u. induction l as [| e l IH]; intros u; [reflexivity |].
  cbn [map run fold_left apply]. apply IH.
Qed.

Lemma updateProfile_result (st : Store) (data : Partial) :
  Fx.result (updateProfile st data) = Some tt.
Proof. unfold updateProfile. destruct (profileData st); reflexivity. Qed.

Lemma profile_effects_map (l : list Fx.effect) :
  profile_effects (map Profile l) = l.
Proof. induction l as [| e l IH]; [reflexivity |]. cbn. now rewrite IH. Qed.

Lemma storage_map (l : list Fx.effect) :
  filter is_storage (map Profile l) = [].
Proof. induction l as [| e l IH]; [reflexivity |]. cbn. exact IH. Qed.

(** The handler, with its [try], [catch] and [finally] worked out. *)
Lemma handleFileUpload_trace (st : Store) (w : World) (file : File) :
  handleFileUpload st w file =
    ([SetIsUploading true; SetError None; SetSuccess false;
      SetUploadProgress 0]
     ++ (if negb (includes validTypes (File_type file)) then
           [SetError (Some (u16 "Please upload a PDF or Word document"))]
         else if maxSize <? File_size file then
           [SetError (Some (u16 "File size must be less than 5MB"))]
         else
           StorageUpload (u16 "resumes") (filePath st w file) file
           :: match upload w with
              | Answered None =>
                  StorageGetPublicUrl (u16 "resumes") (filePath st w file)
                  :: map Profile
                       (Fx.effects
                          (updateProfile st
                             [resume_ {| file_url := publicUrl w;
                                         file_name := File_name file;
                                         upload_date := isoNow w |}]))
                  ++ [SetSuccess true]
              | Answered (Some (Error_ message)) | Rejected (Error_ message) =>
                  [SetError (Some message)]
              | _ => [SetError (Some (u16 "Failed to upload resume"))]
              end)
     ++ [SetIsUploading false],
     inl tt).
Proof.
  unfold handleFileUpload.
  destruct (negb (includes validTypes (File_type file))); [reflexivity |].
  destruct (maxSize <? File_size file); [reflexivity |].
  destruct (upload w) as [[[message |] |] | [message |]]; try reflexivity.
  unfold lift. rewrite updateProfile_result.
  destruct (updateProfile st _) as [l r]. cbn.
  rewrite <- !app_assoc. reflexivity.
Qed.

(** X22. The upload handler always comes to an end and tells how it went.
    Whatever the file, the store and the storage service's answer, also a
    rejection, [handleFileUpload] throws nothing and leaves the component
    not uploading; it shows success exactly when the file passed both
    checks and the upload answered without error, whether or not a profile
    is loaded to record it in, and it shows an error message exactly when
    it does not show success. *)
Theorem handleFileUpload_outcome (st : Store) (w : World) (file : File)
  (u0 : Uploader) :
  let m := handleFileUpload st w file in
  let u := run u0 (events m) in
  outcome m = inl tt
  /\ isUploading u = false
  /\ (success u = true <-> accepted file = true /\ upload w = Answered None)
  /\ (error u = None <-> success u = true).
Proof.
  cbv zeta. rewrite handleFileUpload_trace. unfold accepted, events, outcome.
  cbn [fst snd].
  destruct (includes validTypes (File_type file));
    destruct (maxSize <? File_size file); cbn [negb andb];
    try (cbn; repeat split; intros; try discriminate;
         intuition discriminate).
  destruct (upload w) as [[[message |] |] | [message |]];
    try (cbn; repeat split; intros; try discriminate;
         intuition discriminate).
  rewrite !upload_run_app, !upload_run_cons, upload_run_app, upload_run_profile. cbn.
  repeat split; intros; try discriminate; auto.
Qed.

(** X23. A file of another type, or of more than 5 * 1024 * 1024 bytes,
    goes nowhere: the handler calls the storage service not at all, leaves
    the profile store alone, and shows the message of the check that
    failed, the type being checked first. *)
Theorem handleFileUpload_gate (st : Store) (w : World) (file : File)
  (u0 : Uploader) :
  accepted file = false ->
  let m := handleFileUpload st w file in
  filter is_storage (events m) = []
  /\ profile_effects (events m) = []
  /\ error (run u0 (events m))
     = Some (if includes validTypes (File_type file)
             then u16 "File size must be less than 5MB"
             else u16 "Please upload a PDF or Word document").
Proof.
  intros Hacc. cbv zeta. rewrite handleFileUpload_trace.
  unfold accepted in Hacc. unfold events. cbn [fst].
  destruct (includes validTypes (File_type file)); cbn [negb andb] in *.
  - destruct (maxSize <? File_size file); [| discriminate Hacc].
    repeat split.
  - repeat split.
Qed.

Lemma handleFileUpload_gate_witness :
  error (run initialUploader (events (handleFileUpload initialStore fine pdf_too_big)))
  = Some (u16 "File size must be less than 5MB")
  /\ error (run initialUploader (events (handleFileUpload initialStore fine picture)))
     = Some (u16 "Please upload a PDF or Word document").
Proof.
  split.
  - exact (proj2 (proj2 (@handleFileUpload_gate initialStore fine pdf_too_big
                           initialUploader eq_refl))).
  - exact (proj2 (proj2 (@handleFileUpload_gate initialStore fine picture
                           initialUploader eq_refl))).
Defined.

(** X24. What an accepted upload records.  When the file passes the checks
    and the storage service answers without error, the handler uploads once
    to the bucket [resumes], asks for the public URL of the same path, and
    the loaded aggregate then holds as [resume] the public URL, the file's
    name and the date; its [resume_url], and everything the completion
    status is computed from, are as before, and nothing is sent to the
    remote tables. *)
Theorem handleFileUpload_records (st : Store) (w : World) (file : File)
  (p : ProfileData) :
  profileData st = Some p ->
  accepted file = true ->
  upload w = Answered None ->
  let m := handleFileUpload st w file in
  let st' := ProfileContext.run st (profile_effects (events m)) in
  let record :=
    {| file_url := publicUrl w; file_name := File_name file;
       upload_date := isoNow w |} in
  filter is_storage (events m)
  = [StorageUpload (u16 "resumes") (filePath st w file) file;
     StorageGetPublicUrl (u16 "resumes") (filePath st w file)]
  /\ profileData st' = Some (assign p (resume_ record))
  /\ resume (assign p (resume_ record)) = Some record
  /\ resume_url (assign p (resume_ record)) = resume_url p
  /\ completionStatus st' = StoreOps.status_of p
  /\ forallb (fun e => negb (Fx.is_remote e)) (profile_effects (events m))
     = true.
Proof.
  intros Hp Hacc Hup. cbv zeta. rewrite handleFileUpload_trace.
  unfold accepted in Hacc. apply andb_true_iff in Hacc.
  destruct Hacc as [Hty Hsz]. rewrite Hty, Hup.
  apply negb_true_iff in Hsz. rewrite Hsz. cbn [negb].
  rewrite (@StoreOpsFacts.updateProfile_loaded st p _ Hp).
  unfold events. cbn [fst Fx.effects map app filter is_storage
                      profile_effects].
  repeat split.
Qed.

Lemma handleFileUpload_records_witness :
  option_map resume
    (profileData
       (ProfileContext.run Scenarios.scenarioC
          (profile_effects
             (events (handleFileUpload Scenarios.scenarioC fine pdf_5MiB)))))
  = Some (Some {| file_url := publicUrl fine;
                  file_name := u16 "cv.final.pdf";
                  upload_date := isoNow fine |}).
Proof.
  destruct (@handleFileUpload_records Scenarios.scenarioC fine pdf_5MiB
              Scenarios.frontend_two_steps eq_refl eq_refl eq_refl)
    as [_ [H _]].
  cbv zeta in H. rewrite H. reflexivity.
Defined.

(** X25. An uploaded resume does not survive a reload.  After an accepted
    upload the aggregate holds the record; a save made from the next render
    writes exactly what it would have written without the upload, so the
    record reaches no table; and after a load that runs to its end the
    aggregate holds no [resume] any more. *)
Theorem upload_lost_on_reload (st : Store) (p : ProfileData) (w : World)
  (file : File) (r : SaveReplies) (u : User) (lr : LoadReplies)
  (e0 : option PostgrestError) :
  profileData st = Some p ->
  accepted file = true ->
  upload w = Answered None ->
  get_user lr = Reply (Some u) e0 ->
  answered (profiles_select lr) = true ->
  other_error (profiles_select lr) = false ->
  answered (preferences_select lr) = true ->
  answered (onboarding_select lr) = true ->
  let record :=
    {| file_url := publicUrl w; file_name := File_name file;
       upload_date := isoNow w |} in
  let st1 :=
    ProfileContext.run st
      (profile_effects (events (handleFileUpload st w file))) in
  let st2 := ProfileContext.run st1 (Fx.effects (saveProfile st1 r)) in
  let st3 := ProfileContext.run st2 (Fx.effects (loadProfileData lr)) in
  option_map resume (profileData st2) = Some (Some record)
  /\ Fx.effects (saveProfile st1 r) = Fx.effects (saveProfile st r)
  /\ option_map resume (profileData st3) = Some None.
Proof.
  intros Hp Hacc Hup Hu Ha1 He1 Ha2 Ha3 record st1 st2 st3.
  assert (H1 : st1 =
                 {| profileData := Some (assign p (resume_ record));
                    isLoading := isLoading st;
                    completionStatus := StoreOps.status_of p |}).
  { unfold st1. rewrite handleFileUpload_trace.
    unfold accepted in Hacc. apply andb_true_iff in Hacc.
    destruct Hacc as [Hty Hsz]. rewrite Hty, Hup.
    apply negb_true_iff in Hsz. rewrite Hsz. cbn [negb].
    rewrite (@StoreOpsFacts.updateProfile_loaded st p _ Hp).
    reflexivity. }
  split; [| split].
  - unfold st2. rewrite StoreOpsFacts.saveProfile_store, H1. reflexivity.
  - rewrite H1. destruct st as [pd l cs]. cbn [profileData] in Hp. subst pd.
    reflexivity.
  - unfold st3.
    rewrite (@StoreOpsFacts.run_load_continues u lr e0 st2 Hu Ha1 He1 Ha2 Ha3).
    reflexivity.
Qed.

Lemma upload_lost_on_reload_witness :
  let st1 :=
    ProfileContext.run Scenarios.scenarioC
      (profile_effects
         (events (handleFileUpload Scenarios.scenarioC fine pdf_5MiB))) in
  option_map resume
    (profileData
       (ProfileContext.run
          (ProfileContext.run st1 (Fx.effects (saveProfile st1 Scenarios.all_ok)))
          (Fx.effects (loadProfileData Scenarios.scenarioA))))
  = Some None.
Proof.
  exact (proj2 (proj2 (@upload_lost_on_reload Scenarios.scenarioC
                         Scenarios.frontend_two_steps fine pdf_5MiB
                         Scenarios.all_ok Scenarios.ada Scenarios.scenarioA
                         None eq_refl eq_refl eq_refl eq_refl eq_refl eq_refl
                         eq_refl eq_refl))).
Defined.

Lemma split_not_nil (sep : code_unit) (s : jsstring) : split sep s <> [].
Proof.
  destruct s as [| c s]; cbn [split]; [discriminate |].
  destruct (N.eqb c sep); [discriminate |].
  destruct (split sep s); discriminate.
Qed.

Lemma split_without (sep : code_unit) (s : jsstring) :
  ~ In sep s -> split sep s = [s].
Proof.
  induction s as [| c s IH]; intros Hn; [reflexivity |].
  cbn [split]. destruct (N.eqb c sep) eqn:Hc.
  - apply N.eqb_eq in Hc. contradiction Hn. left. exact Hc.
  - rewrite IH; [reflexivity |]. intros H. apply Hn. right. exact H.
Qed.

Lemma split_at_sep (sep : code_unit) (a b : jsstring) :
  ~ In sep b -> split sep (a ++ sep :: b) = split sep a ++ [b].
Proof.
  intros Hn. induction a as [| c a IH].
  - cbn [app split]. rewrite N.eqb_refl, (split_without sep b Hn). reflexivity.
  - cbn [app split]. destruct (N.eqb c sep).
    + rewrite IH. reflexivity.
    + rewrite IH. pose proof (split_not_nil sep a) as Hne.
      destruct (split sep a) as [| piece pieces]; [contradiction |].
      reflexivity.
Qed.

(** X26. The extension the stored path ends with is the part of the file's
    name after its last dot; a name without a dot is its own extension. *)
Theorem fileExt_spec (name : jsstring) :
  (~ In 46%N name -> fileExt name = name)
  /\ (forall a b : jsstring,
        name = a ++ 46%N :: b -> ~ In 46%N b -> fileExt name = b).
Proof.
  unfold fileExt. split.
  - intros Hn. rewrite (split_without _ _ Hn). reflexivity.
  - intros a b -> Hn.
    transitivity (last (split 46%N a ++ [b]) []);
      [f_equal; exact (split_at_sep 46%N a b Hn) | apply last_last].
Qed.

Lemma fileExt_spec_witness :
  fileExt (u16 "cv.final.pdf") = u16 "pdf"
  /\ fileExt (u16 "resume") = u16 "resume".
Proof.
  split.
  - apply (proj2 (fileExt_spec (u16 "cv.final.pdf")) (u16 "cv.final")
             (u16 "pdf")); [reflexivity |].
    vm_compute. intuition discriminate.
  - apply (proj1 (fileExt_spec (u16 "resume"))).
    vm_compute. intuition discriminate.
Defined.

End UploadFacts.

(* ================================================================== *)

Module PersonalInfoOpsFacts.
Import Js Data ProfileContext TieredPersonalInfo Hx PersonalInfoOps JsFacts.

(** X27. The personal section never prefills itself.  [initializeFields]
    refers to [setIsLoading], which the component does not declare: with a
    profile or a user at hand it fails at its first statement, and again in
    its [finally] block, before any field is set.  So however often the
    component's three effects run, and with whatever profile, user and
    fields, they set no field, leave [initializedRef] false and
    [profileDataRef] null, and never run the validation. *)
Theorem effects_never_initialise (rs : list effectRun) :
  runEffects initialRefs rs = (initialRefs, [])
  /\ (forall profileData user,
        is_none profileData && is_none user = false ->
        initializeFields initialRefs profileData user
        = ([], inr setIsLoading_is_not_defined)).
Proof.
  split.
  - induction rs as [| r rs IH]; [reflexivity |].
    cbn [runEffects].
    assert (H : effectEvents initialRefs r = []).
    { destruct r as [pd user | pd f cb | f cb]; cbn [effectEvents].
      - unfold initializeEffect, initializeFields.
        cbn [initializedRef initialRefs orb].
        destruct (is_none pd && is_none user); reflexivity.
      - unfold changedEffect. destruct pd; reflexivity.
      - reflexivity. }
    rewrite H. cbn [fold_left app]. rewrite IH. reflexivity.
  - intros pd user Hdata. unfold initializeFields.
    cbn [initializedRef initialRefs orb]. rewrite Hdata. reflexivity.
Qed.

Ltac concrete_eqb :=
  repeat match goal with
         | |- context [eqb (u16 ?a) (u16 ?b)] =>
             let r := eval vm_compute in (eqb (u16 a) (u16 b)) in
             change (eqb (u16 a) (u16 b)) with r
         end.

Lemma handleChange_trace (field : jsstring) (setter : jsstring -> event)
  (key : jsstring -> FieldUpdate) (st : Store) (p : ProfileData)
  (value : jsstring) :
  In (field, setter, key) wiring ->
  profileData st = Some p ->
  handleChange st field value =
    (setter value
     :: (if stale p (key value)
         then map Outside
                [Fx.SetProfileData (assign p (key value));
                 Fx.SetCompletionStatus
                   (StoreOps.status_of (assign p (key value)))]
         else []),
     inl tt).
Proof.
  intros Hin Hp. unfold wiring in Hin.
  repeat (destruct Hin as [Hin | Hin];
          [inversion Hin; subst field setter key; clear Hin |]);
    [.. | contradiction].
  all: unfold handleChange, mapFieldToProfileKey, computed; rewrite Hp;
    do 2 (cbn [lookup mapping is_key stale]; concrete_eqb; cbv iota beta);
    rewrite (StoreOpsFacts.updateProfile_loaded st _ Hp);
    match goal with
    | |- context [if ?b then _ else _] => destruct b
    end; reflexivity.
Qed.

Lemma differs_spec (stored : option jsstring) (value : jsstring) :
  differs stored value = false <-> stored = Some value.
Proof.
  unfold differs. destruct stored as [s |].
  - rewrite negb_false_iff, eqb_eq. split; [intros -> | intros [= ->]]; reflexivity.
  - split; discriminate.
Qed.

Lemma stale_spec (field : jsstring) (setter : jsstring -> event)
  (key : jsstring -> FieldUpdate) (p : ProfileData) (value : jsstring) :
  In (field, setter, key) wiring ->
  stale p (key value) = false <-> StoreOps.holds (key value) p.
Proof.
  intros Hin. unfold wiring in Hin.
  repeat (destruct Hin as [Hin | Hin];
          [inversion Hin; subst field setter key; clear Hin |]);
    [.. | contradiction];
    cbn [stale StoreOps.holds];
    try apply differs_spec;
    rewrite negb_false_iff; apply eqb_eq.
Qed.

Lemma handleChange_known (field : jsstring)
  (setter : jsstring -> event) (key : jsstring -> FieldUpdate)
  (st : Store) (p : ProfileData) (value : jsstring) :
  In (field, setter, key) wiring ->
  profileData st = Some p ->
  let m := handleChange st field value in
  let st' := ProfileContext.run st (outside (events m)) in
  outcome m = inl tt
  /\ filter is_setter (events m) = [setter value]
  /\ (exists p', profileData st' = Some p' /\ StoreOps.holds (key value) p')
  /\ (StoreOps.holds (key value) p <-> outside (events m) = [])
  /\ forallb (fun e => negb (Fx.is_remote e)) (outside (events m)) = true.
Proof.
  intros Hin Hp m st'. unfold st', m.
  rewrite (@handleChange_trace _ _ _ st p value Hin Hp).
  pose proof (@stale_spec _ _ _ p value Hin) as Hs.
  assert (Hset : is_setter (setter value) = true).
  { unfold wiring in Hin.
    repeat (destruct Hin as [Hin | Hin];
            [inversion Hin; reflexivity |]); contradiction. }
  assert (Hout : outside [setter value] = []).
  { unfold wiring in Hin.
    repeat (destruct Hin as [Hin | Hin];
            [inversion Hin; reflexivity |]); contradiction. }
  unfold events, outcome. cbn [fst snd].
  split; [reflexivity |].
  assert (Hrun : forall l,
             outside (setter value :: map Outside l) = l).
  { intros l. change (setter value :: map Outside l)
      with ([setter value] ++ map Outside l).
    assert (Happ : forall a b, outside (a ++ b) = outside a ++ outside b).
    { induction a as [| e a IH]; intros b; [reflexivity |].
      destruct e; cbn [app outside]; rewrite ?IH; reflexivity. }
    rewrite Happ, Hout. cbn [app].
    induction l as [| e l IH]; [reflexivity |].
    cbn [map outside]. now rewrite IH. }
  destruct (stale p (key value)) eqn:Hst.
  - rewrite Hrun.
    split; [cbn [filter map is_setter]; rewrite Hset; reflexivity |].
    split; [| split].
    + exists (assign p (key value)). split; [reflexivity |].
      apply StoreOpsFacts.assign_holds.
    + split; [| discriminate].
      intros H. apply Hs in H. discriminate H.
    + reflexivity.
  - change (@nil event) with (map Outside []). rewrite Hrun.
    split; [cbn [filter map is_setter]; rewrite Hset; reflexivity |].
    split; [| split].
    + exists p. split; [exact Hp |]. apply Hs. reflexivity.
    + split; [reflexivity |]. intros _. apply Hs. reflexivity.
    + reflexivity.
Qed.

Lemma setters_of_outside (l : list Fx.effect) :
  filter is_setter (map Outside l) = [].
Proof. induction l as [| e l IH]; [reflexivity | exact IH]. Qed.

Lemma update_caught (st : Store) (data : Partial)
  (h : thrown -> M event unit) :
  try_catch (lift Outside (updateProfile st data)) h
  = (map Outside (Fx.effects (updateProfile st data)), inl tt).
Proof.
  unfold lift. rewrite UploadFacts.updateProfile_result. reflexivity.
Qed.

Lemma handleChange_unknown (st : Store) (field value : jsstring) :
  lookup field mapping = None ->
  let m := handleChange st field value in
  outcome m = inl tt
  /\ filter is_setter (events m) = []
  /\ (includes objectPrototypeKeys field = true -> events m = []).
Proof.
  intros Hl. cbv zeta. unfold handleChange, mapFieldToProfileKey.
  rewrite Hl. cbn [lookup mapping] in Hl.
  repeat match type of Hl with
         | (if eqb field ?k then _ else _) = None =>
             destruct (eqb field k); [discriminate Hl |]
         end.
  destruct (profileData st) as [p |].
  2:{ cbn. auto. }
  destruct (includes objectPrototypeKeys field).
  - cbn. auto.
  - match goal with
    | |- context [if ?b then try_catch _ _ else _] => destruct b
    end.
    + rewrite update_caught. cbn [bind ret outcome events fst snd app].
      destruct (updateProfile st _) as [l r]. cbn.
      split; [reflexivity |]. split; [apply setters_of_outside | discriminate].
    + cbn. split; [reflexivity |]. split; [reflexivity | discriminate].
Qed.

(** X28. What is typed reaches the aggregate.  For each of the nine inputs,
    [handleChange] calls the setter of that input and no other, and on a
    loaded store the aggregate then holds the value under the key the input
    stands for; the store is written exactly when it did not hold the value
    already, nothing is sent to the remote store, and nothing is thrown.
    For a field name that is none of the nine no setter is called, and for
    a name the mapping object inherits, such as [toString], nothing happens
    at all. *)
Theorem handleChange_writes_through (st : Store) (value : jsstring) :
  (forall field setter key p,
     In (field, setter, key) wiring ->
     profileData st = Some p ->
     let m := handleChange st field value in
     let st' := ProfileContext.run st (outside (events m)) in
     outcome m = inl tt
     /\ filter is_setter (events m) = [setter value]
     /\ (exists p', profileData st' = Some p' /\ StoreOps.holds (key value) p')
     /\ (StoreOps.holds (key value) p <-> outside (events m) = [])
     /\ forallb (fun e => negb (Fx.is_remote e)) (outside (events m)) = true)
  /\ (forall field,
        lookup field mapping = None ->
        let m := handleChange st field value in
        outcome m = inl tt
        /\ filter is_setter (events m) = []
        /\ (includes objectPrototypeKeys field = true -> events m = [])).
Proof.
  split.
  - intros field setter key p Hin Hp.
    exact (@handleChange_known field setter key st p value Hin Hp).
  - intros field Hl. exact (@handleChange_unknown st field value Hl).
Qed.

Lemma handleChange_writes_through_witness :
  outside
    (events (handleChange Scenarios.scenarioC (u16 "title") (u16 "Engineer")))
  <> []
  /\ events (handleChange Scenarios.scenarioC (u16 "toString") (u16 "x")) = [].
Proof.
  destruct (handleChange_writes_through Scenarios.scenarioC (u16 "Engineer"))
    as [H _].
  destruct (H (u16 "title") SetTitle title_ Scenarios.frontend_two_steps
              (or_intror (or_intror (or_intror (or_intror (or_introl eq_refl)))))
              eq_refl)
    as [_ [_ [_ [H1 _]]]].
  destruct (handleChange_writes_through Scenarios.scenarioC (u16 "x"))
    as [_ H2].
  destruct (H2 (u16 "toString") eq_refl) as [_ [_ H3]].
  split.
  - intros Hnil. apply H1 in Hnil. discriminate Hnil.
  - exact (H3 eq_refl).
Defined.

Lemma existsb_in (c : code_unit) (s : jsstring) :
  In c s -> includes_char s c = true.
Proof.
  intros H. unfold includes_char. apply existsb_exists.
  exists c. split; [exact H | apply N.eqb_refl].
Qed.

(** X29. The marks of the name and email inputs are weaker than the
    validation: a name or an email that [validateAndNotify] accepts is
    marked valid, but a one-letter name and the email "@." are marked valid
    and not accepted. *)
Theorem marks_weaker_than_validators :
  (forall s, nameValid s = true -> nameMark s = true)
  /\ (forall s, emailValid s = true -> emailMark s = true)
  /\ (exists s, nameMark s = true /\ nameValid s = false)
  /\ (exists s, emailMark s = true /\ emailValid s = false).
Proof.
  split; [| split; [| split]].
  - intros s H. unfold nameValid in H. unfold nameMark.
    apply Nat.leb_le in H. apply Nat.ltb_lt. lia.
  - intros s H. apply PersonalInfoFacts.emailValid_spec in H.
    destruct H as [a [b [c [-> _]]]].
    unfold emailMark. apply andb_true_iff. split; apply existsb_in.
    + apply in_or_app. right. left. reflexivity.
    + apply in_or_app. right. right. apply in_or_app. right. left.
      reflexivity.
  - exists (u16 "A"). split; reflexivity.
  - exists (u16 "@."). split; reflexivity.
Qed.

End PersonalInfoOpsFacts.

(* ================================================================== *)

Module UserRolesFacts.
Import Js Data Hx UserRoles JsFacts.

(** X30. The default role always ends up set.  While the provider stays
    mounted, [ensureUserHasDefaultRole] leaves exactly one role, named
    [user], and the single permission [basic_access], whatever the two
    remote calls answer and also when they reject.  The role carries the
    id the roles table gave when the role was found and the insert
    answered, also with an error; in every other case, so also when the
    insert rejects, it carries the id [default].  The function throws
    nothing, does nothing when called on an unmounted provider, and sets
    nothing once the provider is found unmounted after the first call. *)
Theorem ensureUserHasDefaultRole_outcome (userId : jsstring) (mt : Mounted)
  (roleReply : reply RoleRow) (assignReply : reply unit) (h : Held) :
  let m := ensureUserHasDefaultRole userId mt roleReply assignReply in
  let h' := run h (events m) in
  outcome m = inl tt
  /\ (at_call mt = false -> events m = [])
  /\ (after_select mt = false -> filter is_setter (events m) = [])
  /\ (at_call mt = true -> after_select mt = true -> after_insert mt = true ->
      permissions h' = [u16 "basic_access"]
      /\ hasRole h' (u16 "user") = true
      /\ hasPermission h' (u16 "admin_access") = false
      /\ roles h'
         = [ {| role_id :=
                  match roleReply, assignReply with
                  | Reply (Some row) None, Reply _ _ => row_id row
                  | _, _ => u16 "default"
                  end;
                role_name := u16 "user" |} ]).
Proof.
  cbv zeta. unfold ensureUserHasDefaultRole.
  destruct mt as [m0 m1 m2]. cbn [at_call after_select after_insert].
  destruct m0; cbn [negb].
  2:{ cbn. repeat split; intros; try discriminate; reflexivity. }
  destruct roleReply as [[row |] [e |] |]; destruct m1; cbn [negb].
  all: try (cbn; repeat split; intros; try discriminate; reflexivity).
  destruct assignReply as [d [e |] |]; destruct m2; cbn [negb].
  all: cbn;
    try match goal with
        | |- context [str_includes ?a ?b] => destruct (str_includes a b)
        end;
    cbn; repeat split; intros; try discriminate; reflexivity.
Qed.

Lemma ensureUserHasDefaultRole_outcome_witness :
  roles
    (run {| roles := []; permissions := [] |}
       (events (ensureUserHasDefaultRole (u16 "u-1") stays_mounted found
                  refused)))
  = [ {| role_id := u16 "r-17"; role_name := u16 "user" |} ]
  /\ roles
       (run {| roles := []; permissions := [] |}
          (events (ensureUserHasDefaultRole (u16 "u-1") stays_mounted found
                     Rejects)))
     = [ {| role_id := u16 "default"; role_name := u16 "user" |} ].
Proof.
  split.
  - destruct (ensureUserHasDefaultRole_outcome (u16 "u-1") stays_mounted found
                refused {| roles := []; permissions := [] |})
      as [_ [_ [_ H]]].
    destruct (H eq_refl eq_refl eq_refl) as [_ [_ [_ Hr]]].
    exact Hr.
  - destruct (ensureUserHasDefaultRole_outcome (u16 "u-1") stays_mounted found
                Rejects {| roles := []; permissions := [] |})
      as [_ [_ [_ H]]].
    destruct (H eq_refl eq_refl eq_refl) as [_ [_ [_ Hr]]].
    exact Hr.
Defined.
End UserRolesFacts.
